(** * Polyinsider: ingestion parser, USD-value heuristic, burst tracker and
    signal detector, embedded from the Go sources and checked against the
    written specification.

    Layout of the development:
    - [F64]      IEEE-754 binary64 values and the operators Go applies to
                 [float64] (on the Standard Library's executable [spec_float]);
    - [strconv]  the Go standard library's [strconv.ParseFloat] and
                 [strconv.ParseInt], modelled from their documentation;
    - [json]     the values [encoding/json] decodes, and decoding into the
                 string-typed struct fields the parser declares;
    - [store], [ingest], [detector]  the repository's packages;
    - the statements about them;
    - the rest of the engine: the websocket listener, the REST poller, the
      market list, [config], [metrics], the worker and the feeds of the UI,
      with their properties at the end. *)

From Stdlib Require Import ZArith Ascii String List Bool Lia Sorted.
From Stdlib Require Import Floats.SpecFloat.
From stdpp Require Import gmap strings list fin_maps pretty.

Local Open Scope Z_scope.

(* ===================================================================== *)
(** ** float64                                                            *)
(* ===================================================================== *)

Module F64.

Definition prec : Z := 53.
Definition emax : Z := 1024.

(** A Go [float64].  NaN payloads are not distinguished (Go's comparison
    and arithmetic operators do not observe them). *)
Definition float64 : Type := spec_float.

Definition zero : float64 := S754_zero false.
Definition nan : float64 := S754_nan.
Definition inf (neg : bool) : float64 := S754_infinity neg.

(** Integer constant converted to float64 (round to nearest even). *)
Definition of_Z (n : Z) : float64 := binary_normalize prec emax n 0 false.

(** Go's [==], [<], [<=], [>], [>=] on float64: every comparison with a
    NaN operand is false. *)
Definition eqb (x y : float64) : bool := SFeqb x y.
Definition ltb (x y : float64) : bool := SFltb x y.
Definition leb (x y : float64) : bool := SFleb x y.
Definition gtb (x y : float64) : bool := SFltb y x.
Definition geb (x y : float64) : bool := SFleb y x.

Definition abs (x : float64) : float64 := SFabs x.
Definition sub (x y : float64) : float64 := SFsub prec emax x y.
Definition mul (x y : float64) : float64 := SFmul prec emax x y.
Definition div (x y : float64) : float64 := SFdiv prec emax x y.

(** The correctly rounded float64 nearest to [(-1)^neg * m * 10^e10],
    for [0 <= m].  A negative power of ten is divided out with enough
    extra quotient bits for the remainder to act as a sticky bit. *)
Definition of_decimal (neg : bool) (m e10 : Z) : float64 :=
  match m with
  | Z0 => S754_zero neg
  | Zneg _ => S754_nan
  | Zpos _ =>
      if 0 <=? e10 then
        binary_normalize prec emax ((if neg then - m else m) * 10 ^ e10) 0 neg
      else
        let d := 10 ^ (- e10) in
        let s := Z.log2_up d + 64 in
        let n := Z.shiftl m s in
        let q := n / d in
        let r := n mod d in
        let l := if r =? 0 then loc_Exact else loc_Inexact (Z.compare (2 * r) d) in
        binary_round_aux prec emax neg q (- s) l
  end.

(** The correctly rounded float64 nearest to [(-1)^neg * m * 2^e2]. *)
Definition of_binary (neg : bool) (m e2 : Z) : float64 :=
  binary_normalize prec emax (if neg then - m else m) e2 neg.

Definition is_inf (x : float64) : bool :=
  match x with S754_infinity _ => true | _ => false end.

End F64.

Abbreviation float64 := F64.float64.

(* ===================================================================== *)
(** ** strconv (Go standard library)                                      *)
(* ===================================================================== *)

(** The repository calls [strconv.ParseFloat(s, 64)] and
    [strconv.ParseInt(s, 10, 64)].  Both belong to the Go standard library;
    they are modelled here from the library's documented behaviour: the
    accepted grammar (decimal and hexadecimal mantissas, digit-separating
    underscores, the special values), rounding to the nearest float64 with
    ties to even, and the two error kinds. *)
Module strconv.

Inductive NumError := ErrSyntax | ErrRange.

Definition byte_of (c : ascii) : Z := Z.of_N (N_of_ascii c).

Definition is_digit (c : ascii) : bool :=
  (48 <=? byte_of c) && (byte_of c <=? 57).

(** [lower(c) = c | ('x' - 'X')] *)
Definition lower (c : ascii) : ascii :=
  ascii_of_N (N.lor (N_of_ascii c) 32).

Definition is_hex_letter (c : ascii) : bool :=
  (97 <=? byte_of (lower c)) && (byte_of (lower c) <=? 102).

Definition digit_val (c : ascii) : Z := byte_of c - 48.
Definition hex_letter_val (c : ascii) : Z := byte_of (lower c) - 97 + 10.

Definition chr (c d : ascii) : bool := Ascii.eqb c d.

(** [commonPrefixLenIgnoreCase]: only upper-case ASCII letters of [s] are
    folded; [prefix] is lower case. *)
Definition fold_upper (c : ascii) : ascii :=
  if (65 <=? byte_of c) && (byte_of c <=? 90)
  then ascii_of_N (N_of_ascii c + 32) else c.

Fixpoint commonPrefixLenIgnoreCase (s prefix : list ascii) : nat :=
  match s, prefix with
  | c :: s', p :: prefix' =>
      if chr (fold_upper c) p then S (commonPrefixLenIgnoreCase s' prefix') else O
  | _, _ => O
  end.

(** [special]: the optionally signed infinities and the unsigned NaN.
    Returns the value and the unconsumed rest of the input. *)
Definition special_inf (neg : bool) (s : list ascii) : option (float64 * list ascii) :=
  let n := commonPrefixLenIgnoreCase s (list_ascii_of_string "infinity") in
  let n := if (Nat.ltb 3 n) && (Nat.ltb n 8) then 3%nat else n in
  if (Nat.eqb n 3) || (Nat.eqb n 8) then Some (F64.inf neg, drop n s) else None.

Definition special (s : list ascii) : option (float64 * list ascii) :=
  match s with
  | [] => None
  | c :: s' =>
      if chr c "+" then special_inf false s'
      else if chr c "-" then special_inf true s'
      else if chr c "i" || chr c "I" then special_inf false s
      else if chr c "n" || chr c "N" then
        if Nat.eqb (commonPrefixLenIgnoreCase s (list_ascii_of_string "nan")) 3
        then Some (F64.nan, drop 3 s) else None
      else None
  end.

(** [underscoreOK]: underscores must separate digits, the base prefix
    counting as a digit.  [saw] is the class of the last character:
    [0] a digit, [1] an underscore, [2] anything else, [3] the start. *)
Fixpoint underscoreOK_loop (hex : bool) (saw : Z) (s : list ascii) : bool :=
  match s with
  | [] => negb (saw =? 1)
  | c :: s' =>
      if is_digit c || (hex && is_hex_letter c) then underscoreOK_loop hex 0 s'
      else if chr c "_" then
        if saw =? 0 then underscoreOK_loop hex 1 s' else false
      else if saw =? 1 then false
      else underscoreOK_loop hex 2 s'
  end.

Definition underscoreOK (s : list ascii) : bool :=
  let s := match s with
           | c :: s' => if chr c "-" || chr c "+" then s' else s
           | [] => s
           end in
  match s with
  | c0 :: c1 :: s' =>
      if chr c0 "0" && (chr (lower c1) "b" || chr (lower c1) "o" || chr (lower c1) "x")
      then underscoreOK_loop (chr (lower c1) "x") 0 s'
      else underscoreOK_loop false 3 s
  | _ => underscoreOK_loop false 3 s
  end.

(** State of [readFloat]'s mantissa loop.  The mantissa is kept in full
    ([mant] holds all [nd] digits read after the leading zeros); Go keeps
    the first 19 (16 in base 16) and a flag for a non-zero remainder,
    which determine the same correctly rounded result. *)
Record mantState := MantState {
  sawdot : bool; sawdigits : bool; underscores : bool;
  nd : Z; dp : Z; mant : Z }.

Fixpoint readMantissa (hex : bool) (s : list ascii) (st : mantState)
  : mantState * list ascii :=
  match s with
  | [] => (st, [])
  | c :: s' =>
      if chr c "_" then
        readMantissa hex s'
          (MantState (sawdot st) (sawdigits st) true (nd st) (dp st) (mant st))
      else if chr c "." then
        if sawdot st then (st, s)
        else readMantissa hex s'
               (MantState true (sawdigits st) (underscores st) (nd st) (nd st) (mant st))
      else if is_digit c then
        if chr c "0" && (nd st =? 0) then
          readMantissa hex s'
            (MantState (sawdot st) true (underscores st) (nd st) (dp st - 1) (mant st))
        else
          readMantissa hex s'
            (MantState (sawdot st) true (underscores st) (nd st + 1) (dp st)
               (mant st * (if hex then 16 else 10) + digit_val c))
      else if hex && is_hex_letter c then
        readMantissa hex s'
          (MantState (sawdot st) true (underscores st) (nd st + 1) (dp st)
             (mant st * 16 + hex_letter_val c))
      else (st, s)
  end.

(** The exponent's digit loop: the value saturates once it reaches 10000. *)
Fixpoint readExponent (s : list ascii) (e : Z) (us : bool) : Z * bool * list ascii :=
  match s with
  | c :: s' =>
      if chr c "_" then readExponent s' e true
      else if is_digit c then
        readExponent s' (if e <? 10000 then e * 10 + digit_val c else e) us
      else (e, us, s)
  | [] => (e, us, [])
  end.

Record floatLit := FloatLit {
  lit_neg : bool; lit_hex : bool; lit_mant : Z; lit_exp : Z }.

(** [readFloat]: [None] when the input does not start with a number
    ([ok = false]); otherwise the literal and the unconsumed rest. *)
Definition readFloat (s : list ascii) : option (floatLit * list ascii) :=
  match s with
  | [] => None
  | c :: s' =>
      let '(neg, s1) :=
        if chr c "+" then (false, s') else if chr c "-" then (true, s') else (false, s) in
      let '(hex, s2) :=
        match s1 with
        | c0 :: c1 :: ((_ :: _) as s'') =>
            if chr c0 "0" && chr (lower c1) "x" then (true, s'') else (false, s1)
        | _ => (false, s1)
        end in
      let '(st, s3) := readMantissa hex s2 (MantState false false false 0 0 0) in
      if negb (sawdigits st) then None else
      let dp0 := if sawdot st then dp st else nd st in
      let k := if hex then 4 else 1 in
      let finish (dp1 : Z) (us : bool) (rest : list ascii) :=
        let exp := if mant st =? 0 then 0 else dp1 - nd st * k in
        if us && negb (underscoreOK (take (length s - length rest) s)) then None
        else Some (FloatLit neg hex (mant st) exp, rest) in
      match s3 with
      | c :: s4 =>
          if chr (lower c) (if hex then "p" else "e")%char then
            match s4 with
            | [] => None
            | d :: s5 =>
                let '(eneg, s6) :=
                  if chr d "+" then (false, s5)
                  else if chr d "-" then (true, s5) else (false, s4) in
                match s6 with
                | d' :: _ =>
                    if is_digit d' then
                      let '(e, us, rest) := readExponent s6 0 (underscores st) in
                      finish (dp0 * k + (if eneg then - e else e)) us rest
                    else None
                | [] => None
                end
            end
          else if hex then None
          else finish (dp0 * k) (underscores st) s3
      | [] => if hex then None else finish (dp0 * k) (underscores st) s3
      end
  end.

Definition literal_value (l : floatLit) : float64 :=
  if lit_hex l then F64.of_binary (lit_neg l) (lit_mant l) (lit_exp l)
  else F64.of_decimal (lit_neg l) (lit_mant l) (lit_exp l).

(** [ParseFloat(s, 64)]: the value and the error ([None] for [nil]).
    A syntax error gives 0; a value beyond the float64 range gives the
    infinity of its sign together with a range error. *)
Definition ParseFloat (str : string) : float64 * option NumError :=
  let s := list_ascii_of_string str in
  match special s with
  | Some (v, []) => (v, None)
  | Some (_, _ :: _) => (F64.zero, Some ErrSyntax)
  | None =>
      match readFloat s with
      | Some (l, []) =>
          let v := literal_value l in
          (v, if F64.is_inf v then Some ErrRange else None)
      | _ => (F64.zero, Some ErrSyntax)
      end
  end.

(** [ParseInt(s, 10, 64)]: an optional sign and decimal digits only.  A
    value outside int64 gives the nearest bound and a range error. *)
Fixpoint readDecimal (s : list ascii) (acc : Z) : option Z :=
  match s with
  | [] => Some acc
  | c :: s' => if is_digit c then readDecimal s' (acc * 10 + digit_val c) else None
  end.

Definition ParseInt (str : string) : Z * option NumError :=
  let s := list_ascii_of_string str in
  match s with
  | [] => (0, Some ErrSyntax)
  | c :: s' =>
      let '(neg, ds) :=
        if chr c "+" then (false, s') else if chr c "-" then (true, s') else (false, s) in
      match ds with
      | [] => (0, Some ErrSyntax)
      | _ :: _ =>
          match readDecimal ds 0 with
          | None => (0, Some ErrSyntax)
          | Some un =>
              if negb neg && (2 ^ 63 <=? un) then (2 ^ 63 - 1, Some ErrRange)
              else if neg && (2 ^ 63 <? un) then (- 2 ^ 63, Some ErrRange)
              else ((if neg then - un else un), None)
          end
      end
  end.

End strconv.

(* ===================================================================== *)
(** ** encoding/json (Go standard library)                                *)
(* ===================================================================== *)

(** A payload is represented by the JSON value its bytes denote; bytes that
    are not one well-formed JSON text are [None] ([json.Unmarshal] reports
    a syntax error for them before it stores anything).  Strings hold the
    decoded UTF-8 bytes; a number keeps its literal, since no field of the
    parser's structs has a numeric type.

    Decoding follows the documentation of [json.Unmarshal]: an object key
    selects the struct field whose name it equals under case folding;
    unknown keys are ignored; [null] leaves the destination as it is; a
    value of the wrong kind for its field is skipped and makes [Unmarshal]
    return an error after the rest has been decoded; a slice is reset and
    refilled from the array. *)
Module json.

#[local] Set Warnings "-register-all".
Inductive value :=
| Null
| Bool (b : bool)
| Number (literal : string)
| Str (s : string)
| Array (elems : list value)
| Object (members : list (string * value)).

(** Case folding of a key: ASCII letters to upper case; the two
    non-ASCII runes whose fold orbit contains an ASCII letter, the Kelvin
    sign (bytes E2 84 AA) and the long s (bytes C5 BF), to [K] and [S].
    No other non-ASCII rune folds to an ASCII letter, so the remaining
    bytes are kept: the struct tags compared against are all ASCII. *)
Fixpoint foldBytes (s : list ascii) : list ascii :=
  match s with
  | [] => []
  | c :: s' =>
      let b := strconv.byte_of c in
      if (97 <=? b) && (b <=? 122) then ascii_of_N (N_of_ascii c - 32) :: foldBytes s'
      else
        match s' with
        | c1 :: s'' =>
            if (b =? 197) && (strconv.byte_of c1 =? 191) then "S"%char :: foldBytes s''
            else
              match s'' with
              | c2 :: s3 =>
                  if (b =? 226) && (strconv.byte_of c1 =? 132) && (strconv.byte_of c2 =? 170)
                  then "K"%char :: foldBytes s3 else c :: foldBytes s'
              | [] => c :: foldBytes s'
              end
        | [] => [c]
        end
  end.

Definition foldName (s : string) : string :=
  string_of_list_ascii (foldBytes (list_ascii_of_string s)).

(** Does object key [key] select the field tagged [name]? *)
Definition selects (key name : string) : bool :=
  String.eqb (foldName key) (foldName name).

(** Kind check for a destination of type [string]. *)
Definition string_ok (v : value) : bool :=
  match v with Str _ | Null => true | _ => false end.

(** The content of the [string] field tagged [name] once the members
    [ms] have been decoded in order over the previous content [old]. *)
Fixpoint string_field (name : string) (ms : list (string * value)) (old : string) : string :=
  match ms with
  | [] => old
  | (k, v) :: ms' =>
      string_field name ms'
        (if selects k name then match v with Str s => s | _ => old end else old)
  end.

(** The same for a field of slice type with elements decoded by [dec]. *)
Fixpoint slice_field {T : Type} (dec : value -> T) (name : string)
    (ms : list (string * value)) (old : list T) : list T :=
  match ms with
  | [] => old
  | (k, v) :: ms' =>
      slice_field dec name ms'
        (if selects k name
         then match v with Array vs => map dec vs | Null => [] | _ => old end
         else old)
  end.

Definition slice_ok (elem_ok : value -> bool) (v : value) : bool :=
  match v with Array vs => forallb elem_ok vs | Null => true | _ => false end.

(** The same for a field of type [json.RawMessage]: it keeps the text of
    whatever value the member holds, [null] included; [None] is the empty
    message of a field that was never set. *)
Fixpoint raw_field (name : string) (ms : list (string * value)) (old : option value)
  : option value :=
  match ms with
  | [] => old
  | (k, v) :: ms' => raw_field name ms' (if selects k name then Some v else old)
  end.

(** Kind check of one member against the fields of a struct: [strs] are
    the tags of its [string] fields, [others] the tags of its remaining
    fields with their own checks; a key selecting no field is ignored. *)
Fixpoint other_ok (others : list (string * (value -> bool))) (k : string) (v : value) : bool :=
  match others with
  | [] => true
  | (name, ok) :: others' => if selects k name then ok v else other_ok others' k v
  end.

Definition member_ok (strs : list string) (others : list (string * (value -> bool)))
    (m : string * value) : bool :=
  let '(k, v) := m in
  if existsb (selects k) strs then string_ok v else other_ok others k v.

(** Kind check of a value against a struct type. *)
Definition struct_ok (strs : list string) (others : list (string * (value -> bool)))
    (v : value) : bool :=
  match v with
  | Object ms => forallb (member_ok strs others) ms
  | Null => true
  | _ => false
  end.

Definition members (v : value) : list (string * value) :=
  match v with Object ms => ms | _ => [] end.

End json.

(** A raw message: the JSON value of its bytes, if they form one. *)
Abbreviation payload := (option json.value).

(* ===================================================================== *)
(** ** time                                                               *)
(* ===================================================================== *)

(** An instant is its number of nanoseconds since the Unix epoch; the wall
    clock and the monotonic clock are taken to advance together, so that
    comparing two instants compares these numbers.  A [time.Duration] is an
    [int64] count of nanoseconds. *)
Abbreviation Time := Z.
Abbreviation Duration := Z.

(** An [int64] result that wraps around. *)
Definition wrap64 (z : Z) : Z := (z + 2 ^ 63) mod 2 ^ 64 - 2 ^ 63.

(** Unary minus on an [int64], as in [-b.window]: the least value,
    -2^63, is its own negation. *)
Definition neg64 (d : Duration) : Duration := wrap64 (- d).

Definition time_Unix (sec : Z) : Time := sec * 10 ^ 9.
Definition time_UnixMilli (msec : Z) : Time := msec * 10 ^ 6.
Definition time_After (t u : Time) : bool := u <? t.

(** [t.Add(d)]: for an [int64] [d] the sum is exact, the seconds of a
    [time.Time] being counted in an [int64] of their own. *)
Definition time_Add (t : Time) (d : Duration) : Time := t + d.

(** [t.UnixNano()] as an [int64]. *)
Definition UnixNano (t : Time) : Z := (t + 2 ^ 63) mod 2 ^ 64 - 2 ^ 63.

Definition RFC3339 : string := "2006-01-02T15:04:05Z07:00".
Definition RFC3339Nano : string := "2006-01-02T15:04:05.999999999Z07:00".

(** [%d] of an integer. *)
Definition format_int (n : Z) : string := pretty n.

(* ===================================================================== *)
(** ** package store (internal/store/models.go)                           *)
(* ===================================================================== *)

Record Trade := mkTrade {
  ID : string;
  MarketID : string;
  AssetID : string;
  MakerAddress : string;
  TakerAddress : string;
  Side : string;
  Outcome : string;
  Size : string;
  Price : float64;
  ValueUSD : float64;
  Timestamp : Time;
  TradeID : string;
  TransactionHash : string }.

Definition SignalFreshInsider : string := "FRESH_INSIDER".
Definition SignalWhale : string := "WHALE".
Definition SignalPanicBurst : string := "PANIC_BURST".
Definition SignalPriceShock : string := "PRICE_SHOCK".

(** [Meta] is [nil] ([None]) unless the signal sets it; the values stored
    under its keys are all [float64]. *)
Record Suspect := mkSuspect {
  STrade : Trade;
  SignalType : string;
  Nonce : Z;
  Meta : option (gmap string float64) }.

(* ===================================================================== *)
(** ** package ingest: wire structs (internal/ingest/parser.go)           *)
(* ===================================================================== *)

(** Each struct comes with [decode], the content of its fields after
    [json.Unmarshal] into a zero value, and [ok], whether [Unmarshal]
    returns a nil error; [Unmarshal] combines them. *)

Module BookEvent.
Record PriceLevel := mkLevel { Price : string; Size : string }.

Record t := mk {
  Market : string;
  AssetID : string;
  Timestamp : string;
  Hash : string;
  EventType : string;
  LastTradePrice : string;
  Bids : list PriceLevel;
  Asks : list PriceLevel }.

Definition level_ok : json.value -> bool := json.struct_ok ["price"; "size"]%string [].
Definition decode_level (v : json.value) : PriceLevel :=
  let ms := json.members v in
  mkLevel (json.string_field "price" ms "") (json.string_field "size" ms "").

Definition ok : json.value -> bool :=
  json.struct_ok
    ["market"; "asset_id"; "timestamp"; "hash"; "event_type"; "last_trade_price"]%string
    [("bids"%string, json.slice_ok level_ok); ("asks"%string, json.slice_ok level_ok)].

Definition decode (v : json.value) : t :=
  let ms := json.members v in
  mk (json.string_field "market" ms "")
     (json.string_field "asset_id" ms "")
     (json.string_field "timestamp" ms "")
     (json.string_field "hash" ms "")
     (json.string_field "event_type" ms "")
     (json.string_field "last_trade_price" ms "")
     (json.slice_field decode_level "bids" ms [])
     (json.slice_field decode_level "asks" ms []).

(** [json.Unmarshal(data, &singleBook)] *)
Definition Unmarshal (data : payload) : option t :=
  match data with
  | Some v => if ok v then Some (decode v) else None
  | None => None
  end.

(** [json.Unmarshal(data, &bookEvents)] *)
Definition UnmarshalSlice (data : payload) : option (list t) :=
  match data with
  | Some v => if json.slice_ok ok v
              then Some (match v with json.Array vs => map decode vs | _ => [] end)
              else None
  | None => None
  end.
End BookEvent.

Module TradeData.
Record t := mk {
  ID : string;
  TradeID : string;
  Market : string;
  AssetID : string;
  Maker : string;
  Taker : string;
  MakerAddress : string;
  TakerAddress : string;
  Side : string;
  Size : string;
  Price : string;
  Outcome : string;
  Timestamp : string;
  TransactionHash : string;
  MatchTime : string;
  Status : string }.

Definition tags : list string :=
  ["id"; "trade_id"; "market"; "asset_id"; "maker"; "taker"; "maker_address";
   "taker_address"; "side"; "size"; "price"; "outcome"; "timestamp";
   "transaction_hash"; "match_time"; "status"]%string.

Definition ok : json.value -> bool := json.struct_ok tags [].

Definition of_members (ms : list (string * json.value)) : t :=
  mk (json.string_field "id" ms "")
     (json.string_field "trade_id" ms "")
     (json.string_field "market" ms "")
     (json.string_field "asset_id" ms "")
     (json.string_field "maker" ms "")
     (json.string_field "taker" ms "")
     (json.string_field "maker_address" ms "")
     (json.string_field "taker_address" ms "")
     (json.string_field "side" ms "")
     (json.string_field "size" ms "")
     (json.string_field "price" ms "")
     (json.string_field "outcome" ms "")
     (json.string_field "timestamp" ms "")
     (json.string_field "transaction_hash" ms "")
     (json.string_field "match_time" ms "")
     (json.string_field "status" ms "").

Definition decode (v : json.value) : t := of_members (json.members v).

(** [json.Unmarshal(data, &single)] *)
Definition Unmarshal (data : payload) : option t :=
  match data with
  | Some v => if ok v then Some (decode v) else None
  | None => None
  end.

(** [json.Unmarshal(data, &tradesArray)] *)
Definition UnmarshalSlice (data : payload) : option (list t) :=
  match data with
  | Some v => if json.slice_ok ok v
              then Some (match v with json.Array vs => map decode vs | _ => [] end)
              else None
  | None => None
  end.
End TradeData.

(** [TradeEvent] embeds [TradeData]: the embedded fields are decoded from
    the same object as [Trades]. *)
Module TradeEvent.
Record t := mk { Trades : list TradeData.t; TradeData : TradeData.t }.

Definition ok : json.value -> bool :=
  json.struct_ok TradeData.tags [("trades"%string, json.slice_ok TradeData.ok)].

Definition decode (v : json.value) : t :=
  let ms := json.members v in
  mk (json.slice_field TradeData.decode "trades" ms []) (TradeData.of_members ms).

Definition Unmarshal (data : payload) : option t :=
  match data with
  | Some v => if ok v then Some (decode v) else None
  | None => None
  end.
End TradeEvent.

Module WSMessage.
Record t := mk { Type_ : string; Channel : string; Data : payload }.

Definition ok : json.value -> bool :=
  json.struct_ok ["type"; "channel"]%string [("data"%string, fun _ => true)].

Definition decode (v : json.value) : t :=
  let ms := json.members v in
  mk (json.string_field "type" ms "") (json.string_field "channel" ms "")
     (json.raw_field "data" ms None).

Definition Unmarshal (data : payload) : option t :=
  match data with
  | Some v => if ok v then Some (decode v) else None
  | None => None
  end.
End WSMessage.

Module LastTradePriceEvent.
Record t := mk {
  Type_ : string;
  AssetID : string;
  Price : string;
  Size : string;
  Side : string;
  Maker : string;
  Taker : string }.

Definition ok : json.value -> bool :=
  json.struct_ok ["type"; "asset_id"; "price"; "size"; "side"; "maker"; "taker"]%string [].

Definition decode (v : json.value) : t :=
  let ms := json.members v in
  mk (json.string_field "type" ms "")
     (json.string_field "asset_id" ms "")
     (json.string_field "price" ms "")
     (json.string_field "size" ms "")
     (json.string_field "side" ms "")
     (json.string_field "maker" ms "")
     (json.string_field "taker" ms "").

Definition Unmarshal (data : payload) : option t :=
  match data with
  | Some v => if ok v then Some (decode v) else None
  | None => None
  end.
End LastTradePriceEvent.

(** internal/ingest/trades_api.go *)
Module TradeAPIResponse.
Record t := mk {
  ID : string;
  Market : string;
  AssetID : string;
  MakerAddress : string;
  TakerAddress : string;
  Side : string;
  Size : string;
  Price : string;
  Outcome : string;
  Timestamp : Z;
  TransactionHash : string;
  TradeID : string }.
End TradeAPIResponse.

(* ===================================================================== *)
(** ** package ingest: parser.go and trades_api.go                        *)
(* ===================================================================== *)

Inductive ParseError :=
| ErrUnmarshalMessage      (* "failed to unmarshal message: ..." *)
| ErrParseLastTradePrice.  (* "failed to parse last_trade_price: ..." *)

(** [parseFloat] safely parses a string to float64. *)
Definition parseFloat (s : string) : float64 :=
  if String.eqb s "" then F64.zero
  else fst (strconv.ParseFloat s).

(** [calculateValueUSD] computes the USD value of a trade. *)
Definition calculateValueUSD (sizeStr : string) (price : float64) : float64 :=
  let size := parseFloat sizeStr in
  if F64.eqb size F64.zero then F64.zero
  else
    let size := if F64.gtb size (F64.of_Z 1000000)
                then F64.div size (F64.of_Z 1000000) else size in
    size.

(** [coalesce] returns the first non-empty string. *)
Fixpoint coalesce (values : list string) : string :=
  match values with
  | [] => ""
  | v :: values' => if negb (String.eqb v "") then v else coalesce values'
  end.

(** [generateID] creates a unique ID for the trade record. *)
Definition generateID (td : TradeData.t) : string :=
  if negb (String.eqb (TradeData.ID td) "") then TradeData.ID td
  else if negb (String.eqb (TradeData.TradeID td) "") then TradeData.TradeID td
  else TradeData.Market td +:+ "-" +:+ TradeData.Maker td +:+ "-" +:+ TradeData.Timestamp td.

(** [s[:min(8, len(s))]] *)
Definition prefix8 (s : string) : string :=
  substring 0 (Nat.min 8 (String.length s)) s.

Section Ingest.

(** [time.Parse(layout, value)], [None] when it returns an error. *)
Variable time_Parse : string -> string -> option Time.

(** The successive readings of [time.Now()]; functions that read the
    clock take the number of readings made so far and return it
    advanced. *)
Variable clock : nat -> Time.

(** The value [fmt.Sscanf(s, "%f", &f)] stores in [f], [None] when it
    stores nothing. *)
Variable Sscanf_float : string -> option float64.

Definition formats : list string :=
  [RFC3339; RFC3339Nano; "2006-01-02T15:04:05Z"; "2006-01-02T15:04:05.000Z";
   "2006-01-02 15:04:05"]%string.

Fixpoint tryFormats (fs : list string) (v : string) : option Time :=
  match fs with
  | [] => None
  | f :: fs' =>
      match time_Parse f v with
      | Some t => Some t
      | None => tryFormats fs' v
      end
  end.

(** [parseTimestamp] tries multiple timestamp formats. *)
Fixpoint parseTimestamp (values : list string) (n : nat) : Time * nat :=
  match values with
  | [] => (clock n, S n)
  | v :: values' =>
      if String.eqb v "" then parseTimestamp values' n
      else
        match strconv.ParseInt v with
        | (ts, None) =>
            if 10 ^ 12 <? ts then (time_UnixMilli ts, n) else (time_Unix ts, n)
        | (_, Some _) =>
            match tryFormats formats v with
            | Some t => (t, n)
            | None => parseTimestamp values' n
            end
        end
  end.

(** [parseBookEvents] extracts trade information from book events. *)
Fixpoint parseBookEvents (events : list BookEvent.t) (n : nat) : list Trade * nat :=
  match events with
  | [] => ([], n)
  | event :: events' =>
      if String.eqb (BookEvent.LastTradePrice event) ""
         || String.eqb (BookEvent.LastTradePrice event) "0"
      then parseBookEvents events' n
      else
        let price := parseFloat (BookEvent.LastTradePrice event) in
        if F64.eqb price F64.zero then parseBookEvents events' n
        else
          let '(ts, n1) := parseTimestamp [BookEvent.Timestamp event] n in
          let trade :=
            {| ID := "book-" +:+ prefix8 (BookEvent.AssetID event) +:+ "-"
                     +:+ BookEvent.Timestamp event;
               MarketID := BookEvent.Market event;
               AssetID := BookEvent.AssetID event;
               MakerAddress := ""; TakerAddress := ""; Side := ""; Outcome := "";
               Size := "book_update";
               Price := price;
               ValueUSD := F64.zero;
               Timestamp := ts;
               TradeID := ""; TransactionHash := "" |} in
          let '(trades, n2) := parseBookEvents events' n1 in
          (trade :: trades, n2)
  end.

(** [parseLastTradePrice] parses a last_trade_price event. *)
Definition parseLastTradePrice (data : payload) (n : nat)
  : list Trade * option ParseError * nat :=
  match LastTradePriceEvent.Unmarshal data with
  | None => ([], Some ErrParseLastTradePrice, n)
  | Some event =>
      if String.eqb (LastTradePriceEvent.AssetID event) "" then ([], None, n)
      else
        let price := parseFloat (LastTradePriceEvent.Price event) in
        let trade :=
          {| ID := "ltp-" +:+ prefix8 (LastTradePriceEvent.AssetID event) +:+ "-"
                   +:+ format_int (UnixNano (clock n));
             MarketID := "";
             AssetID := LastTradePriceEvent.AssetID event;
             MakerAddress := LastTradePriceEvent.Maker event;
             TakerAddress := LastTradePriceEvent.Taker event;
             Side := LastTradePriceEvent.Side event;
             Outcome := "";
             Size := LastTradePriceEvent.Size event;
             Price := price;
             ValueUSD := calculateValueUSD (LastTradePriceEvent.Size event) price;
             Timestamp := clock (S n);
             TradeID := ""; TransactionHash := "" |} in
        ([trade], None, S (S n))
  end.

(** [convertTrades] converts TradeData to store.Trade. *)
Fixpoint convertTrades (data : list TradeData.t) (n : nat) : list Trade * nat :=
  match data with
  | [] => ([], n)
  | td :: data' =>
      let price := parseFloat (TradeData.Price td) in
      let '(ts, n1) := parseTimestamp [TradeData.Timestamp td; TradeData.MatchTime td] n in
      let trade :=
        {| ID := generateID td;
           MarketID := TradeData.Market td;
           AssetID := TradeData.AssetID td;
           MakerAddress := coalesce [TradeData.MakerAddress td; TradeData.Maker td];
           TakerAddress := coalesce [TradeData.TakerAddress td; TradeData.Taker td];
           Side := TradeData.Side td;
           Outcome := TradeData.Outcome td;
           Size := TradeData.Size td;
           Price := price;
           ValueUSD := calculateValueUSD (TradeData.Size td) price;
           Timestamp := ts;
           TradeID := coalesce [TradeData.TradeID td; TradeData.ID td];
           TransactionHash := TradeData.TransactionHash td |} in
      let '(trades, n2) := convertTrades data' n1 in
      (trade :: trades, n2)
  end.

Definition nonempty {A : Type} (l : list A) : bool :=
  match l with [] => false | _ :: _ => true end.

(** The last attempt of [parseTrades]: the payload as a single trade. *)
Definition parseSingleTrade (data : payload) (n : nat) : list Trade * nat :=
  match TradeData.Unmarshal data with
  | Some single =>
      if negb (String.eqb (TradeData.ID single) "")
         || negb (String.eqb (TradeData.TradeID single) "")
         || negb (String.eqb (TradeData.Market single) "")
      then convertTrades [single] n
      else ([], n)
  | None => ([], n)
  end.

(** The second attempt: a trade event with a trades array, or the single
    trade embedded in the event. *)
Definition parseTradeEvent (data : payload) (n : nat) : list Trade * nat :=
  match TradeEvent.Unmarshal data with
  | Some event =>
      if nonempty (TradeEvent.Trades event)
      then convertTrades (TradeEvent.Trades event) n
      else if negb (String.eqb (TradeData.ID (TradeEvent.TradeData event)) "")
              || negb (String.eqb (TradeData.TradeID (TradeEvent.TradeData event)) "")
      then convertTrades [TradeEvent.TradeData event] n
      else parseSingleTrade data n
  | None => parseSingleTrade data n
  end.

(** [parseTrades] extracts trade data from the message payload; the
    error it returns is always nil.  An empty raw message is [None]. *)
Definition parseTrades (data : payload) (n : nat) : list Trade * nat :=
  match data with
  | None => ([], n)
  | Some _ =>
      match TradeData.UnmarshalSlice data with
      | Some ((_ :: _) as tradesArray) => convertTrades tradesArray n
      | _ => parseTradeEvent data n
      end
  end.

Definition isBookType (s : string) : bool :=
  String.eqb s "book" || String.eqb s "price_change".

(** The envelope branch of [ParseMessage]. *)
Definition parseEnvelope (data : payload) (n : nat)
  : list Trade * string * option ParseError * nat :=
  match WSMessage.Unmarshal data with
  | None => ([], "", Some ErrUnmarshalMessage, n)
  | Some msg =>
      if String.eqb (WSMessage.Type_ msg) "last_trade_price" then
        match parseLastTradePrice data n with
        | (_, Some err, n') => ([], WSMessage.Type_ msg, Some err, n')
        | (trades, None, n') => (trades, WSMessage.Type_ msg, None, n')
        end
      else if String.eqb (WSMessage.Type_ msg) "trade" then
        let '(trades, n') := parseTrades (WSMessage.Data msg) n in
        (trades, WSMessage.Type_ msg, None, n')
      else ([], WSMessage.Type_ msg, None, n)
  end.

(** The single-[BookEvent] attempt and what follows it. *)
Definition parseSingleBook (data : payload) (n : nat)
  : list Trade * string * option ParseError * nat :=
  match BookEvent.Unmarshal data with
  | Some singleBook =>
      if negb (String.eqb (BookEvent.EventType singleBook) "") then
        let '(trades, n') := parseBookEvents [singleBook] n in
        (trades, BookEvent.EventType singleBook, None, n')
      else parseEnvelope data n
  | None => parseEnvelope data n
  end.

(** [ParseMessage] parses a raw WebSocket message and returns trades if
    present. *)
Definition ParseMessage (data : payload) (n : nat)
  : list Trade * string * option ParseError * nat :=
  match BookEvent.UnmarshalSlice data with
  | Some ((first :: _) as bookEvents) =>
      if isBookType (BookEvent.EventType first) then
        let '(trades, n') := parseBookEvents bookEvents n in
        (trades, "book_array"%string, None, n')
      else parseSingleBook data n
  | _ => parseSingleBook data n
  end.

(** [parseFloatSafe] safely parses a string to float64, returning 0 on
    error. *)
Definition parseFloatSafe (s : string) : float64 :=
  if String.eqb s "" then F64.zero
  else match Sscanf_float s with Some f => f | None => F64.zero end.

(** [convertTrade] converts a TradeAPIResponse to store.Trade. *)
Definition convertTrade (apiTrade : TradeAPIResponse.t) : Trade :=
  let price := parseFloatSafe (TradeAPIResponse.Price apiTrade) in
  let size := parseFloatSafe (TradeAPIResponse.Size apiTrade) in
  let valueUSD := F64.mul price size in
  {| ID := "api-" +:+ TradeAPIResponse.ID apiTrade;
     MarketID := TradeAPIResponse.Market apiTrade;
     AssetID := TradeAPIResponse.AssetID apiTrade;
     MakerAddress := TradeAPIResponse.MakerAddress apiTrade;
     TakerAddress := TradeAPIResponse.TakerAddress apiTrade;
     Side := TradeAPIResponse.Side apiTrade;
     Outcome := TradeAPIResponse.Outcome apiTrade;
     Size := TradeAPIResponse.Size apiTrade;
     Price := price;
     ValueUSD := valueUSD;
     Timestamp := time_UnixMilli (TradeAPIResponse.Timestamp apiTrade);
     TradeID := TradeAPIResponse.TradeID apiTrade;
     TransactionHash := TradeAPIResponse.TransactionHash apiTrade |}.

(** The conversion loop that ends [fetchRecentTrades]. *)
Fixpoint convertFetched (apiTrades : list TradeAPIResponse.t) : list Trade :=
  match apiTrades with
  | [] => []
  | apiTrade :: rest => convertTrade apiTrade :: convertFetched rest
  end.

End Ingest.

(* ===================================================================== *)
(** ** package detector: the burst tracker                                *)
(* ===================================================================== *)

(** The fields of [config.Config] the detector reads. *)
Record Config := mkConfig {
  MinValueUSD : float64;
  WhaleValueUSD : float64;
  FreshWalletNonce : Z;
  BurstCount : Z;
  BurstWindow : Duration }.

(** [BurstTracker] tracks trade frequency per address to detect panic
    bursts.  The mutex serialises the calls; each call below is one
    critical section. *)
Record BurstTracker := mkBurstTracker {
  trades : gmap string (list Time);
  window : Duration }.

(** [NewBurstTracker] creates a new BurstTracker with the specified window. *)
Definition NewBurstTracker (window : Duration) : BurstTracker :=
  mkBurstTracker ∅ window.

(** The loop of [Record] that looks for the first timestamp inside the
    window: [len] is [len(timestamps)], [i] the index of the head of [ts],
    [validIdx] the variable of that name. *)
Fixpoint scanValid (cutoff : Time) (len : nat) (i : nat) (ts : list Time) (validIdx : nat)
  : nat :=
  match ts with
  | [] => validIdx
  | t :: ts' =>
      if time_After t cutoff then i
      else scanValid cutoff len (S i) ts'
             (if Nat.eqb i (len - 1) && negb (time_After t cutoff) then len else validIdx)
  end.

(** [Record] adds a trade for the given address and returns the number of
    trades within the window (including the new one).  [now] is the
    reading of [time.Now()] the call makes. *)
Definition Record_ (b : BurstTracker) (now : Time) (address : string)
  : Z * BurstTracker :=
  let cutoff := time_Add now (neg64 (window b)) in
  let timestamps := default [] (trades b !! address) in
  let validIdx := scanValid cutoff (length timestamps) 0 timestamps 0 in
  let timestamps := if Nat.ltb 0 validIdx then drop validIdx timestamps else timestamps in
  let timestamps := timestamps ++ [now] in
  (Z.of_nat (length timestamps),
   mkBurstTracker (<[address := timestamps]> (trades b)) (window b)).

(** The condition under which [Cleanup] deletes an address. *)
Definition stale (cutoff : Time) (timestamps : list Time) : bool :=
  Nat.eqb (length timestamps) 0
  || negb (time_After (default 0 (timestamps !! (length timestamps - 1)%nat)) cutoff).

(** [Cleanup] removes entries for addresses with no recent trades: the
    range loop visits every entry of the map once and deletes from the
    map it ranges over. *)
Definition Cleanup (b : BurstTracker) (now : Time) : BurstTracker :=
  let cutoff := time_Add now (neg64 (window b)) in
  mkBurstTracker
    (map_fold (fun addr timestamps acc =>
                 if stale cutoff timestamps then delete addr acc else acc)
              (trades b) (trades b))
    (window b).

(* ===================================================================== *)
(** ** package detector: signals.go                                       *)
(* ===================================================================== *)

(** [Detector] applies rules to detect suspicious trading activity. *)
Record Detector := mkDetector {
  cfg : Config;
  burstTracker : BurstTracker;
  lastPrices : gmap string float64 }.

(** [NewDetector] creates a new Detector. *)
Definition NewDetector (cfg : Config) : Detector :=
  mkDetector cfg (NewBurstTracker (BurstWindow cfg)) ∅.

(** The constant [0.05] as a float64. *)
Definition shockThreshold : float64 := F64.of_decimal false 5 (-2).

Definition priceShockMeta (lastPrice newPrice pctChange : float64) : gmap string float64 :=
  <["pct_change" := pctChange]>
    (<["new_price" := newPrice]> (<["prev_price" := lastPrice]> ∅)).

(** Check 1 of [Detect], after the locked read-and-overwrite of
    [lastPrices]: [last] is the pair [lastPrice, exists]. *)
Definition checkPriceShock (last : option float64) (trade : Trade) (nonce : Z)
  : list Suspect :=
  match last with
  | Some lastPrice =>
      if F64.gtb lastPrice F64.zero then
        let delta := F64.abs (F64.sub (Price trade) lastPrice) in
        let pctChange := F64.div delta lastPrice in
        if F64.geb pctChange shockThreshold
        then [mkSuspect trade SignalPriceShock nonce
                (Some (priceShockMeta lastPrice (Price trade) pctChange))]
        else []
      else []
  | None => []
  end.

(** Check 2: whale. *)
Definition checkWhale (c : Config) (trade : Trade) (nonce : Z) : list Suspect :=
  if F64.geb (ValueUSD trade) (WhaleValueUSD c)
  then [mkSuspect trade SignalWhale nonce None] else [].

(** Check 3: fresh insider, only when the nonce is provided. *)
Definition checkFreshInsider (c : Config) (trade : Trade) (nonce : Z) : list Suspect :=
  if (0 <=? nonce) && F64.geb (ValueUSD trade) (MinValueUSD c) then
    if nonce <=? FreshWalletNonce c
    then [mkSuspect trade SignalFreshInsider nonce None] else []
  else [].

(** Check 4: panic burst; it records the trade in the burst tracker. *)
Definition checkPanicBurst (c : Config) (b : BurstTracker) (now : Time)
    (trade : Trade) (nonce : Z) : list Suspect * BurstTracker :=
  if negb (String.eqb (MakerAddress trade) "") then
    let '(count, b') := Record_ b now (MakerAddress trade) in
    (if BurstCount c <=? count then [mkSuspect trade SignalPanicBurst nonce None] else [],
     b')
  else ([], b).

(** [Detect] analyzes a trade and returns any signals found; [nonce] is
    -1 if not available.  The suspects are appended check by check. *)
Definition Detect (d : Detector) (now : Time) (trade : Trade) (nonce : Z)
  : list Suspect * Detector :=
  let last := lastPrices d !! AssetID trade in
  let lastPrices' := <[AssetID trade := Price trade]> (lastPrices d) in
  let suspects := [] ++ checkPriceShock last trade nonce in
  let suspects := suspects ++ checkWhale (cfg d) trade nonce in
  let suspects := suspects ++ checkFreshInsider (cfg d) trade nonce in
  let '(burst, b') := checkPanicBurst (cfg d) (burstTracker d) now trade nonce in
  let suspects := suspects ++ burst in
  (suspects, mkDetector (cfg d) b' lastPrices').

(** [ShouldEnrich] checks if a trade qualifies for expensive RPC
    enrichment. *)
Definition ShouldEnrich (d : Detector) (trade : Trade) : bool :=
  F64.geb (ValueUSD trade) (MinValueUSD (cfg d))
  && negb (String.eqb (MakerAddress trade) "").

(* ===================================================================== *)
(** * Statements                                                          *)
(* ===================================================================== *)

(** ** Burst tracker *)

(** How many leading timestamps are not after the cutoff. *)
Fixpoint stalePrefix (cutoff : Time) (ts : list Time) : nat :=
  match ts with
  | [] => O
  | t :: ts' => if time_After t cutoff then O else S (stalePrefix cutoff ts')
  end.

(** The states the tracker can be in: built by [NewBurstTracker], then
    driven by [Record] and [Cleanup] calls whose clock readings do not go
    back.  The index is the latest reading. *)
Inductive reachable (w : Duration) : Time -> BurstTracker -> Prop :=
| reach_new t0 : reachable w t0 (NewBurstTracker w)
| reach_record t b now key :
    reachable w t b -> t <= now -> reachable w now (snd (Record_ b now key))
| reach_cleanup t b now :
    reachable w t b -> t <= now -> reachable w now (Cleanup b now).

Definition ordered (now : Time) (ts : list Time) : Prop :=
  StronglySorted Z.le ts /\ Forall (fun t => t <= now) ts.

Definition tracker_ordered (now : Time) (b : BurstTracker) : Prop :=
  forall k ts, trades b !! k = Some ts -> ordered now ts.

(** ** Detector *)

Definition hasSignal (ty : string) (s : Suspect) : bool :=
  String.eqb (SignalType s) ty.

(** The order in which [Detect] runs its checks. *)
Definition signalOrder : list string :=
  [SignalPriceShock; SignalWhale; SignalFreshInsider; SignalPanicBurst].

(** One call of [Detect]: the clock reading, the trade and the nonce. *)
Definition Call : Type := Time * Trade * Z.
Definition callTrade (c : Call) : Trade := snd (fst c).

(** The detector after a series of [Detect] calls. *)
Fixpoint DetectAll (d : Detector) (calls : list Call) : Detector :=
  match calls with
  | [] => d
  | (now, trade, nonce) :: calls' => DetectAll (snd (Detect d now trade nonce)) calls'
  end.

(** [pctChange = |new - old| / old] *)
Definition pctChange (old new : float64) : float64 :=
  F64.div (F64.abs (F64.sub new old)) old.

(** The configuration and the whale trade of detector_test.go. *)
Definition testConfig : Config :=
  mkConfig (F64.of_Z 2000) (F64.of_Z 50000) 5 3 (60 * 10 ^ 9).

Definition whaleTrade : Trade :=
  {| ID := "whale-1"; MarketID := ""; AssetID := ""; MakerAddress := "0xWhale";
     TakerAddress := ""; Side := ""; Outcome := ""; Size := "";
     Price := F64.zero; ValueUSD := F64.of_Z 55000; Timestamp := 0;
     TradeID := ""; TransactionHash := "" |}.

(** A trade on asset [asset] at price [m * 10^e]. *)
Definition pricedTrade (asset : string) (m e : Z) : Trade :=
  {| ID := "t"; MarketID := "m"; AssetID := asset; MakerAddress := "";
     TakerAddress := ""; Side := "BUY"; Outcome := "YES"; Size := "10";
     Price := F64.of_decimal false m e; ValueUSD := F64.of_Z 10; Timestamp := 0;
     TradeID := ""; TransactionHash := "" |}.

(** ** Ingestion *)

(** Neither an infinity nor a NaN. *)
Definition isFinite (x : float64) : bool :=
  match x with S754_zero _ | S754_finite _ _ _ => true | _ => false end.

(** The USD value as the specification words it: 0 when the size cannot
    be parsed, rescaled when its magnitude exceeds 10^6. *)
Definition computeValueUsd_worded (sizeString : string) (price : float64) : float64 :=
  let size := match strconv.ParseFloat sizeString with
              | (v, None) => v
              | (_, Some _) => F64.zero
              end in
  if F64.gtb (F64.abs size) (F64.of_Z 1000000)
  then F64.div size (F64.of_Z 1000000) else size.

(** The components of what [ParseMessage] returns. *)
Definition ParseResult : Type := list Trade * string * option ParseError * nat.
Definition resultTrades (r : ParseResult) : list Trade := fst (fst (fst r)).
Definition resultKind (r : ParseResult) : string := snd (fst (fst r)).
Definition resultError (r : ParseResult) : option ParseError := snd (fst r).


(** Shape 1: a non-empty array of book events whose first element is a
    book or price_change event. *)
Definition matchesBookArray (data : payload) : bool :=
  match BookEvent.UnmarshalSlice data with
  | Some (first :: _) => isBookType (BookEvent.EventType first)
  | _ => false
  end.

(** Shape 2: a single book event with an event type. *)
Definition matchesSingleBook (data : payload) : bool :=
  match BookEvent.Unmarshal data with
  | Some e => negb (String.eqb (BookEvent.EventType e) "")
  | None => false
  end.

(** The value of a trade is the one its own size string gives. *)
Definition valueFromSize (t : Trade) : Prop :=
  ValueUSD t = calculateValueUSD (Size t) (Price t).

(** Sample inputs: a raw trade record with the given size and price
    strings and no timestamp; an environment in which no layout parses and
    the clock stands at 0; a last_trade_price message whose price is a JSON
    number; a message of an unknown type; a one-event book array. *)
Definition rawTrade (size price : string) : TradeData.t :=
  TradeData.mk "t1" "" "m" "a" "" "" "0xM" "" "BUY" size price "YES" "" "" "" "".

Definition noLayout : string -> string -> option Time := fun _ _ => None.
Definition clockZero : nat -> Time := fun _ => 0.
Definition scanNothing : string -> option float64 := fun _ => None.

Definition ltpNumericPrice : payload :=
  Some (json.Object [("type"%string, json.Str "last_trade_price");
                     ("asset_id"%string, json.Str "tok");
                     ("price"%string, json.Number "0.5")]).

Definition subscribedMessage : payload :=
  Some (json.Object [("type"%string, json.Str "subscribed")]).


(** The burst trade of detector_test.go: value 100 from one address. *)
Definition burstTrade : Trade :=
  {| ID := "burst-trade"; MarketID := ""; AssetID := ""; MakerAddress := "0xBurst";
     TakerAddress := ""; Side := ""; Outcome := ""; Size := "";
     Price := F64.zero; ValueUSD := F64.of_Z 100; Timestamp := 0;
     TradeID := ""; TransactionHash := "" |}.

(** A detector whose tracker has seen the burst address at 0s and 4s. *)
Definition twoBurstsSeen : Detector :=
  mkDetector testConfig
    (snd (Record_ (snd (Record_ (NewBurstTracker (60 * 10 ^ 9)) 0 "0xBurst"))
            (4 * 10 ^ 9) "0xBurst"))
    ∅.

(* ===================================================================== *)
(** * The rest of the engine                                              *)
(* ===================================================================== *)

(** ** Histories of the burst tracker *)

(** One call on the tracker, with the clock reading it makes. *)
Inductive Op :=
| OpRecord (now : Time) (address : string)
| OpCleanup (now : Time).

Definition opTime (o : Op) : Time :=
  match o with OpRecord t _ => t | OpCleanup t => t end.

Definition applyOp (b : BurstTracker) (o : Op) : BurstTracker :=
  match o with
  | OpRecord now address => snd (Record_ b now address)
  | OpCleanup now => Cleanup b now
  end.

(** The tracker after a series of calls. *)
Definition runOps (b : BurstTracker) (ops : list Op) : BurstTracker :=
  fold_left applyOp ops b.

(** The clock readings of the [Record] calls made for [address]. *)
Fixpoint recordedAt (address : string) (ops : list Op) : list Time :=
  match ops with
  | [] => []
  | OpRecord t a :: ops' =>
      if String.eqb a address then t :: recordedAt address ops'
      else recordedAt address ops'
  | OpCleanup _ :: ops' => recordedAt address ops'
  end.

Definition callTime (c : Call) : Time := fst (fst c).

(** The earlier [Detect] calls made for maker [address] after [cutoff]. *)
Definition recentCalls (address : string) (cutoff : Time) (calls : list Call) : list Call :=
  List.filter (fun c => String.eqb (MakerAddress (callTrade c)) address
                        && time_After (callTime c) cutoff) calls.

(** What [Detect] asks of the burst tracker. *)
Definition callOps (calls : list Call) : list Op :=
  omap (fun c => if negb (String.eqb (MakerAddress (callTrade c)) "")
                 then Some (OpRecord (callTime c) (MakerAddress (callTrade c)))
                 else None) calls.

(** A trade written by [parseBookEvents]: no maker, no value. *)
Definition bookShaped (t : Trade) : Prop :=
  MakerAddress t = ""%string /\ ValueUSD t = F64.zero /\ Size t = "book_update"%string.

(** A message that carries both discriminators: [event_type] and [type]. *)
Definition bothDiscriminators : payload :=
  Some (json.Object [("event_type"%string, json.Str "last_trade_price");
                     ("type"%string, json.Str "last_trade_price");
                     ("asset_id"%string, json.Str "tok");
                     ("price"%string, json.Str "0.5");
                     ("size"%string, json.Str "100")]).

(* ===================================================================== *)
(** ** strings (Go standard library) and string slicing                   *)
(* ===================================================================== *)

Module gostrings.

(** [s[i:j]], for [0 <= i <= j <= len(s)]: the bytes from index [i] up to
    index [j]. *)
Definition slice (s : string) (i j : nat) : string :=
  string_of_list_ascii (take (j - i) (drop i (list_ascii_of_string s))).

(** [strings.HasSuffix] reports whether [s] ends with [suffix]. *)
Definition HasSuffix (s suffix : string) : bool :=
  (String.length suffix <=? String.length s)%nat
  && String.eqb (slice s (String.length s - String.length suffix) (String.length s)) suffix.

(** [strings.TrimSuffix] returns [s] without the trailing [suffix]; [s]
    unchanged if it does not end with it. *)
Definition TrimSuffix (s suffix : string) : string :=
  if HasSuffix s suffix
  then slice s 0 (String.length s - String.length suffix)
  else s.

End gostrings.

(* ===================================================================== *)
(** ** Helpers that shorten strings for logs and display                  *)
(* ===================================================================== *)

(** The endpoint [connect] dials (internal/ingest/websocket.go): the
    configured URL, with the market channel appended unless it already
    names a channel. *)
Definition connectURL (url : string) : string :=
  if negb (gostrings.HasSuffix url "/market") && negb (gostrings.HasSuffix url "/user")
  then gostrings.TrimSuffix url "/" +:+ "/market"
  else url.

(** [truncate] shortens a string for logging (websocket.go).  The slice
    expression [s[:maxLen]] panics for a negative [maxLen]: [None]. *)
Definition truncate (s : string) (maxLen : Z) : option string :=
  if Z.of_nat (String.length s) <=? maxLen then Some s
  else if maxLen <? 0 then None
  else Some (gostrings.slice s 0 (Z.to_nat maxLen) +:+ "...").

(** [truncateID] shortens an ID for logging (main.go). *)
Definition truncateID (id : string) : string :=
  if (String.length id <=? 12)%nat then id
  else gostrings.slice id 0 6 +:+ "..."
       +:+ gostrings.slice id (String.length id - 4) (String.length id).

(** [truncateAddress] truncates a wallet address for display (the UI). *)
Definition truncateAddress (addr : string) : string :=
  if (String.length addr <=? 12)%nat then addr
  else gostrings.slice addr 0 6 +:+ "..."
       +:+ gostrings.slice addr (String.length addr - 4) (String.length addr).

(** [maskSecret] hides all but the first and last 4 characters of a
    secret (internal/config/config.go). *)
Definition maskSecret (s : string) : string :=
  if (String.length s <=? 8)%nat then
    if (String.length s =? 0)%nat then "(not set)" else "****"
  else gostrings.slice s 0 4 +:+ "****"
       +:+ gostrings.slice s (String.length s - 4) (String.length s).

(* ===================================================================== *)
(** ** Integer conversions and channels                                   *)
(* ===================================================================== *)

Definition Second : Duration := 10 ^ 9.
Definition Minute : Duration := 60 * Second.

(** Conversion of a float64 to [int64] (as in [time.Duration(f)]): the
    fraction is discarded; the language leaves the result open when the
    value does not fit, [overflowed] stands for it. *)
Definition int64_of_float64 (overflowed : Z) (x : float64) : Z :=
  match x with
  | S754_zero _ => 0
  | S754_finite s m e =>
      let mag := if 0 <=? e then Z.pos m * 2 ^ e else Z.pos m / 2 ^ (- e) in
      let v := if s then - mag else mag in
      if (- 2 ^ 63 <=? v) && (v <? 2 ^ 63) then v else overflowed
  | _ => overflowed
  end.

(** A buffered channel: the queued values, oldest first, and its
    capacity (positive for the channels the program makes). *)
Record Chan (A : Type) := mkChan { buf : list A; cap : nat }.
Arguments mkChan {A} _ _.
Arguments buf {A} _.
Arguments cap {A} _.

(** [select { case ch <- x: ... default: ... }]: the send goes through
    when the buffer has room. *)
Definition trySend {A : Type} (ch : Chan A) (x : A) : bool * Chan A :=
  if (length (buf ch) <? cap ch)%nat then (true, mkChan (buf ch ++ [x]) (cap ch))
  else (false, ch).

(** The receivers take the [k] oldest values. *)
Definition received {A : Type} (k : nat) (ch : Chan A) : Chan A :=
  mkChan (drop k (buf ch)) (cap ch).

(** The loop that offers each trade to the channel without blocking
    ([handleMessage] and [poll] both end with it).  [recvs] tells how many
    values the receivers take before each send; the trades that found the
    channel full are returned. *)
Fixpoint dispatch (trades : list Trade) (recvs : list nat) (ch : Chan Trade)
  : list Trade * Chan Trade :=
  match trades with
  | [] => ([], ch)
  | trade :: trades' =>
      let '(sent, ch1) := trySend (received (hd O recvs) ch) trade in
      let '(dropped, ch2) := dispatch trades' (tl recvs) ch1 in
      (if sent then dropped else trade :: dropped, ch2)
  end.

(* ===================================================================== *)
(** ** package ingest: websocket.go                                       *)
(* ===================================================================== *)

Definition InitialBackoff : Duration := 1 * Second.
Definition MaxBackoff : Duration := 60 * Second.
Definition BackoffFactor : float64 := F64.of_Z 2.
Definition JitterPercent : float64 := F64.of_decimal false 2 (-1).

(** [Listener] manages the WebSocket connection; the fields the
    reconnection logic uses. *)
Record Listener := mkListener {
  url : string;
  backoff : Duration;
  connected : bool;
  assetIDs : list string }.

(** [NewListener] creates a new WebSocket listener. *)
Definition NewListener (url : string) : Listener :=
  mkListener url InitialBackoff false [].

(** How an attempt to connect ends: the dial fails, the dial succeeds
    and the subscription fails, or both succeed. *)
Inductive ConnectResult := DialFailed | SubscribeFailed | Subscribed.

Section Websocket.

Variable time_Parse : string -> string -> option Time.
Variable clock : nat -> Time.

(** The result of converting a float64 beyond the [int64] range. *)
Variable overflowed : Z.

(** [connect] establishes the connection and subscribes; it returns
    whether it failed. *)
Definition connect (outcome : ConnectResult) (l : Listener) : bool * Listener :=
  match outcome with
  | DialFailed => (true, l)
  | SubscribeFailed =>
      (true, mkListener (url l) InitialBackoff true (assetIDs l))
  | Subscribed =>
      (false, mkListener (url l) InitialBackoff true (assetIDs l))
  end.

(** [closeConnection] safely closes the connection. *)
Definition closeConnection (l : Listener) : Listener :=
  mkListener (url l) (backoff l) false (assetIDs l).

(** [waitBackoff] waits for the backoff duration with jitter, [r] being
    the value of [rand.Float64()]; it returns the time waited for. *)
Definition waitBackoff (r : float64) (l : Listener) : Duration * Listener :=
  let jitter :=
    int64_of_float64 overflowed
      (F64.mul (F64.mul (F64.of_Z (backoff l)) JitterPercent)
               (F64.sub (F64.mul r (F64.of_Z 2)) (F64.of_Z 1))) in
  let wait := wrap64 (backoff l + jitter) in
  let b := int64_of_float64 overflowed (F64.mul (F64.of_Z (backoff l)) BackoffFactor) in
  let b := if MaxBackoff <? b then MaxBackoff else b in
  (wait, mkListener (url l) b (connected l) (assetIDs l)).

(** One pass of the loop of [runLoop] that is not interrupted by a stop
    signal: connect, read until the connection breaks, wait. *)
Definition runLoopPass (outcome : ConnectResult) (r : float64) (l : Listener)
  : Duration * Listener :=
  match connect outcome l with
  | (true, l1) => waitBackoff r l1
  | (false, l1) => waitBackoff r (closeConnection l1)
  end.

(** The listener after a series of passes. *)
Fixpoint runLoop (passes : list (ConnectResult * float64)) (l : Listener) : Listener :=
  match passes with
  | [] => l
  | (outcome, r) :: passes' => runLoop passes' (snd (runLoopPass outcome r l))
  end.

(** [handleMessage] parses a message and dispatches trades; it returns
    the trades it had to drop. *)
Definition handleMessage (data : payload) (n : nat) (recvs : list nat) (ch : Chan Trade)
  : list Trade * Chan Trade * nat :=
  match ParseMessage time_Parse clock data n with
  | (_, _, Some _, n') => ([], ch, n')
  | (trades, _, None, n') =>
      match trades with
      | [] => ([], ch, n')
      | _ :: _ => let '(dropped, ch') := dispatch trades recvs ch in (dropped, ch', n')
      end
  end.

End Websocket.

(** The number of failed dials in a row at the end of a series of
    passes, counting one more when a dial succeeded before them. *)
Fixpoint failureRun (passes : list ConnectResult) (run : nat) : nat :=
  match passes with
  | [] => run
  | DialFailed :: passes' => failureRun passes' (S run)
  | _ :: passes' => failureRun passes' 1
  end.

(* ===================================================================== *)
(** ** package ingest: the REST poller (trades_api.go)                    *)
(* ===================================================================== *)

(** Decoding of a JSON number into a field of type [int64]: the literal
    must be a decimal integer in range. *)
Definition int64_ok (v : json.value) : bool :=
  match v with
  | json.Number lit =>
      match strconv.ParseInt lit with (_, None) => true | (_, Some _) => false end
  | json.Null => true
  | _ => false
  end.

Fixpoint int64_field (name : string) (ms : list (string * json.value)) (old : Z) : Z :=
  match ms with
  | [] => old
  | (k, v) :: ms' =>
      int64_field name ms'
        (if json.selects k name
         then match v with
              | json.Number lit =>
                  match strconv.ParseInt lit with (n, None) => n | (_, Some _) => old end
              | _ => old
              end
         else old)
  end.

(** [json.NewDecoder(resp.Body).Decode(&apiTrades)] on a body whose
    first JSON value is [body]. *)
Module TradeAPIDecode.
Definition ok : json.value -> bool :=
  json.struct_ok
    ["id"; "market"; "asset_id"; "maker_address"; "taker_address"; "side"; "size";
     "price"; "outcome"; "transaction_hash"; "trade_id"]%string
    [("timestamp"%string, int64_ok)].

Definition decode (v : json.value) : TradeAPIResponse.t :=
  let ms := json.members v in
  TradeAPIResponse.mk
    (json.string_field "id" ms "")
    (json.string_field "market" ms "")
    (json.string_field "asset_id" ms "")
    (json.string_field "maker_address" ms "")
    (json.string_field "taker_address" ms "")
    (json.string_field "side" ms "")
    (json.string_field "size" ms "")
    (json.string_field "price" ms "")
    (json.string_field "outcome" ms "")
    (int64_field "timestamp" ms 0)
    (json.string_field "transaction_hash" ms "")
    (json.string_field "trade_id" ms "").

Definition DecodeSlice (body : payload) : option (list TradeAPIResponse.t) :=
  match body with
  | Some v => if json.slice_ok ok v
              then Some (match v with json.Array vs => map decode vs | _ => [] end)
              else None
  | None => None
  end.
End TradeAPIDecode.

(** What the HTTP exchange of [fetchRecentTrades] comes to: the request
    cannot be built, the round trip fails, or a response arrives with a
    status code and a body. *)
Inductive HTTPResult :=
| RequestNotCreated
| RequestFailed
| Response (status : Z) (body : payload).

Inductive FetchError :=
| ErrCreateRequest      (* "create request failed: ..." *)
| ErrRequest            (* "request failed: ..." *)
| ErrNotFound           (* "endpoint not found ..." *)
| ErrStatus (code : Z)  (* "unexpected status: ..." *)
| ErrDecode.            (* "decode failed: ..." *)

Definition CLOBAPIBaseURL : string := "https://clob.polymarket.com".
Definition DefaultPollInterval : Duration := 3 * Second.

(** [t.UnixMilli()] as an [int64]. *)
Definition UnixMilli (t : Time) : Z := wrap64 (t / 10 ^ 6).

(** [TradesPoller] polls the CLOB API for recent trades. *)
Record TradesPoller := mkTradesPoller {
  baseURL : string;
  interval : Duration;
  lastPoll : Time }.

(** [NewTradesPoller] creates a new TradesPoller; [now] is its reading
    of the clock. *)
Definition NewTradesPoller (baseURL : string) (interval : Duration) (now : Time)
  : TradesPoller :=
  let baseURL := if String.eqb baseURL "" then CLOBAPIBaseURL else baseURL in
  let interval := if interval =? 0 then DefaultPollInterval else interval in
  mkTradesPoller baseURL interval (time_Add now (- (5 * Minute))).

Section Poller.

Variable Sscanf_float : string -> option float64.

(** The answer of the server to a GET of the given URL. *)
Variable client_Do : string -> HTTPResult.

(** The URL [fetchRecentTrades] requests. *)
Definition tradesURL (p : TradesPoller) (after : Time) : string :=
  baseURL p +:+ "/trades?after=" +:+ format_int (UnixMilli after) +:+ "&limit=100".

(** [fetchRecentTrades] fetches trades after the given timestamp. *)
Definition fetchRecentTrades (p : TradesPoller) (after : Time) : list Trade + FetchError :=
  match client_Do (tradesURL p after) with
  | RequestNotCreated => inr ErrCreateRequest
  | RequestFailed => inr ErrRequest
  | Response status body =>
      if negb (status =? 200) then
        if status =? 404 then inr ErrNotFound else inr (ErrStatus status)
      else
        match TradeAPIDecode.DecodeSlice body with
        | None => inr ErrDecode
        | Some apiTrades => inl (convertFetched Sscanf_float apiTrades)
        end
  end.

(** [poll] fetches recent trades and sends them to the trade channel;
    [now] is the clock reading it makes when trades have come.  It returns
    the error, the trades dropped, the poller and the channel. *)
Definition poll (p : TradesPoller) (now : Time) (recvs : list nat) (ch : Chan Trade)
  : option FetchError * list Trade * TradesPoller * Chan Trade :=
  match fetchRecentTrades p (lastPoll p) with
  | inr err => (Some err, [], p, ch)
  | inl trades =>
      match trades with
      | [] => (None, [], p, ch)
      | _ :: _ =>
          let p' := mkTradesPoller (baseURL p) (interval p) now in
          let '(dropped, ch') := dispatch trades recvs ch in
          (None, dropped, p', ch')
      end
  end.

End Poller.

(* ===================================================================== *)
(** ** package ingest: market.go                                          *)
(* ===================================================================== *)

(** [Market] represents a Polymarket market from the Gamma API. *)
Module Market.
Record t := mk {
  ID : string;
  Question : string;
  Slug : string;
  Active : bool;
  Closed : bool;
  Volume : string;
  Liquidity : string;
  ClobTokenIDs : string;
  VolumeNum : float64 }.
End Market.

(** [json.Unmarshal(data, &ids)] for [ids] of type [[]string]. *)
Definition UnmarshalStrings (data : payload) : option (list string) :=
  match data with
  | Some v =>
      if json.slice_ok json.string_ok v
      then Some (match v with
                 | json.Array vs =>
                     map (fun e => match e with json.Str s => s | _ => ""%string end) vs
                 | _ => []
                 end)
      else None
  | None => None
  end.

Section Markets.

(** The JSON value a text denotes, [None] for a text that is not JSON. *)
Variable json_text : string -> payload.

(** The inner loop of [ExtractTokenIDs]. *)
Fixpoint addTokenIDs (ids : list string) (seen : gmap string bool) (tokenIDs : list string)
  : gmap string bool * list string :=
  match ids with
  | [] => (seen, tokenIDs)
  | id :: ids' =>
      if negb (default false (seen !! id))
      then addTokenIDs ids' (<[id := true]> seen) (tokenIDs ++ [id])
      else addTokenIDs ids' seen tokenIDs
  end.

(** The outer loop. *)
Fixpoint extractLoop (markets : list Market.t) (seen : gmap string bool)
    (tokenIDs : list string) : gmap string bool * list string :=
  match markets with
  | [] => (seen, tokenIDs)
  | market :: markets' =>
      if String.eqb (Market.ClobTokenIDs market) "" then extractLoop markets' seen tokenIDs
      else
        match UnmarshalStrings (json_text (Market.ClobTokenIDs market)) with
        | None => extractLoop markets' seen tokenIDs
        | Some ids =>
            let '(seen', tokenIDs') := addTokenIDs ids seen tokenIDs in
            extractLoop markets' seen' tokenIDs'
        end
  end.

(** [ExtractTokenIDs] extracts all token IDs from a list of markets. *)
Definition ExtractTokenIDs (markets : list Market.t) : list string :=
  snd (extractLoop markets ∅ []).

(** The token ids a market lists, none when its field is empty or does
    not decode. *)
Definition marketTokenIDs (market : Market.t) : list string :=
  if String.eqb (Market.ClobTokenIDs market) "" then []
  else default [] (UnmarshalStrings (json_text (Market.ClobTokenIDs market))).

End Markets.

(** The first occurrences of the elements of a list, in order. *)
Fixpoint firstOccurrences (seen l : list string) : list string :=
  match l with
  | [] => []
  | x :: l' =>
      if bool_decide (x ∈ seen) then firstOccurrences seen l'
      else x :: firstOccurrences (seen ++ [x]) l'
  end.

(* ===================================================================== *)
(** ** package config (internal/config/config.go)                         *)
(* ===================================================================== *)

(** [strconv.Atoi] where [int] has 64 bits: the decimal integers
    [strconv.ParseInt(s, 10, 64)] accepts. *)
Definition Atoi (s : string) : Z * option strconv.NumError := strconv.ParseInt s.

(** [strconv.ParseBool] accepts 1, t, T, TRUE, true, True, 0, f, F,
    FALSE, false, False. *)
Definition ParseBool (str : string) : option bool :=
  if existsb (String.eqb str) ["1"; "t"; "T"; "true"; "TRUE"; "True"]%string then Some true
  else if existsb (String.eqb str) ["0"; "f"; "F"; "false"; "FALSE"; "False"]%string
       then Some false
       else None.

Definition Millisecond : Duration := 10 ^ 6.

Module config.

(** [Config] holds all configuration values for the engine. *)
Record Config := mk {
  PolymarketWSURL : string;
  PolymarketRESTURL : string;
  TradePollInterval : Duration;
  AlchemyAPIKey : string;
  AlchemyURL : string;
  FallbackRPCURL : string;
  MinValueUSD : float64;
  WhaleValueUSD : float64;
  FreshWalletNonce : Z;
  BurstCount : Z;
  BurstWindow : Duration;
  DiscordWebhookURL : string;
  AlertBatchDuration : Duration;
  AlertCooldown : Duration;
  DBPath : string;
  WorkerCount : Z;
  PrometheusPort : Z;
  EnableTUI : bool;
  UIRefreshRate : Duration;
  LogLevel : string }.

Inductive ValidationError :=
| ErrWSURLRequired     (* "POLYMARKET_WS_URL is required" *)
| ErrMinValue          (* "MIN_VALUE_USD must be positive" *)
| ErrWhaleValue        (* "WHALE_VALUE_USD must be positive" *)
| ErrWorkerCount       (* "WORKER_COUNT must be at least 1" *)
| ErrPrometheusPort.   (* "PROMETHEUS_PORT must be between 1 and 65535" *)

Section Env.

(** [os.Getenv], once the .env file has been merged into the
    environment: the value of a variable, empty when it is not set. *)
Variable Getenv : string -> string.

(** [getEnv] retrieves an environment variable or returns a default
    value. *)
Definition getEnv (key defaultValue : string) : string :=
  if negb (String.eqb (Getenv key) "") then Getenv key else defaultValue.

(** [getEnvInt] retrieves an environment variable as an integer or
    returns a default. *)
Definition getEnvInt (key : string) (defaultValue : Z) : Z :=
  if negb (String.eqb (Getenv key) "") then
    match Atoi (Getenv key) with
    | (intVal, None) => intVal
    | (_, Some _) => defaultValue
    end
  else defaultValue.

(** [getEnvFloat] retrieves an environment variable as a float64 or
    returns a default. *)
Definition getEnvFloat (key : string) (defaultValue : float64) : float64 :=
  if negb (String.eqb (Getenv key) "") then
    match strconv.ParseFloat (Getenv key) with
    | (floatVal, None) => floatVal
    | (_, Some _) => defaultValue
    end
  else defaultValue.

(** [getEnvBool] retrieves an environment variable as a boolean or
    returns a default. *)
Definition getEnvBool (key : string) (defaultValue : bool) : bool :=
  if negb (String.eqb (Getenv key) "") then
    match ParseBool (Getenv key) with
    | Some boolVal => boolVal
    | None => defaultValue
    end
  else defaultValue.

(** [Validate] checks that required configuration values are set and
    valid. *)
Definition Validate (c : Config) : option ValidationError :=
  if String.eqb (PolymarketWSURL c) "" then Some ErrWSURLRequired
  else if F64.leb (MinValueUSD c) F64.zero then Some ErrMinValue
  else if F64.leb (WhaleValueUSD c) F64.zero then Some ErrWhaleValue
  else if WorkerCount c <? 1 then Some ErrWorkerCount
  else if (PrometheusPort c <? 1) || (65535 <? PrometheusPort c) then Some ErrPrometheusPort
  else None.

(** The configuration [Load] builds before it validates it. *)
Definition fromEnv : Config :=
  {| PolymarketWSURL :=
       getEnv "POLYMARKET_WS_URL" "wss://ws-subscriptions-clob.polymarket.com/ws/";
     PolymarketRESTURL := getEnv "POLYMARKET_REST_URL" "https://clob.polymarket.com";
     TradePollInterval := wrap64 (getEnvInt "TRADE_POLL_INTERVAL_SECONDS" 3 * Second);
     AlchemyAPIKey := getEnv "ALCHEMY_API_KEY" "";
     AlchemyURL := getEnv "ALCHEMY_URL" "https://polygon-mainnet.g.alchemy.com/v2/";
     FallbackRPCURL := getEnv "FALLBACK_RPC_URL" "https://polygon-rpc.com";
     MinValueUSD := getEnvFloat "MIN_VALUE_USD" (F64.of_Z 2000);
     WhaleValueUSD := getEnvFloat "WHALE_VALUE_USD" (F64.of_Z 50000);
     FreshWalletNonce := getEnvInt "FRESH_WALLET_NONCE" 5;
     BurstCount := getEnvInt "BURST_COUNT" 3;
     BurstWindow := wrap64 (getEnvInt "BURST_WINDOW_SECONDS" 60 * Second);
     DiscordWebhookURL := getEnv "DISCORD_WEBHOOK_URL" "";
     AlertBatchDuration := wrap64 (getEnvInt "ALERT_BATCH_SECONDS" 30 * Second);
     AlertCooldown := wrap64 (getEnvInt "ALERT_COOLDOWN_MINUTES" 60 * Minute);
     DBPath := getEnv "DB_PATH" "./data/trades.db";
     WorkerCount := getEnvInt "WORKER_COUNT" 5;
     PrometheusPort := getEnvInt "PROMETHEUS_PORT" 9090;
     EnableTUI := getEnvBool "ENABLE_TUI" true;
     UIRefreshRate := wrap64 (getEnvInt "UI_REFRESH_MS" 500 * Millisecond);
     LogLevel := getEnv "LOG_LEVEL" "INFO" |}.

(** [Load] reads configuration from environment variables. *)
Definition Load : Config + ValidationError :=
  match Validate fromEnv with
  | Some err => inr err
  | None => inl fromEnv
  end.

End Env.

(** [MaskedAlchemyKey] and [MaskedDiscordWebhook] *)
Definition MaskedAlchemyKey (c : Config) : string := maskSecret (AlchemyAPIKey c).
Definition MaskedDiscordWebhook (c : Config) : string := maskSecret (DiscordWebhookURL c).

End config.

(** The detector keeps the configuration it is given and reads these
    five fields of it. *)
Definition detectorConfig (c : config.Config) : Config :=
  mkConfig (config.MinValueUSD c) (config.WhaleValueUSD c) (config.FreshWalletNonce c)
           (config.BurstCount c) (config.BurstWindow c).

(** An environment that sets nothing, and one that sets only the two
    value thresholds, both to NaN. *)
Definition emptyEnv : string -> string := fun _ => ""%string.

Definition nanEnv : string -> string :=
  fun key => if String.eqb key "MIN_VALUE_USD" || String.eqb key "WHALE_VALUE_USD"
             then "NaN"%string else ""%string.

(** An environment that sets only the burst window, to 2^54 seconds. *)
Definition leastWindowEnv : string -> string :=
  fun key => if String.eqb key "BURST_WINDOW_SECONDS"
             then "18014398509481984"%string else ""%string.

(* ===================================================================== *)
(** ** package metrics (internal/metrics/tracker.go)                      *)
(* ===================================================================== *)

(** Go's [+] on float64. *)
Definition F64add (x y : float64) : float64 := SFadd F64.prec F64.emax x y.

(** The zero [time.Time]: January 1 of year 1, in nanoseconds since the
    Unix epoch. *)
Definition zeroTime : Time := -62135596800 * 10 ^ 9.

(** [t.Before(u)] *)
Definition time_Before (t u : Time) : bool := t <? u.

(** The loop the tracker runs after each append, to find the first entry
    inside the window: [validIdx] is set at the first entry after the
    cutoff and stays 0 when there is none. *)
Fixpoint firstAfter {A : Type} (stamp : A -> Time) (cutoff : Time) (i : nat) (l : list A)
  : nat :=
  match l with
  | [] => O
  | x :: l' =>
      if time_After (stamp x) cutoff then i else firstAfter stamp cutoff (S i) l'
  end.

(** The loop and the slicing that follows it. *)
Definition pruneBefore {A : Type} (stamp : A -> Time) (cutoff : Time) (l : list A) : list A :=
  let validIdx := firstAfter stamp cutoff 0 l in
  if (0 <? validIdx)%nat then drop validIdx l else l.

Module metrics.

(** [PricePoint] represents a price at a specific time. *)
Record PricePoint := mkPoint { Price : float64; Timestamp : Time }.

(** [MarketActivity] tracks activity for a single market. *)
Record MarketActivity := mkActivity {
  MarketID : string;
  Question : string;
  TradeCount : Z;
  Volume : float64;
  LastPrice : float64;
  PricePoints : list PricePoint;
  LastUpdate : Time }.

(** [MetricsTracker] provides thread-safe metrics tracking: each method
    below is one critical section of its mutex.  The map of activities
    holds pointers that nothing else keeps, so it is a map of values. *)
Record MetricsTracker := mkTracker {
  tradesTotal : Z;
  highValueTrades : Z;
  signalsByType : gmap string Z;
  priceHistory : gmap string (list PricePoint);
  marketActivity : gmap string MarketActivity;
  startTime : Time;
  lastTradeTime : Time;
  tradeTimestamps : list Time;
  wsStatus : string;
  restLastPoll : Time;
  channelBufferUsed : Z;
  channelBufferCap : Z }.

(** [NewMetricsTracker] creates a new MetricsTracker; [now] is its
    reading of the clock. *)
Definition NewMetricsTracker (now : Time) : MetricsTracker :=
  mkTracker 0 0 ∅ ∅ ∅ now zeroTime [] "disconnected" zeroTime 0 0.

(** [IncrementTrades] increments the total trade counter. *)
Definition IncrementTrades (m : MetricsTracker) (now : Time) : MetricsTracker :=
  let cutoff := time_Add now (- (60 * Second)) in
  mkTracker (wrap64 (tradesTotal m + 1)) (highValueTrades m) (signalsByType m)
    (priceHistory m) (marketActivity m) (startTime m) now
    (pruneBefore (fun t => t) cutoff (tradeTimestamps m ++ [now]))
    (wsStatus m) (restLastPoll m) (channelBufferUsed m) (channelBufferCap m).

(** [IncrementHighValue] increments the high-value trade counter. *)
Definition IncrementHighValue (m : MetricsTracker) : MetricsTracker :=
  mkTracker (tradesTotal m) (wrap64 (highValueTrades m + 1)) (signalsByType m)
    (priceHistory m) (marketActivity m) (startTime m) (lastTradeTime m)
    (tradeTimestamps m) (wsStatus m) (restLastPoll m) (channelBufferUsed m)
    (channelBufferCap m).

(** [IncrementSignal] increments the counter for a specific signal
    type. *)
Definition IncrementSignal (m : MetricsTracker) (signalType : string) : MetricsTracker :=
  mkTracker (tradesTotal m) (highValueTrades m)
    (<[signalType := wrap64 (default 0 (signalsByType m !! signalType) + 1)]>
       (signalsByType m))
    (priceHistory m) (marketActivity m) (startTime m) (lastTradeTime m)
    (tradeTimestamps m) (wsStatus m) (restLastPoll m) (channelBufferUsed m)
    (channelBufferCap m).

(** [RecordPrice] records a price point for a market. *)
Definition RecordPrice (m : MetricsTracker) (now : Time) (marketID : string)
    (price : float64) : MetricsTracker :=
  let point := mkPoint price now in
  let history := default [] (priceHistory m !! marketID) ++ [point] in
  let cutoff := time_Add now (- (60 * Minute)) in
  let history := pruneBefore Timestamp cutoff history in
  mkTracker (tradesTotal m) (highValueTrades m) (signalsByType m)
    (<[marketID := history]> (priceHistory m)) (marketActivity m) (startTime m)
    (lastTradeTime m) (tradeTimestamps m) (wsStatus m) (restLastPoll m)
    (channelBufferUsed m) (channelBufferCap m).

(** [UpdateMarketActivity] updates activity stats for a market; it reads
    the clock three times. *)
Definition UpdateMarketActivity (m : MetricsTracker) (now1 now2 now3 : Time)
    (marketID question : string) (price volume : float64) : MetricsTracker :=
  let activity :=
    match marketActivity m !! marketID with
    | Some activity => activity
    | None => mkActivity marketID question 0 F64.zero F64.zero [] zeroTime
    end in
  let points := PricePoints activity ++ [mkPoint price now2] in
  let cutoff := time_Add now3 (- (60 * Minute)) in
  let activity :=
    mkActivity (MarketID activity) (Question activity) (wrap64 (TradeCount activity + 1))
      (F64add (Volume activity) volume) price (pruneBefore Timestamp cutoff points) now1 in
  mkTracker (tradesTotal m) (highValueTrades m) (signalsByType m) (priceHistory m)
    (<[marketID := activity]> (marketActivity m)) (startTime m) (lastTradeTime m)
    (tradeTimestamps m) (wsStatus m) (restLastPoll m) (channelBufferUsed m)
    (channelBufferCap m).

(** [SetWebSocketStatus], [SetRESTLastPoll], [SetChannelBuffer] *)
Definition SetWebSocketStatus (m : MetricsTracker) (status : string) : MetricsTracker :=
  mkTracker (tradesTotal m) (highValueTrades m) (signalsByType m) (priceHistory m)
    (marketActivity m) (startTime m) (lastTradeTime m) (tradeTimestamps m) status
    (restLastPoll m) (channelBufferUsed m) (channelBufferCap m).

Definition SetRESTLastPoll (m : MetricsTracker) (t : Time) : MetricsTracker :=
  mkTracker (tradesTotal m) (highValueTrades m) (signalsByType m) (priceHistory m)
    (marketActivity m) (startTime m) (lastTradeTime m) (tradeTimestamps m) (wsStatus m)
    t (channelBufferUsed m) (channelBufferCap m).

Definition SetChannelBuffer (m : MetricsTracker) (used capacity : Z) : MetricsTracker :=
  mkTracker (tradesTotal m) (highValueTrades m) (signalsByType m) (priceHistory m)
    (marketActivity m) (startTime m) (lastTradeTime m) (tradeTimestamps m) (wsStatus m)
    (restLastPoll m) used capacity.

(** [Cleanup] removes stale data from the tracker: the range loop visits
    every activity once and deletes from both maps. *)
Definition Cleanup (m : MetricsTracker) (now : Time) : MetricsTracker :=
  let cutoff := time_Add now (- (60 * Minute)) in
  let '(activities, histories) :=
    map_fold (fun id activity (acc : gmap string MarketActivity
                                     * gmap string (list PricePoint)) =>
                if time_Before (LastUpdate activity) cutoff
                then (delete id (fst acc), delete id (snd acc)) else acc)
             (marketActivity m, priceHistory m) (marketActivity m) in
  mkTracker (tradesTotal m) (highValueTrades m) (signalsByType m) histories activities
    (startTime m) (lastTradeTime m) (tradeTimestamps m) (wsStatus m) (restLastPoll m)
    (channelBufferUsed m) (channelBufferCap m).

End metrics.

(* ===================================================================== *)
(** ** package main: the worker (cmd/engine/main.go)                      *)
(* ===================================================================== *)

(** The loop over the suspects of one trade: count the signal, then
    offer the suspect to the channel without blocking.  It returns the
    suspects dropped. *)
Fixpoint forwardSuspects (suspects : list Suspect) (recvs : list nat)
    (m : metrics.MetricsTracker) (ch : Chan Suspect)
  : list Suspect * metrics.MetricsTracker * Chan Suspect :=
  match suspects with
  | [] => ([], m, ch)
  | suspect :: suspects' =>
      let m1 := metrics.IncrementSignal m (SignalType suspect) in
      let '(sent, ch1) := trySend (received (hd O recvs) ch) suspect in
      let '(dropped, m2, ch2) := forwardSuspects suspects' (tl recvs) m1 ch1 in
      (if sent then dropped else suspect :: dropped, m2, ch2)
  end.

Section Worker.

Variable clock : nat -> Time.

(** What [worker] does with one trade it has received, no other
    goroutine touching the tracker or the detector meanwhile (the receivers
    of the suspect channel apart): [used] and [capacity] are [len(tradeChan)]
    and [cap(tradeChan)] at that moment, [n] counts the clock readings.  It
    returns the suspects dropped, the detector, the tracker, the suspect
    channel and the count. *)
Definition processTrade (c : config.Config) (trade : Trade) (used capacity : Z)
    (recvs : list nat) (n : nat) (d : Detector) (m : metrics.MetricsTracker)
    (suspectChan : Chan Suspect)
  : list Suspect * Detector * metrics.MetricsTracker * Chan Suspect * nat :=
  let m := metrics.IncrementTrades m (clock n) in
  let m := metrics.RecordPrice m (clock (n + 1)) (MarketID trade) (Price trade) in
  let m := metrics.UpdateMarketActivity m (clock (n + 2)) (clock (n + 3)) (clock (n + 4))
             (MarketID trade) "" (Price trade) (ValueUSD trade) in
  let m := metrics.SetChannelBuffer m used capacity in
  let m := if F64.geb (ValueUSD trade) (config.MinValueUSD c)
           then metrics.IncrementHighValue m else m in
  let '(suspects, d') := Detect d (clock (n + 5)) trade (-1) in
  let n' := if negb (String.eqb (MakerAddress trade) "") then (n + 6)%nat else (n + 5)%nat in
  let '(dropped, m', ch') := forwardSuspects suspects recvs m suspectChan in
  (dropped, d', m', ch', n').

End Worker.

(* ===================================================================== *)
(** ** package ui: the two feeds                                          *)
(* ===================================================================== *)

Module ui.

(** [LiveTradesView] displays a scrolling feed of incoming trades; the
    rows it draws are those of [trades]. *)
Record LiveTradesView := mkLiveTrades { trades : list Trade; maxRows : nat }.

(** [NewLiveTradesView] creates a new live trades view. *)
Definition NewLiveTradesView : LiveTradesView := mkLiveTrades [] 100.

(** [AddTrade] adds a new trade to the view. *)
Definition AddTrade (v : LiveTradesView) (trade : Trade) : LiveTradesView :=
  let trades := [trade] ++ trades v in
  let trades := if (maxRows v <? length trades)%nat then take (maxRows v) trades
                else trades in
  mkLiveTrades trades (maxRows v).

(** [SignalAlerterView] displays detected trading signals. *)
Record SignalAlerterView := mkSignalAlerter { suspects : list Suspect; maxItems : nat }.

(** [NewSignalAlerterView] creates a new signal alerter view. *)
Definition NewSignalAlerterView : SignalAlerterView := mkSignalAlerter [] 50.

(** [AddSuspect] adds a new suspect to the alerts list. *)
Definition AddSuspect (v : SignalAlerterView) (suspect : Suspect) : SignalAlerterView :=
  let suspects := [suspect] ++ suspects v in
  let suspects := if (maxItems v <? length suspects)%nat then take (maxItems v) suspects
                  else suspects in
  mkSignalAlerter suspects (maxItems v).

End ui.

(** ** Runs of the tracker and of the feeds *)

(** The tracker after [IncrementTrades] calls at the given readings. *)
Definition countTrades (m : metrics.MetricsTracker) (times : list Time)
  : metrics.MetricsTracker :=
  fold_left metrics.IncrementTrades times m.

(** One [UpdateMarketActivity] call: its three readings and arguments. *)
Record ActivityCall := mkActivityCall {
  acNow1 : Time; acNow2 : Time; acNow3 : Time;
  acMarket : string; acQuestion : string; acPrice : float64; acVolume : float64 }.

Definition applyActivity (m : metrics.MetricsTracker) (c : ActivityCall)
  : metrics.MetricsTracker :=
  metrics.UpdateMarketActivity m (acNow1 c) (acNow2 c) (acNow3 c) (acMarket c)
    (acQuestion c) (acPrice c) (acVolume c).

Definition callsFor (marketID : string) (calls : list ActivityCall) : list ActivityCall :=
  List.filter (fun c => String.eqb (acMarket c) marketID) calls.

(** How many suspects carry the signal type. *)
Definition signalCount (ty : string) (ss : list Suspect) : Z :=
  Z.of_nat (length (List.filter (hasSignal ty) ss)).

(* ===================================================================== *)
(** * Proofs                                                              *)
(* ===================================================================== *)

Section BurstTrackerFacts.

Lemma scanValid_stalePrefix cutoff ts :
  forall i v,
    scanValid cutoff (i + length ts) i ts v =
    match ts with [] => v | _ :: _ => (i + stalePrefix cutoff ts)%nat end.
Proof.
  induction ts as [|t ts IH]; intros i v; simpl; [reflexivity|].
  destruct (time_After t cutoff) eqn:Ht; [lia|].
  replace (i + S (length ts))%nat with (S i + length ts)%nat by lia.
  rewrite IH. destruct ts as [|t' ts]; simpl.
  - replace (i + 0 - 0)%nat with i by lia. rewrite Nat.eqb_refl. simpl. lia.
  - destruct (time_After t' cutoff); lia.
Qed.

Lemma scanValid_init cutoff ts :
  scanValid cutoff (length ts) 0 ts 0 = stalePrefix cutoff ts.
Proof.
  pose proof (scanValid_stalePrefix cutoff ts 0%nat 0%nat) as H. simpl in H.
  rewrite H. destruct ts; reflexivity.
Qed.

Lemma filter_all_after cutoff ts :
  Forall (fun t => cutoff < t) ts ->
  List.filter (fun t => time_After t cutoff) ts = ts.
Proof.
  induction 1 as [|t ts Ht _ IH]; simpl; [reflexivity|].
  unfold time_After at 1. destruct (Z.ltb_spec cutoff t); [|lia]. now rewrite IH.
Qed.

Lemma filter_none_after cutoff ts :
  Forall (fun t => t <= cutoff) ts ->
  List.filter (fun t => time_After t cutoff) ts = [].
Proof.
  induction 1 as [|t ts Ht _ IH]; simpl; [reflexivity|].
  unfold time_After at 1. destruct (Z.ltb_spec cutoff t); [lia|]. exact IH.
Qed.

Lemma stalePrefix_all cutoff ts :
  Forall (fun t => t <= cutoff) ts -> stalePrefix cutoff ts = length ts.
Proof.
  induction 1 as [|t ts Ht _ IH]; simpl; [reflexivity|].
  unfold time_After. destruct (Z.ltb_spec cutoff t); [lia|]. now rewrite IH.
Qed.

(** On an ascending sequence, cutting the stale prefix removes every
    stale entry. *)
Lemma drop_stalePrefix_sorted (cutoff : Time) (ts : list Time) :
  StronglySorted Z.le ts ->
  drop (stalePrefix cutoff ts) ts = List.filter (fun t => time_After t cutoff) ts.
Proof.
  induction 1 as [|t ts Hs IH Hall]; simpl; [reflexivity|].
  destruct (time_After t cutoff) eqn:Ht; simpl.
  - f_equal. symmetry. apply filter_all_after.
    unfold time_After in Ht. apply Z.ltb_lt in Ht.
    eapply Forall_impl; [exact Hall|]. simpl. intros; lia.
  - exact IH.
Qed.

(** The negation of every duration but the least is the usual one. *)
Lemma neg64_int64 (w : Duration) :
  - 2 ^ 63 <= w < 2 ^ 63 -> neg64 w = if w =? - 2 ^ 63 then - 2 ^ 63 else - w.
Proof.
  intros Hw. unfold neg64, wrap64.
  destruct (Z.eqb_spec w (- 2 ^ 63)) as [->|Hne]; [reflexivity|].
  rewrite Z.mod_small by lia. lia.
Qed.

(** The cutoff [now.Add(-window)] of [Record] and [Cleanup], written out. *)
Lemma cutoff_int64 (now : Time) (w : Duration) :
  - 2 ^ 63 <= w < 2 ^ 63 ->
  time_Add now (neg64 w) = if w =? - 2 ^ 63 then now - 2 ^ 63 else now - w.
Proof.
  intros Hw. unfold time_Add. rewrite (neg64_int64 w Hw).
  destruct (w =? - 2 ^ 63); lia.
Qed.

Lemma Record_unfold b now address :
  Record_ b now address =
  let ts := default [] (trades b !! address) in
  let kept := drop (stalePrefix (time_Add now (neg64 (window b))) ts) ts in
  (Z.of_nat (length (kept ++ [now])),
   mkBurstTracker (<[address := kept ++ [now]]> (trades b)) (window b)).
Proof.
  unfold Record_. cbv zeta. rewrite scanValid_init.
  destruct (stalePrefix (time_Add now (neg64 (window b)))
              (default [] (trades b !! address))) eqn:E;
    simpl; reflexivity.
Qed.

Lemma StronglySorted_drop (n : nat) (ts : list Time) :
  StronglySorted Z.le ts -> StronglySorted Z.le (drop n ts).
Proof.
  intros H. revert n. induction H as [|t ts Hs IH Hall]; intros [|n]; simpl;
    try constructor; auto.
Qed.

Lemma Forall_drop_le (n : nat) (now : Time) (ts : list Time) :
  Forall (fun t => t <= now) ts -> Forall (fun t => t <= now) (drop n ts).
Proof.
  intros H. revert n. induction H as [|t ts Ht Hs IH]; intros [|n]; simpl;
    try constructor; auto.
Qed.

Lemma ordered_snoc now now' ts :
  ordered now ts -> now <= now' -> ordered now' (ts ++ [now']).
Proof.
  intros [Hs Hb] Hle. split.
  - induction Hs as [|t ts Hs IH Hall]; simpl.
    + repeat constructor.
    + inversion Hb; subst. constructor; [auto|].
      apply Forall_app_2; [exact Hall|]. constructor; [lia|constructor].
  - apply Forall_app_2; [|constructor; [lia|constructor]].
    eapply Forall_impl; [exact Hb|]. simpl. intros; lia.
Qed.

Lemma ordered_mono now now' ts : ordered now ts -> now <= now' -> ordered now' ts.
Proof.
  intros [Hs Hb] Hle. split; [exact Hs|].
  eapply Forall_impl; [exact Hb|]. simpl. intros; lia.
Qed.

Lemma ordered_nil now : ordered now [].
Proof. split; constructor. Qed.

(** The deleting fold of [Cleanup], started from any map [full]. *)
Lemma cleanup_fold_lookup cutoff (full m : gmap string (list Time)) k :
  map_fold (fun addr timestamps acc =>
              if stale cutoff timestamps then delete addr acc else acc) full m !! k =
  match m !! k with
  | Some ts => if stale cutoff ts then None else full !! k
  | None => full !! k
  end.
Proof.
  revert m.
  apply (map_fold_weak_ind
           (fun (r m : gmap string (list Time)) =>
              r !! k = match m !! k with
                       | Some ts => if stale cutoff ts then None else full !! k
                       | None => full !! k
                       end)).
  - rewrite lookup_empty. reflexivity.
  - intros i x m r Hi IH.
    destruct (decide (i = k)) as [->|Hne].
    + rewrite lookup_insert_eq. rewrite Hi in IH.
      destruct (stale cutoff x); [apply lookup_delete_eq|exact IH].
    + rewrite lookup_insert_ne by exact Hne.
      destruct (stale cutoff x); [rewrite lookup_delete_ne by exact Hne|]; exact IH.
Qed.

(** What [Cleanup] leaves under each key. *)
Lemma Cleanup_lookup b now k :
  trades (Cleanup b now) !! k =
  match trades b !! k with
  | Some ts => if stale (time_Add now (neg64 (window b))) ts then None else Some ts
  | None => None
  end.
Proof.
  unfold Cleanup. cbv zeta. simpl.
  rewrite cleanup_fold_lookup.
  destruct (trades b !! k) as [ts|]; reflexivity.
Qed.

Lemma reachable_window w t b : reachable w t b -> window b = w.
Proof. induction 1; simpl; auto. Qed.

(** Every stored sequence of a reachable tracker is ascending and not
    ahead of the clock. *)
Lemma reachable_ordered w t b : reachable w t b -> tracker_ordered t b.
Proof.
  induction 1 as [t0|t b now key Hr IH Hle|t b now Hr IH Hle]; intros k ts Hk.
  - simpl in Hk. rewrite lookup_empty in Hk. discriminate.
  - rewrite Record_unfold in Hk. cbv zeta in Hk. simpl in Hk.
    destruct (decide (key = k)) as [->|Hne].
    + rewrite lookup_insert_eq in Hk. injection Hk as <-.
      apply ordered_snoc with (now := t); [|exact Hle].
      destruct (trades b !! k) as [old|] eqn:Hold; simpl.
      * destruct (IH _ _ Hold) as [Hs Hb].
        split; [apply StronglySorted_drop|apply Forall_drop_le]; assumption.
      * apply ordered_nil.
    + rewrite lookup_insert_ne in Hk by exact Hne.
      eapply ordered_mono; [eapply IH; exact Hk|exact Hle].
  - rewrite Cleanup_lookup in Hk.
    destruct (trades b !! k) as [old|] eqn:Hold; [|discriminate].
    destruct (stale (time_Add now (neg64 (window b))) old); [discriminate|].
    injection Hk as <-.
    eapply ordered_mono; [eapply IH; exact Hold|exact Hle].
Qed.

End BurstTrackerFacts.

(** ** Detector *)

Section DetectorFacts.

Lemma Detect_suspects d now trade nonce :
  fst (Detect d now trade nonce) =
  checkPriceShock (lastPrices d !! AssetID trade) trade nonce
  ++ checkWhale (cfg d) trade nonce
  ++ checkFreshInsider (cfg d) trade nonce
  ++ fst (checkPanicBurst (cfg d) (burstTracker d) now trade nonce).
Proof.
  unfold Detect.
  destruct (checkPanicBurst (cfg d) (burstTracker d) now trade nonce) as [burst b'].
  simpl. rewrite <- !app_assoc. reflexivity.
Qed.

Lemma Detect_lastPrices d now trade nonce :
  lastPrices (snd (Detect d now trade nonce)) =
  <[AssetID trade := Price trade]> (lastPrices d).
Proof.
  unfold Detect.
  destruct (checkPanicBurst (cfg d) (burstTracker d) now trade nonce) as [burst b'].
  reflexivity.
Qed.

Lemma Detect_cfg d now trade nonce : cfg (snd (Detect d now trade nonce)) = cfg d.
Proof.
  unfold Detect.
  destruct (checkPanicBurst (cfg d) (burstTracker d) now trade nonce) as [burst b'].
  reflexivity.
Qed.

(** Calls on other assets leave the last price of an asset alone. *)
Lemma DetectAll_lastPrices_other (a : string) (calls : list Call) :
  Forall (fun c => AssetID (callTrade c) <> a) calls ->
  forall d, lastPrices (DetectAll d calls) !! a = lastPrices d !! a.
Proof.
  induction 1 as [|[[now trade] nonce] calls Hne _ IH]; intros d; simpl; [reflexivity|].
  rewrite IH, Detect_lastPrices. apply lookup_insert_ne. exact Hne.
Qed.

Lemma checkPanicBurst_suspects c b now trade nonce :
  fst (checkPanicBurst c b now trade nonce) =
  if negb (String.eqb (MakerAddress trade) "")
     && (BurstCount c <=? fst (Record_ b now (MakerAddress trade)))
  then [mkSuspect trade SignalPanicBurst nonce None] else [].
Proof.
  unfold checkPanicBurst.
  destruct (negb (String.eqb (MakerAddress trade) "")); [|reflexivity].
  destruct (Record_ b now (MakerAddress trade)) as [count b']. simpl.
  destruct (BurstCount c <=? count); reflexivity.
Qed.

(** The suspects of one signal type among those of one call. *)
Lemma Detect_filter ty d now trade nonce :
  List.filter (hasSignal ty) (fst (Detect d now trade nonce)) =
  List.filter (hasSignal ty) (checkPriceShock (lastPrices d !! AssetID trade) trade nonce)
  ++ List.filter (hasSignal ty) (checkWhale (cfg d) trade nonce)
  ++ List.filter (hasSignal ty) (checkFreshInsider (cfg d) trade nonce)
  ++ List.filter (hasSignal ty)
       (fst (checkPanicBurst (cfg d) (burstTracker d) now trade nonce)).
Proof. rewrite Detect_suspects, !List.filter_app. reflexivity. Qed.

Lemma checkPriceShock_unfold last trade nonce :
  checkPriceShock last trade nonce =
  match last with
  | Some lastPrice =>
      if F64.gtb lastPrice F64.zero && F64.geb (pctChange lastPrice (Price trade)) shockThreshold
      then [mkSuspect trade SignalPriceShock nonce
              (Some (priceShockMeta lastPrice (Price trade)
                       (pctChange lastPrice (Price trade))))]
      else []
  | None => []
  end.
Proof.
  unfold checkPriceShock, pctChange. destruct last as [lastPrice|]; [|reflexivity].
  destruct (F64.gtb lastPrice F64.zero); [|reflexivity].
  simpl. reflexivity.
Qed.

Lemma priceShockMeta_lookup prev new pct :
  priceShockMeta prev new pct !! "prev_price"%string = Some prev
  /\ priceShockMeta prev new pct !! "new_price"%string = Some new
  /\ priceShockMeta prev new pct !! "pct_change"%string = Some pct.
Proof.
  unfold priceShockMeta. split; [|split].
  - rewrite !lookup_insert_ne by discriminate. apply lookup_insert_eq.
  - rewrite lookup_insert_ne by discriminate. apply lookup_insert_eq.
  - apply lookup_insert_eq.
Qed.

End DetectorFacts.

(** Case analysis over the four checks of one [Detect] call. *)
Ltac detect_cases :=
  rewrite ?Detect_suspects, ?checkPanicBurst_suspects, ?checkPriceShock_unfold;
  unfold checkWhale, checkFreshInsider;
  repeat match goal with
         | |- context [match ?x with Some _ => _ | None => _ end] => destruct x eqn:?
         | |- context [if ?c then _ else _] => destruct c eqn:?
         end;
  simpl.

(** C4: for every trade whose valueUsd is at least the whale threshold and
    every nonce, the suspects [Detect] returns contain exactly one with
    signal type WHALE (wrapping the trade, carrying the nonce), whatever the
    trade's other fields and the detector's state. *)
Theorem C4_whale_exactly_one d now trade nonce :
  F64.geb (ValueUSD trade) (WhaleValueUSD (cfg d)) = true ->
  List.filter (hasSignal SignalWhale) (fst (Detect d now trade nonce)) =
    [mkSuspect trade SignalWhale nonce None]
  /\ length (List.filter (hasSignal SignalWhale) (fst (Detect d now trade nonce))) = 1%nat.
Proof.
  intros Hw.
  assert (List.filter (hasSignal SignalWhale) (fst (Detect d now trade nonce)) =
          [mkSuspect trade SignalWhale nonce None]) as E.
  { rewrite Detect_filter, checkPanicBurst_suspects, checkPriceShock_unfold.
    unfold checkWhale, checkFreshInsider. rewrite Hw.
    repeat match goal with
           | |- context [match ?x with Some _ => _ | None => _ end] => destruct x eqn:?
           | |- context [if ?c then _ else _] => destruct c eqn:?
           end; reflexivity. }
  rewrite E. split; reflexivity.
Qed.

Lemma C4_whale_witness :
  List.filter (hasSignal SignalWhale) (fst (Detect (NewDetector testConfig) 0 whaleTrade (-1))) =
    [mkSuspect whaleTrade SignalWhale (-1) None]
  /\ length (List.filter (hasSignal SignalWhale)
               (fst (Detect (NewDetector testConfig) 0 whaleTrade (-1)))) = 1%nat.
Proof. apply C4_whale_exactly_one. vm_compute. reflexivity. Defined.

Lemma exists_signal_filter ty (ss : list Suspect) :
  (exists s, In s ss /\ SignalType s = ty) <-> List.filter (hasSignal ty) ss <> [].
Proof.
  split.
  - intros (s & Hin & Hty) E.
    assert (In s (List.filter (hasSignal ty) ss)) as Hf.
    { apply List.filter_In. split; [exact Hin|]. unfold hasSignal. now apply String.eqb_eq. }
    rewrite E in Hf. exact Hf.
  - intros Hne. destruct (List.filter (hasSignal ty) ss) as [|s rest] eqn:E; [congruence|].
    assert (In s (List.filter (hasSignal ty) ss)) as Hf by (rewrite E; now left).
    apply List.filter_In in Hf. destruct Hf as [Hin Hty].
    exists s. split; [exact Hin|]. now apply String.eqb_eq.
Qed.

(** C5: [Detect] emits a FRESH_INSIDER suspect, carrying the nonce, if and
    only if nonce >= 0, valueUsd >= minValueThreshold and
    nonce <= freshWalletNonceThreshold; there is at most that one; and a
    call with nonce -1 produces none. *)
Theorem C5_fresh_insider_iff d now trade nonce :
  let fires := (0 <=? nonce) && F64.geb (ValueUSD trade) (MinValueUSD (cfg d))
               && (nonce <=? FreshWalletNonce (cfg d)) in
  List.filter (hasSignal SignalFreshInsider) (fst (Detect d now trade nonce)) =
    (if fires then [mkSuspect trade SignalFreshInsider nonce None] else [])
  /\ ((exists s, In s (fst (Detect d now trade nonce)) /\ SignalType s = SignalFreshInsider)
      <-> (0 <= nonce /\ F64.geb (ValueUSD trade) (MinValueUSD (cfg d)) = true
           /\ nonce <= FreshWalletNonce (cfg d)))
  /\ List.filter (hasSignal SignalFreshInsider) (fst (Detect d now trade (-1))) = [].
Proof.
  intros fires.
  assert (forall n,
    List.filter (hasSignal SignalFreshInsider) (fst (Detect d now trade n)) =
    if (0 <=? n) && F64.geb (ValueUSD trade) (MinValueUSD (cfg d))
       && (n <=? FreshWalletNonce (cfg d))
    then [mkSuspect trade SignalFreshInsider n None] else []) as E.
  { intros n. rewrite Detect_filter, checkPanicBurst_suspects, checkPriceShock_unfold.
    unfold checkWhale, checkFreshInsider.
    repeat match goal with
           | |- context [match ?x with Some _ => _ | None => _ end] => destruct x eqn:?
           | |- context [if ?c then _ else _] => destruct c eqn:?
           end; simpl in *; try reflexivity; try discriminate. }
  split; [apply E|]. split.
  - rewrite exists_signal_filter, E. fold fires. unfold fires.
    destruct (Z.leb_spec 0 nonce); destruct (F64.geb (ValueUSD trade) (MinValueUSD (cfg d)));
      destruct (Z.leb_spec nonce (FreshWalletNonce (cfg d))); simpl;
      split; try congruence; try (intros (? & ? & ?); first [lia | discriminate]);
      try (intros _; repeat split; lia).
  - rewrite E. reflexivity.
Qed.

Lemma filter_signal_le_1 ty (ss : list Suspect) :
  NoDup (map SignalType ss) -> (length (List.filter (hasSignal ty) ss) <= 1)%nat.
Proof.
  induction ss as [|s ss IH]; simpl; intros Hnd; [lia|].
  apply NoDup_cons in Hnd. destruct Hnd as [Hnotin Hnd].
  unfold hasSignal at 1. destruct (String.eqb_spec (SignalType s) ty) as [Heq|Hne]; simpl.
  - subst ty. assert (List.filter (hasSignal (SignalType s)) ss = []) as ->; [|simpl; lia].
    destruct (List.filter (hasSignal (SignalType s)) ss) as [|s' rest] eqn:E; [reflexivity|].
    exfalso. apply Hnotin.
    assert (In s' (List.filter (hasSignal (SignalType s)) ss)) as Hf by (rewrite E; now left).
    apply List.filter_In in Hf. destruct Hf as [Hin Hty].
    unfold hasSignal in Hty. apply String.eqb_eq in Hty. rewrite <- Hty.
    apply list_elem_of_In. apply in_map. exact Hin.
  - apply IH. exact Hnd.
Qed.

(** C10: the suspects of one [Detect] call carry signal types that form a
    subsequence of PRICE_SHOCK, WHALE, FRESH_INSIDER, PANIC_BURST (so they
    appear in that order, each at most once, at most four in all), and
    every suspect wraps the input trade and carries the given nonce. *)
Theorem C10_suspects_shape d now trade nonce :
  let ss := fst (Detect d now trade nonce) in
  sublist (map SignalType ss) signalOrder
  /\ (forall ty, (length (List.filter (hasSignal ty) ss) <= 1)%nat)
  /\ (length ss <= 4)%nat
  /\ Forall (fun s => STrade s = trade /\ Nonce s = nonce) ss.
Proof.
  intros ss.
  assert (sublist (map SignalType ss) signalOrder
          /\ NoDup (map SignalType ss)
          /\ (length ss <= 4)%nat
          /\ Forall (fun s => STrade s = trade /\ Nonce s = nonce) ss) as (Hsub & Hnd & Hlen & Hall).
  { subst ss. detect_cases.
    all: (split; [unfold signalOrder;
                  repeat first [apply sublist_nil | apply sublist_skip | apply sublist_cons]|]).
    all: (split; [repeat (apply NoDup_cons; split;
                           [rewrite ?not_elem_of_cons; repeat split;
                            first [discriminate | apply not_elem_of_nil]|]);
                  apply NoDup_nil_2|]).
    all: (split; [lia|]).
    all: repeat constructor. }
  repeat split; try assumption.
  intros ty. apply filter_signal_le_1. exact Hnd.
Qed.

Lemma priceShock_filter last trade nonce d now :
  lastPrices d !! AssetID trade = last ->
  List.filter (hasSignal SignalPriceShock) (fst (Detect d now trade nonce)) =
  checkPriceShock last trade nonce.
Proof.
  intros <-. rewrite Detect_filter, checkPanicBurst_suspects, checkPriceShock_unfold.
  unfold checkWhale, checkFreshInsider.
  repeat match goal with
         | |- context [match ?x with Some _ => _ | None => _ end] => destruct x eqn:?
         | |- context [if ?c then _ else _] => destruct c eqn:?
         end; reflexivity.
Qed.

(** The float64 the literal 0.05 denotes is 7205759403792794 * 2^-57
    (0x1.999999999999ap-5): it is within half a unit in the last place of
    1/20, and it is what [strconv.ParseFloat] reads from "0.05". *)
Example five_percent_literal :
  Z.abs (20 * 7205759403792794 - 2 ^ 57) <= 10
  /\ strconv.ParseFloat "0.05" = (S754_finite false 7205759403792794 (-57), None).
Proof. split; [vm_compute; discriminate|vm_compute; reflexivity]. Qed.

(** C2: take a [Detect] call on a trade with price p1 > 0 and the next
    call on the same assetId (calls on other assets may come between), with
    price p2.  The second call emits a PRICE_SHOCK suspect if and only if
    |p2 - p1| / p1 >= 0.05 in float64 arithmetic, 0.05 being the float64
    7205759403792794 * 2^-57; it emits at most one, and its metadata holds
    the previous price, the new price and the percentage change.  A call on
    an assetId no earlier call has seen emits no PRICE_SHOCK suspect. *)
Theorem C2_price_shock :
  let fivePercent := S754_finite false 7205759403792794 (-57) in
  (forall d now1 t1 n1 (between : list Call) now2 t2 n2,
     AssetID t1 = AssetID t2 ->
     Forall (fun c => AssetID (callTrade c) <> AssetID t1) between ->
     F64.gtb (Price t1) F64.zero = true ->
     let d1 := DetectAll (snd (Detect d now1 t1 n1)) between in
     let pct := pctChange (Price t1) (Price t2) in
     let shocks := List.filter (hasSignal SignalPriceShock) (fst (Detect d1 now2 t2 n2)) in
     shocks =
       (if F64.geb pct fivePercent
        then [mkSuspect t2 SignalPriceShock n2
                (Some (priceShockMeta (Price t1) (Price t2) pct))]
        else [])
     /\ ((exists s, In s (fst (Detect d1 now2 t2 n2)) /\ SignalType s = SignalPriceShock)
         <-> F64.geb pct fivePercent = true)
     /\ priceShockMeta (Price t1) (Price t2) pct !! "prev_price"%string = Some (Price t1)
     /\ priceShockMeta (Price t1) (Price t2) pct !! "new_price"%string = Some (Price t2)
     /\ priceShockMeta (Price t1) (Price t2) pct !! "pct_change"%string = Some pct)
  /\ (forall c (earlier : list Call) now t n,
        Forall (fun c => AssetID (callTrade c) <> AssetID t) earlier ->
        List.filter (hasSignal SignalPriceShock)
          (fst (Detect (DetectAll (NewDetector c) earlier) now t n)) = []).
Proof.
  intros fivePercent.
  assert (Ethr : shockThreshold = fivePercent) by (vm_compute; reflexivity).
  split.
  - intros d now1 t1 n1 between now2 t2 n2 Hasset Hother Hpos d1 pct shocks.
    assert (lastPrices d1 !! AssetID t2 = Some (Price t1)) as Hlast.
    { unfold d1. rewrite <- Hasset, DetectAll_lastPrices_other by exact Hother.
      rewrite Detect_lastPrices. apply lookup_insert_eq. }
    assert (shocks =
            if F64.geb pct fivePercent
            then [mkSuspect t2 SignalPriceShock n2
                    (Some (priceShockMeta (Price t1) (Price t2) pct))]
            else []) as E.
    { unfold shocks. rewrite (priceShock_filter _ _ _ _ _ Hlast), checkPriceShock_unfold.
      rewrite Hpos, Ethr. reflexivity. }
    split; [exact E|]. split; [|apply priceShockMeta_lookup].
    rewrite exists_signal_filter. fold shocks. rewrite E.
    destruct (F64.geb pct fivePercent); split; congruence.
  - intros c earlier now t n Hother.
    apply priceShock_filter with (last := None).
    rewrite DetectAll_lastPrices_other by exact Hother. apply lookup_empty.
Qed.

(** Price 0.50 then 0.60 on one asset, a trade on another asset between:
    a shock.  Price 100 then 105, exactly 5%: a shock.  Price 100 then 104,
    and price 100 twice: none.  A first trade on an asset: none. *)
Lemma C2_price_shock_witness :
  let d1 := DetectAll (snd (Detect (NewDetector testConfig) 0 (pricedTrade "a" 50 (-2)) (-1)))
              [(1, pricedTrade "b" 9 (-1), -1)] in
  let at100 := snd (Detect (NewDetector testConfig) 0 (pricedTrade "a" 100 0) (-1)) in
  let shocks (r : list Suspect * Detector) :=
    List.filter (hasSignal SignalPriceShock) (fst r) in
  (exists s, In s (fst (Detect d1 2 (pricedTrade "a" 60 (-2)) (-1)))
             /\ SignalType s = SignalPriceShock)
  /\ shocks (Detect at100 1 (pricedTrade "a" 105 0) (-1)) =
     [mkSuspect (pricedTrade "a" 105 0) SignalPriceShock (-1)
        (Some (priceShockMeta (F64.of_Z 100) (F64.of_Z 105)
                 (S754_finite false 7205759403792794 (-57))))]
  /\ shocks (Detect at100 1 (pricedTrade "a" 104 0) (-1)) = []
  /\ shocks (Detect at100 1 (pricedTrade "a" 100 0) (-1)) = []
  /\ shocks (Detect (DetectAll (NewDetector testConfig) [(1, pricedTrade "b" 9 (-1), -1)])
               2 (pricedTrade "a" 60 (-2)) (-1)) = [].
Proof.
  cbv zeta. split; [|split; [|split; [|split]]].
  - apply (proj1 C2_price_shock (NewDetector testConfig) 0 (pricedTrade "a" 50 (-2)) (-1)
             [(1, pricedTrade "b" 9 (-1), -1)] 2 (pricedTrade "a" 60 (-2)) (-1)).
    + reflexivity.
    + constructor; [discriminate|constructor].
    + vm_compute. reflexivity.
    + vm_compute. reflexivity.
  - refine (eq_trans
              (proj1 (proj1 C2_price_shock (NewDetector testConfig) 0 (pricedTrade "a" 100 0)
                        (-1) [] 1 (pricedTrade "a" 105 0) (-1) eq_refl _ _)) _).
    + constructor.
    + vm_compute. reflexivity.
    + vm_compute. reflexivity.
  - refine (eq_trans
              (proj1 (proj1 C2_price_shock (NewDetector testConfig) 0 (pricedTrade "a" 100 0)
                        (-1) [] 1 (pricedTrade "a" 104 0) (-1) eq_refl _ _)) _).
    + constructor.
    + vm_compute. reflexivity.
    + vm_compute. reflexivity.
  - refine (eq_trans
              (proj1 (proj1 C2_price_shock (NewDetector testConfig) 0 (pricedTrade "a" 100 0)
                        (-1) [] 1 (pricedTrade "a" 100 0) (-1) eq_refl _ _)) _).
    + constructor.
    + vm_compute. reflexivity.
    + vm_compute. reflexivity.
  - apply (proj2 C2_price_shock). constructor; [discriminate|constructor].
Defined.

(** On a reachable tracker [Record] keeps exactly the entries after the
    cutoff and appends the current time. *)
Lemma Record_reachable w t b now key :
  reachable w t b ->
  Record_ b now key =
    (Z.of_nat (length (List.filter (fun x => time_After x (time_Add now (neg64 (window b))))
                         (default [] (trades b !! key)) ++ [now])),
     mkBurstTracker
       (<[key := List.filter (fun x => time_After x (time_Add now (neg64 (window b))))
                   (default [] (trades b !! key)) ++ [now]]> (trades b))
       (window b)).
Proof.
  intros Hr.
  assert (StronglySorted Z.le (default [] (trades b !! key))) as Hs.
  { destruct (trades b !! key) as [old|] eqn:Hold; simpl; [|constructor].
    exact (proj1 (reachable_ordered _ _ _ Hr _ _ Hold)). }
  rewrite Record_unfold. cbv zeta.
  rewrite (drop_stalePrefix_sorted (time_Add now (neg64 (window b))) _ Hs). reflexivity.
Qed.

(** C3 as amended: for every key and every state a tracker can reach whose
    window w is a duration other than the least one, -2^63 ns, [Record]
    discards from the key's sequence all entries at or before now - w,
    appends the current time, stores the result and returns its length, the
    new entry included; if every stored timestamp of the key is at or
    before now - w it returns 1. *)
Theorem C3_Record_prunes_appends_counts w t b now key :
  - 2 ^ 63 < w < 2 ^ 63 ->
  reachable w t b ->
  let cutoff := now - w in
  let ts := default [] (trades b !! key) in
  let kept := List.filter (fun x => time_After x cutoff) ts in
  Record_ b now key =
    (Z.of_nat (length (kept ++ [now])),
     mkBurstTracker (<[key := kept ++ [now]]> (trades b)) w)
  /\ (Forall (fun x => x <= cutoff) ts -> fst (Record_ b now key) = 1).
Proof.
  intros Hw Hr cutoff ts kept.
  pose proof (Record_reachable w t b now key Hr) as E.
  rewrite (reachable_window _ _ _ Hr), (cutoff_int64 now w) in E by lia.
  destruct (Z.eqb_spec w (- 2 ^ 63)) as [Hmin|_]; [lia|].
  fold cutoff ts kept in E.
  split; [exact E|].
  intros Hold. rewrite E. simpl. unfold kept.
  rewrite (filter_none_after cutoff ts Hold). reflexivity.
Qed.

(** Window 60, two trades of one address at 0 and 10: a third at 100
    finds both at or before the cutoff and returns 1; a third at 65 finds
    the one at 10 after the cutoff and returns 2. *)
Lemma C3_Record_witness :
  let b := snd (Record_ (snd (Record_ (NewBurstTracker 60) 0 "0xBurst")) 10 "0xBurst") in
  fst (Record_ b 100 "0xBurst") = 1
  /\ Record_ b 65 "0xBurst" =
     (2, mkBurstTracker (<["0xBurst"%string := [10; 65]]> (trades b)) 60).
Proof.
  cbv zeta. split.
  - refine (proj2 (C3_Record_prunes_appends_counts 60 10 _ 100 "0xBurst" _ _) _).
    + lia.
    + apply reach_record with (t := 0); [|lia].
      apply reach_record with (t := 0); [|lia].
      apply reach_new.
    + vm_compute. repeat constructor; discriminate.
  - refine (eq_trans (proj1 (C3_Record_prunes_appends_counts 60 10 _ 65 "0xBurst" _ _)) _).
    + lia.
    + apply reach_record with (t := 0); [|lia].
      apply reach_record with (t := 0); [|lia].
      apply reach_new.
    + vm_compute. reflexivity.
Defined.

(** C3 as stated fails: 2^54 seconds overflow to the window -2^63 ns, which
    the configuration accepts.  One second after a first trade the address
    has a stored timestamp at or before now - window, yet [Record] keeps it
    and returns 2. *)
Lemma C3_least_window_counterexample :
  let w := config.BurstWindow (config.fromEnv leastWindowEnv) in
  let now := 1700000001 * 10 ^ 9 in
  let b := snd (Record_ (NewBurstTracker w) (1700000000 * 10 ^ 9) "a") in
  config.Validate (config.fromEnv leastWindowEnv) = None
  /\ w = - 2 ^ 63
  /\ trades b !! "a"%string = Some [1700000000 * 10 ^ 9]
  /\ (1700000000 * 10 ^ 9 <=? now - w) = true
  /\ fst (Record_ b now "a") = 2
  /\ trades (snd (Record_ b now "a")) !! "a"%string
     = Some [1700000000 * 10 ^ 9; 1700000001 * 10 ^ 9].
Proof. vm_compute. repeat split. Qed.

Lemma stale_last cutoff ts :
  stale cutoff ts = match last ts with Some t => t <=? cutoff | None => true end.
Proof.
  unfold stale, time_After. rewrite last_lookup.
  destruct ts as [|t0 ts]; [reflexivity|].
  simpl length. replace (S (length ts) - 1)%nat with (length ts) by lia.
  simpl Nat.eqb. simpl pred. simpl orb.
  destruct ((t0 :: ts) !! length ts) as [t|] eqn:E.
  - simpl. destruct (Z.ltb_spec cutoff t), (Z.leb_spec t cutoff); simpl; try reflexivity; lia.
  - apply lookup_ge_None in E. cbn in E. exfalso. exact (Nat.nle_succ_diag_l _ E).
Qed.

(** C9 as amended: for every state of a tracker whose window is a duration
    other than the least one, -2^63 ns, [Cleanup] deletes exactly the keys
    whose most recent stored timestamp is at or before now - window (and
    any key whose sequence is empty); every other key keeps its sequence
    unchanged; the window is unchanged. *)
Theorem C9_Cleanup_deletes_at_or_before_cutoff b now k :
  - 2 ^ 63 < window b < 2 ^ 63 ->
  let cutoff := now - window b in
  trades (Cleanup b now) !! k =
    match trades b !! k with
    | Some ts =>
        match last ts with
        | Some t => if t <=? cutoff then None else Some ts
        | None => None
        end
    | None => None
    end
  /\ window (Cleanup b now) = window b.
Proof.
  intros Hw cutoff. split; [|reflexivity].
  rewrite Cleanup_lookup, (cutoff_int64 now (window b)) by lia.
  destruct (Z.eqb_spec (window b) (- 2 ^ 63)) as [Hmin|_]; [lia|]. fold cutoff.
  destruct (trades b !! k) as [ts|]; [|reflexivity].
  rewrite stale_last. destruct (last ts) as [t|]; reflexivity.
Qed.

(** Window 10, addresses recorded at 10 and at 11, cleanup at 20: the
    first is deleted, the second kept. *)
Lemma C9_Cleanup_witness :
  let b := snd (Record_ (snd (Record_ (NewBurstTracker 10) 10 "a")) 11 "b") in
  trades (Cleanup b 20) !! "a"%string = None
  /\ trades (Cleanup b 20) !! "b"%string = Some [11].
Proof.
  cbv zeta. split.
  - refine (eq_trans
              (proj1 (C9_Cleanup_deletes_at_or_before_cutoff
                        (snd (Record_ (snd (Record_ (NewBurstTracker 10) 10 "a")) 11 "b"))
                        20 "a" _)) _).
    + vm_compute. split; reflexivity.
    + vm_compute. reflexivity.
  - refine (eq_trans
              (proj1 (C9_Cleanup_deletes_at_or_before_cutoff
                        (snd (Record_ (snd (Record_ (NewBurstTracker 10) 10 "a")) 11 "b"))
                        20 "b" _)) _).
    + vm_compute. split; reflexivity.
    + vm_compute. reflexivity.
Defined.

(** C9 as stated fails.  With window 10, the address recorded at time 10 is
    deleted by the cleanup at time 20, although its timestamp is not
    strictly before now - window = 10.  With the window -2^63 ns, which
    2^54 seconds overflow to and the configuration accepts, the address
    recorded one second before the cleanup is kept, although its timestamp
    is strictly before now - window. *)
Lemma C9_Cleanup_boundary_counterexample :
  let b := snd (Record_ (NewBurstTracker 10) 10 "a") in
  let w := config.BurstWindow (config.fromEnv leastWindowEnv) in
  let b' := snd (Record_ (NewBurstTracker w) (1700000000 * 10 ^ 9) "a") in
  (trades b !! "a"%string = Some [10]
   /\ (10 <? 20 - window b) = false
   /\ trades (Cleanup b 20) !! "a"%string = None)
  /\ (config.Validate (config.fromEnv leastWindowEnv) = None
      /\ w = - 2 ^ 63
      /\ (1700000000 * 10 ^ 9 <? 1700000001 * 10 ^ 9 - window b') = true
      /\ trades (Cleanup b' (1700000001 * 10 ^ 9)) !! "a"%string
         = Some [1700000000 * 10 ^ 9]).
Proof. vm_compute. repeat split. Qed.

(** ** float64 signs *)

Section FloatFacts.

Lemma geb_zero_cases (x : float64) :
  F64.geb x F64.zero = true <->
  match x with
  | S754_zero _ | S754_finite false _ _ | S754_infinity false => True
  | _ => False
  end.
Proof.
  destruct x as [s|[|]| |[|] m e]; simpl; split; intros H;
    try exact I; try reflexivity; try discriminate; try contradiction.
Qed.

Lemma eqb_zero_cases (x : float64) :
  F64.eqb x F64.zero = true <-> match x with S754_zero _ => True | _ => False end.
Proof.
  destruct x as [s|[|]| |[|] m e]; simpl; split; intros H;
    try exact I; try reflexivity; try discriminate; try contradiction.
Qed.

Lemma shr_1_nonneg mrs : 0 <= shr_m mrs -> 0 <= shr_m (shr_1 mrs).
Proof.
  destruct mrs as [m r s]. simpl.
  destruct m as [|[p|p|]|[p|p|]]; simpl; intros H; lia.
Qed.

Lemma iter_shr_1_nonneg p :
  forall mrs, 0 <= shr_m mrs -> 0 <= shr_m (@SpecFloat.iter_pos _ shr_1 p mrs).
Proof.
  induction p as [p IH|p IH|]; intros mrs H; simpl.
  - apply IH, IH, shr_1_nonneg, H.
  - apply IH, IH, H.
  - apply shr_1_nonneg, H.
Qed.

Lemma shr_fexp_nonneg m e l :
  0 <= m -> 0 <= shr_m (fst (shr_fexp F64.prec F64.emax m e l)).
Proof.
  intros H. unfold shr_fexp, shr.
  assert (shr_m (shr_record_of_loc m l) = m) as Hm by (destruct l as [|[| |]]; reflexivity).
  destruct (fexp F64.prec F64.emax (Zdigits2 m + e) - e) as [|p|p]; simpl;
    try (rewrite Hm; exact H).
  apply iter_shr_1_nonneg. rewrite Hm. exact H.
Qed.

Lemma round_nearest_even_nonneg m l : 0 <= m -> 0 <= round_nearest_even m l.
Proof.
  intros H. unfold round_nearest_even.
  destruct l as [|[| |]]; try destruct (Z.even m); lia.
Qed.

(** Rounding a non-negative mantissa with a positive sign gives a
    non-negative float. *)
Lemma binary_round_aux_nonneg m e l :
  0 <= m -> F64.geb (binary_round_aux F64.prec F64.emax false m e l) F64.zero = true.
Proof.
  intros H. unfold binary_round_aux.
  pose proof (shr_fexp_nonneg m e l H) as H1.
  destruct (shr_fexp F64.prec F64.emax m e l) as [mrs' e']. simpl in H1.
  pose proof (shr_fexp_nonneg _ e' loc_Exact
                (round_nearest_even_nonneg _ (loc_of_shr_record mrs') H1)) as H2.
  destruct (shr_fexp F64.prec F64.emax
              (round_nearest_even (shr_m mrs') (loc_of_shr_record mrs')) e' loc_Exact)
    as [mrs'' e'']. simpl in H2.
  destruct (shr_m mrs'') as [|p|p]; [reflexivity| |lia].
  destruct (e'' <=? F64.emax - F64.prec); reflexivity.
Qed.

Lemma div_eucl_nonneg a b : 0 <= a -> 0 < b -> 0 <= fst (Z.div_eucl a b).
Proof.
  intros Ha Hb. pose proof (Z_div_mod a b ltac:(lia)) as H.
  destruct (Z.div_eucl a b) as [q r]. simpl. nia.
Qed.

(** A non-negative float divided by a positive finite one is
    non-negative. *)
Lemma div_nonneg (x : float64) my ey :
  F64.geb x F64.zero = true ->
  F64.geb (F64.div x (S754_finite false my ey)) F64.zero = true.
Proof.
  intros Hx. apply geb_zero_cases in Hx. destruct x as [s|[|]| |[|] m e]; try contradiction.
  - reflexivity.
  - reflexivity.
  - unfold F64.div, SFdiv.
    destruct (SFdiv_core_binary F64.prec F64.emax (Z.pos m) e (Z.pos my) ey)
      as [[mz ez] lz] eqn:E.
    simpl xorb. apply binary_round_aux_nonneg.
    unfold SFdiv_core_binary in E. cbv zeta in E.
    match type of E with
    | (let '(q, r) := Z.div_eucl ?a ?b in _) = _ =>
        pose proof (div_eucl_nonneg a b) as Hq; destruct (Z.div_eucl a b) as [q r]
    end.
    injection E as <- _ _. simpl in Hq. apply Hq; [|lia].
    match goal with
    | |- 0 <= match ?sh with _ => _ end => destruct sh
    end; try lia. apply Z.shiftl_nonneg. lia.
Qed.

(** The product of two non-negative finite floats is non-negative. *)
Lemma mul_nonneg (x y : float64) :
  F64.geb x F64.zero = true -> F64.geb y F64.zero = true ->
  isFinite x = true -> isFinite y = true ->
  F64.geb (F64.mul x y) F64.zero = true.
Proof.
  intros Hx0 Hy0 Hx Hy. apply geb_zero_cases in Hx0, Hy0.
  destruct x as [sx|[|]| |[|] mx ex]; try contradiction;
    destruct y as [sy|[|]| |[|] my ey]; try contradiction;
    try discriminate; try reflexivity.
  unfold F64.mul, SFmul. simpl xorb. apply binary_round_aux_nonneg. lia.
Qed.

(** Zero times a finite float is a zero. *)
Lemma mul_zero_l (y : float64) :
  isFinite y = true -> F64.eqb (F64.mul F64.zero y) F64.zero = true.
Proof. destruct y as [sy|[|]| |[|] my ey]; intros H; try discriminate; reflexivity. Qed.

Lemma mul_zero_r (x : float64) :
  isFinite x = true -> F64.eqb (F64.mul x F64.zero) F64.zero = true.
Proof. destruct x as [sx|[|]| |[|] mx ex]; intros H; try discriminate; reflexivity. Qed.

Lemma million_finite : F64.of_Z 1000000 = S754_finite false 8589934592000000 (-33).
Proof. vm_compute. reflexivity. Qed.

End FloatFacts.

(** ** strconv results *)

Section ParseFacts.

(** A syntax error comes with the value 0, a range error with an
    infinity. *)
Lemma ParseFloat_error s :
  match strconv.ParseFloat s with
  | (v, Some strconv.ErrSyntax) => v = F64.zero
  | (v, Some strconv.ErrRange) => F64.is_inf v = true
  | (_, None) => True
  end.
Proof.
  unfold strconv.ParseFloat.
  destruct (strconv.special (list_ascii_of_string s)) as [[v [|c rest]]|]; try exact I;
    try reflexivity.
  destruct (strconv.readFloat (list_ascii_of_string s)) as [[l [|c rest]]|];
    try reflexivity.
  destruct (F64.is_inf (strconv.literal_value l)); [reflexivity|exact I].
Qed.

Lemma parseFloat_syntax s :
  s = ""%string \/ snd (strconv.ParseFloat s) = Some strconv.ErrSyntax ->
  parseFloat s = F64.zero.
Proof.
  intros [->|H]; [reflexivity|]. unfold parseFloat.
  destruct (String.eqb s ""); [reflexivity|].
  pose proof (ParseFloat_error s) as He.
  destruct (strconv.ParseFloat s) as [v e]. simpl in *. subst e. exact He.
Qed.

Lemma calculateValueUSD_unfold s price :
  calculateValueUSD s price =
  if F64.eqb (parseFloat s) F64.zero then F64.zero
  else if F64.gtb (parseFloat s) (F64.of_Z 1000000)
       then F64.div (parseFloat s) (F64.of_Z 1000000) else parseFloat s.
Proof. reflexivity. Qed.

Lemma calculateValueUSD_nonneg s price :
  F64.geb (parseFloat s) F64.zero = true ->
  F64.geb (calculateValueUSD s price) F64.zero = true.
Proof.
  intros H. rewrite calculateValueUSD_unfold.
  destruct (F64.eqb (parseFloat s) F64.zero); [reflexivity|].
  destruct (F64.gtb (parseFloat s) (F64.of_Z 1000000)); [|exact H].
  rewrite million_finite. apply div_nonneg. exact H.
Qed.

Lemma calculateValueUSD_negative s price :
  F64.ltb (parseFloat s) F64.zero = true ->
  calculateValueUSD s price = parseFloat s.
Proof.
  intros H. rewrite calculateValueUSD_unfold, million_finite.
  destruct (parseFloat s) as [sx|[|]| |[|] m e]; try discriminate; reflexivity.
Qed.

End ParseFacts.

(** C6 as amended: [calculateValueUSD] parses the size string as a float
    with [parseFloat], which yields 0 when the string is empty or not
    syntactically a number; a parsed value that compares equal to 0 gives 0;
    a parsed value that itself exceeds 10^6 (a signed comparison, not one
    of magnitudes) is divided by 10^6; any other value, in particular every
    negative one, is left as it is; the resulting size is returned as the
    USD value, whatever the price. *)
Theorem C6_calculateValueUSD_signed_rescale s price :
  calculateValueUSD s price =
    (if F64.eqb (parseFloat s) F64.zero then F64.zero
     else if F64.gtb (parseFloat s) (F64.of_Z 1000000)
          then F64.div (parseFloat s) (F64.of_Z 1000000) else parseFloat s)
  /\ (s = ""%string \/ snd (strconv.ParseFloat s) = Some strconv.ErrSyntax ->
      parseFloat s = F64.zero /\ calculateValueUSD s price = F64.zero)
  /\ (F64.ltb (parseFloat s) F64.zero = true -> calculateValueUSD s price = parseFloat s)
  /\ (forall price', calculateValueUSD s price' = calculateValueUSD s price).
Proof.
  split; [apply calculateValueUSD_unfold|]. split; [|split].
  - intros H. split; [exact (parseFloat_syntax s H)|].
    rewrite calculateValueUSD_unfold, (parseFloat_syntax s H). reflexivity.
  - apply calculateValueUSD_negative.
  - reflexivity.
Qed.

Lemma C6_calculateValueUSD_witness :
  calculateValueUSD "abc" (F64.of_decimal false 5 (-1)) = F64.zero
  /\ calculateValueUSD "-2000000" (F64.of_decimal false 5 (-1)) = parseFloat "-2000000".
Proof.
  split.
  - apply (proj1 (proj2 (C6_calculateValueUSD_signed_rescale "abc" _))).
    right. vm_compute. reflexivity.
  - apply (proj1 (proj2 (proj2 (C6_calculateValueUSD_signed_rescale "-2000000" _)))).
    vm_compute. reflexivity.
Defined.

(** C6 as stated fails on the size "-2000000": its magnitude exceeds 10^6,
    so the wording gives the rescaled -2, while the code, which compares
    the signed value, returns -2000000. *)
Lemma C6_magnitude_counterexample :
  parseFloat "-2000000" = F64.of_Z (-2000000)
  /\ F64.gtb (F64.abs (parseFloat "-2000000")) (F64.of_Z 1000000) = true
  /\ calculateValueUSD "-2000000" (F64.of_decimal false 5 (-1)) = F64.of_Z (-2000000)
  /\ computeValueUsd_worded "-2000000" (F64.of_decimal false 5 (-1)) = F64.of_Z (-2)
  /\ F64.eqb (F64.of_Z (-2000000)) (F64.of_Z (-2)) = false.
Proof. vm_compute. repeat split. Qed.

(** ** Ingestion *)

Section IngestFacts.

Variable time_Parse : string -> string -> option Time.
Variable clock : nat -> Time.
Variable Sscanf_float : string -> option float64.

Local Abbreviation parseBookEvents' := (parseBookEvents time_Parse clock).
Local Abbreviation convertTrades' := (convertTrades time_Parse clock).
Local Abbreviation parseLastTradePrice' := (parseLastTradePrice clock).
Local Abbreviation parseTrades' := (parseTrades time_Parse clock).
Local Abbreviation parseEnvelope' := (parseEnvelope time_Parse clock).
Local Abbreviation ParseMessage' := (ParseMessage time_Parse clock).
Local Abbreviation parseFloatSafe' := (parseFloatSafe Sscanf_float).
Local Abbreviation convertTrade' := (convertTrade Sscanf_float).
Local Abbreviation convertFetched' := (convertFetched Sscanf_float).

#[local] Arguments parseTimestamp : simpl never.
#[local] Arguments parseFloat : simpl never.
#[local] Arguments calculateValueUSD : simpl never.

(** One trade per record, in order, with the record's size string. *)
Lemma convertTrades_map tds :
  forall n,
    map (fun t => (Size t, Price t, ValueUSD t)) (fst (convertTrades' tds n)) =
    map (fun td => (TradeData.Size td, parseFloat (TradeData.Price td),
                    calculateValueUSD (TradeData.Size td) (parseFloat (TradeData.Price td))))
        tds.
Proof.
  induction tds as [|td tds IH]; intros n; simpl; [reflexivity|].
  destruct (parseTimestamp time_Parse clock
              [TradeData.Timestamp td; TradeData.MatchTime td] n) as [ts n1].
  specialize (IH n1). destruct (convertTrades' tds n1) as [trades n2].
  simpl in *. rewrite IH. reflexivity.
Qed.

Lemma convertTrades_length tds n : length (fst (convertTrades' tds n)) = length tds.
Proof.
  rewrite <- (length_map (fun t => (Size t, Price t, ValueUSD t))), convertTrades_map.
  apply length_map.
Qed.

Lemma convertTrades_valued tds : forall n, Forall valueFromSize (fst (convertTrades' tds n)).
Proof.
  induction tds as [|td tds IH]; intros n; simpl; [constructor|].
  destruct (parseTimestamp time_Parse clock
              [TradeData.Timestamp td; TradeData.MatchTime td] n) as [ts n1].
  specialize (IH n1). destruct (convertTrades' tds n1) as [trades n2].
  simpl in *. constructor; [reflexivity|exact IH].
Qed.



Lemma parseBookEvents_valued evs : forall n, Forall valueFromSize (fst (parseBookEvents' evs n)).
Proof.
  induction evs as [|e evs IH]; intros n; simpl; [constructor|].
  destruct (String.eqb (BookEvent.LastTradePrice e) ""
            || String.eqb (BookEvent.LastTradePrice e) "0"); [apply IH|].
  destruct (F64.eqb (parseFloat (BookEvent.LastTradePrice e)) F64.zero); [apply IH|].
  destruct (parseTimestamp time_Parse clock [BookEvent.Timestamp e] n) as [ts n1].
  specialize (IH n1). destruct (parseBookEvents' evs n1) as [trades n2].
  simpl in *. constructor; [reflexivity|exact IH].
Qed.

Lemma parseLastTradePrice_valued data n :
  Forall valueFromSize (fst (fst (parseLastTradePrice' data n))).
Proof.
  unfold parseLastTradePrice.
  destruct (LastTradePriceEvent.Unmarshal data) as [event|]; [|constructor].
  destruct (String.eqb (LastTradePriceEvent.AssetID event) ""); [constructor|].
  simpl. constructor; [reflexivity|constructor].
Qed.

Lemma parseTrades_valued data n : Forall valueFromSize (fst (parseTrades' data n)).
Proof.
  unfold parseTrades, parseTradeEvent, parseSingleTrade.
  destruct data as [v|]; [|constructor].
  repeat match goal with
         | |- context [match ?x with _ => _ end] =>
             lazymatch x with
             | convertTrades _ _ _ _ => fail
             | _ => destruct x
             end
         end;
    first [apply convertTrades_valued | constructor].
Qed.

(** What [parseEnvelope'] returns, case by case. *)
Lemma parseEnvelope_cases data n :
  match WSMessage.Unmarshal data with
  | None => parseEnvelope' data n = ([], ""%string, Some ErrUnmarshalMessage, n)
  | Some msg =>
      if String.eqb (WSMessage.Type_ msg) "last_trade_price" then
        match LastTradePriceEvent.Unmarshal data with
        | None => parseEnvelope' data n =
                  ([], WSMessage.Type_ msg, Some ErrParseLastTradePrice, n)
        | Some _ => resultError (parseEnvelope' data n) = None
                    /\ resultKind (parseEnvelope' data n) = WSMessage.Type_ msg
        end
      else if String.eqb (WSMessage.Type_ msg) "trade" then
        resultError (parseEnvelope' data n) = None
        /\ resultKind (parseEnvelope' data n) = WSMessage.Type_ msg
      else parseEnvelope' data n = ([], WSMessage.Type_ msg, None, n)
  end.
Proof.
  unfold parseEnvelope.
  destruct (WSMessage.Unmarshal data) as [msg|]; [|reflexivity].
  destruct (String.eqb (WSMessage.Type_ msg) "last_trade_price").
  - unfold parseLastTradePrice.
    destruct (LastTradePriceEvent.Unmarshal data) as [event|]; [|reflexivity].
    destruct (String.eqb (LastTradePriceEvent.AssetID event) ""); split; reflexivity.
  - destruct (String.eqb (WSMessage.Type_ msg) "trade"); [|reflexivity].
    destruct (parseTrades' (WSMessage.Data msg) n) as [trades n']. split; reflexivity.
Qed.

Lemma ParseMessage_book_array data first rest n :
  BookEvent.UnmarshalSlice data = Some (first :: rest) ->
  isBookType (BookEvent.EventType first) = true ->
  ParseMessage' data n =
  (fst (parseBookEvents' (first :: rest) n), "book_array"%string, None,
   snd (parseBookEvents' (first :: rest) n)).
Proof.
  intros Hd Hty. unfold ParseMessage. rewrite Hd, Hty.
  destruct (parseBookEvents' (first :: rest) n) as [trades n']. reflexivity.
Qed.

Lemma ParseMessage_single_book data n :
  matchesBookArray data = false -> matchesSingleBook data = true ->
  resultError (ParseMessage' data n) = None.
Proof.
  unfold matchesBookArray, matchesSingleBook, ParseMessage, parseSingleBook.
  intros Ha Hs.
  destruct (BookEvent.Unmarshal data) as [e|]; [|discriminate]. rewrite Hs.
  destruct (parseBookEvents' [e] n) as [trades n'].
  destruct (BookEvent.UnmarshalSlice data) as [[|first rest]|]; try reflexivity.
  rewrite Ha. reflexivity.
Qed.

Lemma ParseMessage_envelope data n :
  matchesBookArray data = false -> matchesSingleBook data = false ->
  ParseMessage' data n = parseEnvelope' data n.
Proof.
  unfold matchesBookArray, matchesSingleBook, ParseMessage, parseSingleBook.
  intros Ha Hs.
  assert (match BookEvent.Unmarshal data with
          | Some singleBook =>
              if negb (String.eqb (BookEvent.EventType singleBook) "")
              then let '(trades, n') := parseBookEvents' [singleBook] n in
                   (trades, BookEvent.EventType singleBook, None, n')
              else parseEnvelope' data n
          | None => parseEnvelope' data n
          end = parseEnvelope' data n) as E.
  { destruct (BookEvent.Unmarshal data) as [e|]; [|reflexivity]. rewrite Hs. reflexivity. }
  destruct (BookEvent.UnmarshalSlice data) as [[|first rest]|]; try exact E.
  rewrite Ha. exact E.
Qed.

End IngestFacts.

Section ParseMessageFacts.

Variable time_Parse : string -> string -> option Time.
Variable clock : nat -> Time.

#[local] Arguments parseTimestamp : simpl never.
#[local] Arguments parseFloat : simpl never.
#[local] Arguments calculateValueUSD : simpl never.

Lemma parseEnvelope_valued data n :
  Forall valueFromSize (resultTrades (parseEnvelope time_Parse clock data n)).
Proof.
  unfold parseEnvelope.
  destruct (WSMessage.Unmarshal data) as [msg|]; [|constructor].
  destruct (String.eqb (WSMessage.Type_ msg) "last_trade_price").
  - pose proof (parseLastTradePrice_valued clock data n) as H.
    destruct (parseLastTradePrice clock data n) as [[trades [err|]] n'];
      [constructor|exact H].
  - destruct (String.eqb (WSMessage.Type_ msg) "trade"); [|constructor].
    pose proof (parseTrades_valued time_Parse clock (WSMessage.Data msg) n) as H.
    destruct (parseTrades time_Parse clock (WSMessage.Data msg) n) as [trades n']. exact H.
Qed.

Lemma parseSingleBook_valued data n :
  Forall valueFromSize (resultTrades (parseSingleBook time_Parse clock data n)).
Proof.
  unfold parseSingleBook.
  destruct (BookEvent.Unmarshal data) as [e|]; [|apply parseEnvelope_valued].
  destruct (negb (String.eqb (BookEvent.EventType e) "")); [|apply parseEnvelope_valued].
  pose proof (parseBookEvents_valued time_Parse clock [e] n) as H.
  destruct (parseBookEvents time_Parse clock [e] n) as [trades n']. exact H.
Qed.

(** Every trade [ParseMessage] returns has the value of its size string. *)
Lemma ParseMessage_valued data n :
  Forall valueFromSize (resultTrades (ParseMessage time_Parse clock data n)).
Proof.
  unfold ParseMessage.
  destruct (BookEvent.UnmarshalSlice data) as [[|first rest]|];
    try apply parseSingleBook_valued.
  destruct (isBookType (BookEvent.EventType first)); [|apply parseSingleBook_valued].
  pose proof (parseBookEvents_valued time_Parse clock (first :: rest) n) as H.
  destruct (parseBookEvents time_Parse clock (first :: rest) n) as [trades n']. exact H.
Qed.

End ParseMessageFacts.

Lemma convertFetched_map Sscanf_float l :
  map (fun t => (Size t, Price t, ValueUSD t)) (convertFetched Sscanf_float l) =
  map (fun a => (TradeAPIResponse.Size a,
                 parseFloatSafe Sscanf_float (TradeAPIResponse.Price a),
                 F64.mul (parseFloatSafe Sscanf_float (TradeAPIResponse.Price a))
                         (parseFloatSafe Sscanf_float (TradeAPIResponse.Size a)))) l.
Proof. induction l as [|a l IH]; simpl; [reflexivity|]. rewrite IH. reflexivity. Qed.

Lemma parseFloatSafe_unparsed Sscanf_float s :
  s = ""%string \/ Sscanf_float s = None -> parseFloatSafe Sscanf_float s = F64.zero.
Proof.
  unfold parseFloatSafe. intros [->|H]; [reflexivity|].
  rewrite H. destruct (String.eqb s ""); reflexivity.
Qed.

(** C1 as amended.  Websocket parser: every trade it returns has
    valueUsd = calculateValueUSD(size), which does not depend on the price;
    that value is 0 when the size string is empty or not syntactically a
    number, and it is >= 0 whenever the parsed size is >= 0; conversion
    yields one trade per raw record, in order, whatever the strings.  REST
    conversion: one trade per record, valueUsd = price * size with an
    unparseable string read as 0, so valueUsd is 0 when either string
    cannot be parsed and the other value is finite, and it is >= 0 when
    both values are finite and >= 0. *)
Theorem C1_ingested_value time_Parse clock Sscanf_float :
  (forall data n,
     Forall valueFromSize (resultTrades (ParseMessage time_Parse clock data n)))
  /\ (forall tds n,
        map (fun t => (Size t, Price t, ValueUSD t))
            (fst (convertTrades time_Parse clock tds n)) =
        map (fun td => (TradeData.Size td, parseFloat (TradeData.Price td),
                        calculateValueUSD (TradeData.Size td)
                          (parseFloat (TradeData.Price td)))) tds)
  /\ (forall s price price', calculateValueUSD s price = calculateValueUSD s price')
  /\ (forall s price,
        s = ""%string \/ snd (strconv.ParseFloat s) = Some strconv.ErrSyntax ->
        calculateValueUSD s price = F64.zero)
  /\ (forall s price,
        F64.geb (parseFloat s) F64.zero = true ->
        F64.geb (calculateValueUSD s price) F64.zero = true)
  /\ (forall l,
        map (fun t => (Size t, Price t, ValueUSD t)) (convertFetched Sscanf_float l) =
        map (fun a => (TradeAPIResponse.Size a,
                       parseFloatSafe Sscanf_float (TradeAPIResponse.Price a),
                       F64.mul (parseFloatSafe Sscanf_float (TradeAPIResponse.Price a))
                               (parseFloatSafe Sscanf_float (TradeAPIResponse.Size a)))) l)
  /\ (forall a,
        (TradeAPIResponse.Price a = ""%string
         \/ Sscanf_float (TradeAPIResponse.Price a) = None) ->
        isFinite (parseFloatSafe Sscanf_float (TradeAPIResponse.Size a)) = true ->
        F64.eqb (ValueUSD (convertTrade Sscanf_float a)) F64.zero = true)
  /\ (forall a,
        (TradeAPIResponse.Size a = ""%string
         \/ Sscanf_float (TradeAPIResponse.Size a) = None) ->
        isFinite (parseFloatSafe Sscanf_float (TradeAPIResponse.Price a)) = true ->
        F64.eqb (ValueUSD (convertTrade Sscanf_float a)) F64.zero = true)
  /\ (forall a,
        F64.geb (parseFloatSafe Sscanf_float (TradeAPIResponse.Price a)) F64.zero = true ->
        F64.geb (parseFloatSafe Sscanf_float (TradeAPIResponse.Size a)) F64.zero = true ->
        isFinite (parseFloatSafe Sscanf_float (TradeAPIResponse.Price a)) = true ->
        isFinite (parseFloatSafe Sscanf_float (TradeAPIResponse.Size a)) = true ->
        F64.geb (ValueUSD (convertTrade Sscanf_float a)) F64.zero = true).
Proof.
  repeat apply conj.
  - apply ParseMessage_valued.
  - intros tds n. apply convertTrades_map.
  - reflexivity.
  - intros s price H. rewrite calculateValueUSD_unfold, (parseFloat_syntax s H). reflexivity.
  - apply calculateValueUSD_nonneg.
  - apply convertFetched_map.
  - intros a Hp Hfin. simpl. rewrite (parseFloatSafe_unparsed _ _ Hp).
    apply mul_zero_l. exact Hfin.
  - intros a Hs Hfin. simpl. rewrite (parseFloatSafe_unparsed _ _ Hs).
    apply mul_zero_r. exact Hfin.
  - intros a Hp Hs Hfp Hfs. simpl. apply mul_nonneg; assumption.
Qed.

Lemma C1_ingested_value_witness :
  calculateValueUSD "abc" F64.zero = F64.zero
  /\ F64.geb (calculateValueUSD "250.5" F64.zero) F64.zero = true
  /\ F64.eqb (ValueUSD (convertTrade scanNothing
                          (TradeAPIResponse.mk "1" "m" "a" "" "" "BUY" "" "x" "YES" 0 "" "")))
       F64.zero = true.
Proof.
  pose proof (C1_ingested_value noLayout clockZero scanNothing)
    as (_ & _ & _ & Hsyntax & Hnonneg & _ & Hprice & _ & _).
  split; [|split].
  - apply Hsyntax. right. vm_compute. reflexivity.
  - apply Hnonneg. vm_compute. reflexivity.
  - apply Hprice; [right; reflexivity|reflexivity].
Defined.

(** C1 as stated fails in the websocket conversion: the record with size
    "-5" becomes a trade with valueUsd = -5 < 0, and the record with size
    "100" and the unparseable price "abc" becomes a trade with
    valueUsd = 100, not 0. *)
Lemma C1_value_counterexample :
  (forall time_Parse clock n,
     map ValueUSD
         (fst (convertTrades time_Parse clock
                 [rawTrade "-5" "0.5"; rawTrade "100" "abc"] n)) =
     [F64.of_Z (-5); F64.of_Z 100])
  /\ F64.geb (F64.of_Z (-5)) F64.zero = false
  /\ snd (strconv.ParseFloat "abc") = Some strconv.ErrSyntax
  /\ F64.eqb (F64.of_Z 100) F64.zero = false.
Proof.
  split; [intros time_Parse clock n; vm_compute; reflexivity|].
  vm_compute. repeat split.
Qed.

(** Closes the propositional cases of the statement on [ParseMessage]. *)
Ltac c7_finish :=
  simpl resultError; simpl resultTrades; simpl resultKind;
  repeat match goal with
         | |- _ /\ _ => split
         | |- _ <-> _ => split
         | |- forall _, _ => intro
         | H : _ /\ _ |- _ => destruct H
         | H : _ \/ _ |- _ => destruct H
         | H : exists _, _ |- _ => destruct H
         | H : Some _ = Some _ |- _ => injection H as H; subst
         end;
  try congruence; try discriminate; try reflexivity; try contradiction;
  try (left; reflexivity);
  try (right; eexists; repeat split; eassumption).

(** C7 as amended: [ParseMessage] returns an error only when the payload
    matches neither book shape and either is not valid as a generic
    envelope or is an envelope of type last_trade_price that is not valid
    as a last_trade_price event; with an error it returns no trades.  A valid
    envelope that matches neither book shape and whose type is neither
    last_trade_price nor trade yields no trades, the bare type string and
    no error; an envelope of type trade never yields an error. *)
Theorem C7_parse_errors time_Parse clock data n :
  let r := ParseMessage time_Parse clock data n in
  (resultError r <> None <->
   matchesBookArray data = false /\ matchesSingleBook data = false
   /\ (WSMessage.Unmarshal data = None
       \/ exists msg, WSMessage.Unmarshal data = Some msg
                      /\ WSMessage.Type_ msg = "last_trade_price"%string
                      /\ LastTradePriceEvent.Unmarshal data = None))
  /\ (resultError r <> None -> resultTrades r = [])
  /\ (forall msg,
        matchesBookArray data = false -> matchesSingleBook data = false ->
        WSMessage.Unmarshal data = Some msg ->
        WSMessage.Type_ msg <> "last_trade_price"%string ->
        WSMessage.Type_ msg <> "trade"%string ->
        r = ([], WSMessage.Type_ msg, None, n))
  /\ (forall msg,
        matchesBookArray data = false -> matchesSingleBook data = false ->
        WSMessage.Unmarshal data = Some msg ->
        WSMessage.Type_ msg = "trade"%string ->
        resultError r = None /\ resultKind r = "trade"%string).
Proof.
  intros r. subst r.
  destruct (matchesBookArray data) eqn:Ha.
  { assert (resultError (ParseMessage time_Parse clock data n) = None) as E.
    { unfold matchesBookArray in Ha.
      destruct (BookEvent.UnmarshalSlice data) as [[|first rest]|] eqn:Hd; try discriminate.
      rewrite (ParseMessage_book_array _ _ _ _ _ _ Hd Ha). reflexivity. }
    rewrite E. c7_finish. }
  destruct (matchesSingleBook data) eqn:Hs.
  { rewrite (ParseMessage_single_book _ _ _ _ Ha Hs). c7_finish. }
  rewrite (ParseMessage_envelope _ _ _ _ Ha Hs).
  pose proof (parseEnvelope_cases time_Parse clock data n) as H.
  destruct (WSMessage.Unmarshal data) as [msg|] eqn:Hm.
  - destruct (String.eqb_spec (WSMessage.Type_ msg) "last_trade_price") as [Hl|Hl].
    + destruct (LastTradePriceEvent.Unmarshal data) as [ev|] eqn:Hev.
      * destruct H as [He Hk]. rewrite He, Hk. c7_finish.
      * rewrite H. c7_finish.
    + destruct (String.eqb_spec (WSMessage.Type_ msg) "trade") as [Ht|Ht].
      * destruct H as [He Hk]. rewrite He, Hk. c7_finish.
      * rewrite H. c7_finish.
  - rewrite H. c7_finish.
Qed.

Lemma C7_parse_errors_witness :
  ParseMessage noLayout clockZero subscribedMessage 0 = ([], "subscribed"%string, None, 0%nat).
Proof.
  apply (proj1 (proj2 (proj2 (C7_parse_errors noLayout clockZero subscribedMessage 0)))
           (WSMessage.mk "subscribed" "" None));
    first [reflexivity | discriminate].
Defined.

(** C7 as stated fails: the payload
    {"type":"last_trade_price","asset_id":"tok","price":0.5} is valid as a
    generic envelope, yet [ParseMessage] returns an error, because the
    numeric price does not decode into the event's string field. *)
Lemma C7_envelope_error_counterexample :
  WSMessage.Unmarshal ltpNumericPrice = Some (WSMessage.mk "last_trade_price" "" None)
  /\ (forall time_Parse clock n,
        ParseMessage time_Parse clock ltpNumericPrice n =
        ([], "last_trade_price"%string, Some ErrParseLastTradePrice, n)).
Proof. split; [|intros time_Parse clock n]; vm_compute; reflexivity. Qed.




(** ** Further properties of the detector *)

(** [ShouldEnrich] holds exactly for a trade with
    valueUsd >= minValueThreshold and a non-empty maker address. *)
Theorem ShouldEnrich_iff d trade :
  ShouldEnrich d trade = true <->
  F64.geb (ValueUSD trade) (MinValueUSD (cfg d)) = true /\ MakerAddress trade <> ""%string.
Proof.
  unfold ShouldEnrich. rewrite andb_true_iff, negb_true_iff.
  destruct (String.eqb_spec (MakerAddress trade) ""); split; intros [H1 H2];
    split; congruence.
Qed.

(** X2, panic burst: on a detector whose tracker, of window w (an int64
    count of nanoseconds), is in a reachable state, [Detect] emits a
    PANIC_BURST suspect exactly when the maker address is non-empty and the
    trades recorded for it after the cutoff, plus the current one, number
    at least burstCountThreshold.  The cutoff is now - w, except for the
    window -2^63 ns, which is its own negation: there it is now - 2^63. *)
Theorem panic_burst_count w t d now trade nonce :
  - 2 ^ 63 <= w < 2 ^ 63 ->
  reachable w t (burstTracker d) ->
  let cutoff := if w =? - 2 ^ 63 then now - 2 ^ 63 else now - w in
  let recent := List.filter (fun x => time_After x cutoff)
                  (default [] (trades (burstTracker d) !! MakerAddress trade)) in
  List.filter (hasSignal SignalPanicBurst) (fst (Detect d now trade nonce)) =
  if negb (String.eqb (MakerAddress trade) "")
     && (BurstCount (cfg d) <=? Z.of_nat (length recent + 1))
  then [mkSuspect trade SignalPanicBurst nonce None] else [].
Proof.
  intros Hw Hr cutoff recent.
  rewrite Detect_filter, checkPanicBurst_suspects, checkPriceShock_unfold.
  rewrite (Record_reachable w t (burstTracker d) now (MakerAddress trade) Hr).
  rewrite (reachable_window _ _ _ Hr), (cutoff_int64 now w Hw).
  simpl fst. rewrite length_app. simpl length. fold cutoff recent.
  unfold checkWhale, checkFreshInsider.
  repeat match goal with
         | |- context [match ?x with Some _ => _ | None => _ end] => destruct x eqn:?
         | |- context [if ?c then _ else _] => destruct c eqn:?
         end; reflexivity.
Qed.

(** After trades at 0s and 4s, window 60s and threshold 3: a third trade
    at 9s raises the signal, a third trade at 64s does not. *)
Lemma panic_burst_count_witness :
  List.filter (hasSignal SignalPanicBurst)
    (fst (Detect twoBurstsSeen (9 * 10 ^ 9) burstTrade (-1))) =
  [mkSuspect burstTrade SignalPanicBurst (-1) None]
  /\ List.filter (hasSignal SignalPanicBurst)
       (fst (Detect twoBurstsSeen (64 * 10 ^ 9) burstTrade (-1))) = [].
Proof.
  split.
  - refine (panic_burst_count (60 * 10 ^ 9) (4 * 10 ^ 9) twoBurstsSeen (9 * 10 ^ 9)
              burstTrade (-1) _ _); [lia|].
    apply reach_record with (t := 0); [|lia].
    apply reach_record with (t := 0); [|lia].
    apply reach_new.
  - refine (panic_burst_count (60 * 10 ^ 9) (4 * 10 ^ 9) twoBurstsSeen (64 * 10 ^ 9)
              burstTrade (-1) _ _); [lia|].
    apply reach_record with (t := 0); [|lia].
    apply reach_record with (t := 0); [|lia].
    apply reach_new.
Defined.

(** The scenario of detector_test.go: three trades of value 100 from one
    address at 0s, 4s and 9s, thresholds 2000 / 50000 / 5 / 3 / 60s: no
    suspect after the first and the second, one PANIC_BURST after the
    third. *)
Example three_trades_burst :
  let sec := 10 ^ 9 in
  let d0 := NewDetector testConfig in
  let r1 := Detect d0 0 burstTrade (-1) in
  let r2 := Detect (snd r1) (4 * sec) burstTrade (-1) in
  let r3 := Detect (snd r2) (9 * sec) burstTrade (-1) in
  fst r1 = [] /\ fst r2 = []
  /\ fst r3 = [mkSuspect burstTrade SignalPanicBurst (-1) None].
Proof. vm_compute. repeat split. Qed.

(** The whale scenario: one trade of value 55000 on a fresh detector gives
    exactly one suspect, a WHALE. *)
Example single_whale :
  fst (Detect (NewDetector testConfig) 0 whaleTrade (-1)) =
  [mkSuspect whaleTrade SignalWhale (-1) None].
Proof. vm_compute. reflexivity. Qed.

(** [strconv.ParseFloat] on the strings used above. *)
Example ParseFloat_samples :
  strconv.ParseFloat "0.058" = (S754_finite false 8358680908399641 (-57), None)
  /\ strconv.ParseFloat "-5" = (F64.of_Z (-5), None)
  /\ strconv.ParseFloat "abc" = (F64.zero, Some strconv.ErrSyntax)
  /\ strconv.ParseFloat "1e999" = (F64.inf false, Some strconv.ErrRange)
  /\ strconv.ParseFloat "NaN" = (F64.nan, None)
  /\ strconv.ParseFloat "0x1p-2" = (F64.of_decimal false 25 (-2), None)
  /\ strconv.ParseFloat "1_000" = (F64.of_Z 1000, None).
Proof. vm_compute. repeat split. Qed.

(* ===================================================================== *)
(** * Further properties                                                  *)
(* ===================================================================== *)

(** ** Histories of the burst tracker and of the detector *)

Section HistoryFacts.

Lemma runOps_snoc b ops o : runOps b (ops ++ [o]) = applyOp (runOps b ops) o.
Proof. unfold runOps. rewrite fold_left_app. reflexivity. Qed.

Lemma recordedAt_app k ops1 ops2 :
  recordedAt k (ops1 ++ ops2) = recordedAt k ops1 ++ recordedAt k ops2.
Proof.
  induction ops1 as [|[t a|t] ops1 IH]; simpl; [reflexivity| |exact IH].
  destruct (String.eqb a k); simpl; congruence.
Qed.

Lemma StronglySorted_app_inv_l (l1 l2 : list Z) :
  StronglySorted Z.le (l1 ++ l2) -> StronglySorted Z.le l1.
Proof.
  induction l1 as [|x l1 IH]; simpl; intros H; [constructor|].
  inversion H as [|? ? Hs Hf]; subst. constructor; [auto|].
  apply Forall_app in Hf. tauto.
Qed.

Lemma StronglySorted_snoc_le (l : list Z) (x : Z) :
  StronglySorted Z.le (l ++ [x]) -> Forall (fun t => t <= x) l.
Proof.
  induction l as [|y l IH]; simpl; intros H; [constructor|].
  inversion H as [|? ? Hs Hf]; subst. constructor; [|auto].
  apply Forall_app in Hf. destruct Hf as [_ Hf]. inversion Hf; assumption.
Qed.

(** The tracker reached by a history whose readings do not go back is a
    reachable one, at a time no later than any bound of the readings. *)
Lemma runOps_reachable w ops :
  StronglySorted Z.le (map opTime ops) ->
  exists t, reachable w t (runOps (NewBurstTracker w) ops)
            /\ forall u, Forall (fun x => x <= u) (map opTime ops) ->
                         ops <> [] -> t <= u.
Proof.
  induction ops as [|o ops IH] using rev_ind; intros Hs.
  - exists 0. split; [apply reach_new|]. intros u _ Hne. congruence.
  - rewrite map_app in Hs. simpl in Hs.
    pose proof (StronglySorted_snoc_le _ _ Hs) as Hle.
    destruct (IH (StronglySorted_app_inv_l _ _ Hs)) as (t & Hr & Hb).
    exists (opTime o). rewrite runOps_snoc. split.
    + destruct ops as [|o0 ops0].
      * destruct o as [now a|now]; unfold runOps, applyOp, opTime; cbn [fold_left];
          [apply reach_record with (t := now)|apply reach_cleanup with (t := now)];
          try apply reach_new; lia.
      * assert (t <= opTime o) by (apply Hb; [exact Hle|discriminate]).
        destruct o as [now a|now]; unfold applyOp, opTime in *;
          [apply reach_record with (t := t)|apply reach_cleanup with (t := t)];
          assumption.
    + intros u Hu _. rewrite map_app in Hu. apply Forall_app in Hu.
      destruct Hu as [_ Hu]. inversion Hu; assumption.
Qed.

Lemma filter_filter_after (c c' : Time) (ts : list Time) :
  c' <= c ->
  List.filter (fun t => time_After t c) (List.filter (fun t => time_After t c') ts) =
  List.filter (fun t => time_After t c) ts.
Proof.
  intros Hc. induction ts as [|t ts IH]; simpl; [reflexivity|].
  unfold time_After in *.
  destruct (c' <? t) eqn:E1; simpl; destruct (c <? t) eqn:E2; try congruence.
  apply Z.ltb_lt in E2. apply Z.ltb_ge in E1. lia.
Qed.

Lemma ordered_last_filter now c (ts : list Time) (x : Time) :
  ordered now ts -> last ts = Some x -> x <= c ->
  List.filter (fun t => time_After t c) ts = [].
Proof.
  intros [Hs _] Hl Hx. apply filter_none_after.
  induction ts as [|y ts IH]; [constructor|].
  inversion Hs as [|? ? Hs' Hf]; subst.
  destruct ts as [|z ts].
  - simpl in Hl. inversion Hl; subst. constructor; [assumption|constructor].
  - assert (Hl' : last (z :: ts) = Some x) by exact Hl.
    specialize (IH Hs' Hl'). constructor; [|exact IH].
    inversion IH; subst. inversion Hf; subst. lia.
Qed.

(** Above the cutoff of the latest call, the timestamps stored for an
    address are the readings of the [Record] calls made for it. *)
Lemma runOps_history w ops :
  StronglySorted Z.le (map opTime ops) ->
  forall k c,
    Forall (fun t => time_Add t (neg64 w) <= c) (map opTime ops) ->
    List.filter (fun t => time_After t c)
      (default [] (trades (runOps (NewBurstTracker w) ops) !! k)) =
    List.filter (fun t => time_After t c) (recordedAt k ops).
Proof.
  induction ops as [|o ops IH] using rev_ind; intros Hs k c Hc.
  - reflexivity.
  - rewrite map_app in Hs, Hc. simpl in Hs.
    apply Forall_app in Hc. destruct Hc as [Hc Ho]. inversion Ho as [|? ? Ho' _]; subst.
    pose proof (StronglySorted_app_inv_l _ _ Hs) as Hs'.
    destruct (runOps_reachable w ops Hs') as (t & Hr & _).
    specialize (IH Hs' k c Hc).
    rewrite runOps_snoc, recordedAt_app, List.filter_app.
    destruct o as [now a|now]; unfold applyOp, opTime in *; cbn [recordedAt].
    + rewrite (Record_reachable w t _ now a Hr). cbn [snd trades].
      rewrite (reachable_window _ _ _ Hr).
      destruct (String.eqb_spec a k) as [->|Hne].
      * rewrite lookup_insert_eq. simpl.
        rewrite List.filter_app, (filter_filter_after _ _ _ Ho'), IH. reflexivity.
      * rewrite lookup_insert_ne by congruence. simpl. rewrite app_nil_r. exact IH.
    + rewrite app_nil_r, Cleanup_lookup, <- IH.
      destruct (trades (runOps (NewBurstTracker w) ops) !! k) as [ts|] eqn:E;
        [|reflexivity].
      rewrite stale_last. simpl.
      destruct (last ts) as [x|] eqn:El.
      * destruct (x <=? _) eqn:Ex; [|reflexivity]. simpl.
        apply Z.leb_le in Ex. rewrite (reachable_window _ _ _ Hr) in Ex.
        symmetry. eapply ordered_last_filter; [|exact El|lia].
        eapply reachable_ordered; eauto.
      * apply last_None in El. subst ts. reflexivity.
Qed.

End HistoryFacts.

(** X3, burst tracker: on a tracker of window w (an int64 count of
    nanoseconds) driven from [NewBurstTracker] by [Record] and [Cleanup]
    calls whose clock readings do not go back, [Record] returns one more
    than the number of earlier [Record] calls for the same address made
    after the cutoff; [Cleanup] calls in between never change that count.
    The cutoff is now - w, except for the window -2^63 ns, which is its own
    negation: there it is now - 2^63. *)
Theorem Record_counts_calls_in_window w ops now k :
  - 2 ^ 63 <= w < 2 ^ 63 ->
  StronglySorted Z.le (map opTime ops ++ [now]) ->
  let cutoff := if w =? - 2 ^ 63 then now - 2 ^ 63 else now - w in
  fst (Record_ (runOps (NewBurstTracker w) ops) now k) =
  Z.of_nat (length (List.filter (fun t => time_After t cutoff) (recordedAt k ops))) + 1.
Proof.
  intros Hw Hs cutoff.
  pose proof (StronglySorted_app_inv_l _ _ Hs) as Hs'.
  pose proof (StronglySorted_snoc_le _ _ Hs) as Hle.
  destruct (runOps_reachable w ops Hs') as (t & Hr & _).
  rewrite (Record_reachable w t _ now k Hr). simpl fst.
  rewrite (reachable_window _ _ _ Hr), length_app. simpl length.
  rewrite (runOps_history w ops Hs' k (time_Add now (neg64 w))).
  - rewrite (cutoff_int64 now w Hw). fold cutoff. lia.
  - eapply Forall_impl; [exact Hle|]. unfold time_Add. simpl. intros; lia.
Qed.

(** Window 60: of the calls for "a" at 0 and 50, the one at 50 is inside
    the window at 100.  Least window: both are. *)
Lemma Record_counts_calls_in_window_witness :
  fst (Record_ (runOps (NewBurstTracker 60)
                  [OpRecord 0 "a"; OpRecord 10 "b"; OpRecord 50 "a"; OpCleanup 70])
         100 "a") = 2
  /\ fst (Record_ (runOps (NewBurstTracker (- 2 ^ 63))
                     [OpRecord 0 "a"; OpRecord 10 "b"; OpRecord 50 "a"; OpCleanup 70])
            100 "a") = 3.
Proof.
  split.
  - refine (Record_counts_calls_in_window 60
              [OpRecord 0 "a"; OpRecord 10 "b"; OpRecord 50 "a"; OpCleanup 70] 100 "a" _ _);
      [lia|].
    simpl. repeat first [apply SSorted_nil | apply SSorted_cons
                        | apply List.Forall_nil | apply List.Forall_cons; [lia|]].
  - refine (Record_counts_calls_in_window (- 2 ^ 63)
              [OpRecord 0 "a"; OpRecord 10 "b"; OpRecord 50 "a"; OpCleanup 70] 100 "a" _ _);
      [lia|].
    simpl. repeat first [apply SSorted_nil | apply SSorted_cons
                        | apply List.Forall_nil | apply List.Forall_cons; [lia|]].
Defined.

Section DetectHistoryFacts.

Lemma Detect_burstTracker d now trade nonce :
  burstTracker (snd (Detect d now trade nonce)) =
  if negb (String.eqb (MakerAddress trade) "")
  then snd (Record_ (burstTracker d) now (MakerAddress trade))
  else burstTracker d.
Proof.
  unfold Detect, checkPanicBurst.
  destruct (negb (String.eqb (MakerAddress trade) "")); [|reflexivity].
  destruct (Record_ (burstTracker d) now (MakerAddress trade)). reflexivity.
Qed.

Lemma DetectAll_burstTracker calls :
  forall d, burstTracker (DetectAll d calls) = runOps (burstTracker d) (callOps calls).
Proof.
  induction calls as [|[[now trade] nonce] calls IH]; intros d; [reflexivity|].
  cbn [DetectAll]. rewrite IH, Detect_burstTracker.
  unfold callOps. cbn [omap list_omap callTrade callTime fst snd].
  destruct (negb (String.eqb (MakerAddress trade) "")); reflexivity.
Qed.

Lemma DetectAll_cfg calls : forall d, cfg (DetectAll d calls) = cfg d.
Proof.
  induction calls as [|[[now trade] nonce] calls IH]; intros d; [reflexivity|].
  cbn [DetectAll]. rewrite IH. apply Detect_cfg.
Qed.

Lemma callOps_Forall (P : Time -> Prop) calls (l : list Time) :
  Forall P (map callTime calls ++ l) -> Forall P (map opTime (callOps calls) ++ l).
Proof.
  induction calls as [|c calls IH]; intros H; [exact H|].
  simpl in H. inversion H as [|? ? Hc Hrest]; subst.
  unfold callOps. cbn [omap list_omap].
  destruct (negb (String.eqb (MakerAddress (callTrade c)) "")); cbn [map opTime app].
  - constructor; [exact Hc|]. apply IH, Hrest.
  - apply IH, Hrest.
Qed.

Lemma callOps_sorted calls (l : list Time) :
  StronglySorted Z.le (map callTime calls ++ l) ->
  StronglySorted Z.le (map opTime (callOps calls) ++ l).
Proof.
  induction calls as [|c calls IH]; intros H; [exact H|].
  simpl in H. inversion H as [|? ? Hs Hf]; subst.
  unfold callOps. cbn [omap list_omap].
  destruct (negb (String.eqb (MakerAddress (callTrade c)) "")); cbn [map opTime app].
  - constructor; [apply IH, Hs|]. apply callOps_Forall, Hf.
  - apply IH, Hs.
Qed.

Lemma recordedAt_callOps k cutoff calls :
  k <> ""%string ->
  length (List.filter (fun t => time_After t cutoff) (recordedAt k (callOps calls))) =
  length (recentCalls k cutoff calls).
Proof.
  intros Hk. induction calls as [|c calls IH]; [reflexivity|].
  unfold callOps, recentCalls in *. cbn [omap list_omap List.filter].
  destruct (String.eqb_spec (MakerAddress (callTrade c)) "") as [E|E]; cbn [negb].
  - rewrite E. destruct (String.eqb_spec "" k) as [E'|_]; [congruence|]. exact IH.
  - cbn [recordedAt]. destruct (String.eqb (MakerAddress (callTrade c)) k); cbn [andb].
    + cbn [List.filter]. destruct (time_After (callTime c) cutoff); simpl; congruence.
    + exact IH.
Qed.

Lemma panicBurst_filter d now trade nonce :
  List.filter (hasSignal SignalPanicBurst) (fst (Detect d now trade nonce)) =
  if negb (String.eqb (MakerAddress trade) "")
     && (BurstCount (cfg d) <=? fst (Record_ (burstTracker d) now (MakerAddress trade)))
  then [mkSuspect trade SignalPanicBurst nonce None] else [].
Proof.
  rewrite Detect_filter, checkPanicBurst_suspects, checkPriceShock_unfold.
  unfold checkWhale, checkFreshInsider.
  repeat match goal with
         | |- context [match ?x with Some _ => _ | None => _ end] => destruct x eqn:?
         | |- context [if ?c then _ else _] => destruct c eqn:?
         end; reflexivity.
Qed.

Lemma freshInsider_filter d now trade nonce :
  List.filter (hasSignal SignalFreshInsider) (fst (Detect d now trade nonce)) =
  checkFreshInsider (cfg d) trade nonce.
Proof.
  rewrite Detect_filter, checkPanicBurst_suspects, checkPriceShock_unfold.
  unfold checkWhale, checkFreshInsider.
  repeat match goal with
         | |- context [match ?x with Some _ => _ | None => _ end] => destruct x eqn:?
         | |- context [if ?c then _ else _] => destruct c eqn:?
         end; reflexivity.
Qed.

End DetectHistoryFacts.

(** X4, panic burst over a run: on a detector driven from [NewDetector]
    by [Detect] calls whose clock readings do not go back, a trade with a
    non-empty maker address raises PANIC_BURST exactly when the earlier
    calls for the same maker address made after the cutoff, plus this one,
    number at least burstCountThreshold.  The cutoff is now - burstWindow,
    except for the window -2^63 ns, which is its own negation: there it is
    now - 2^63. *)
Theorem panic_burst_after_N_trades c calls now trade nonce :
  - 2 ^ 63 <= BurstWindow c < 2 ^ 63 ->
  StronglySorted Z.le (map callTime calls ++ [now]) ->
  MakerAddress trade <> ""%string ->
  let cutoff := if BurstWindow c =? - 2 ^ 63 then now - 2 ^ 63 else now - BurstWindow c in
  List.filter (hasSignal SignalPanicBurst)
    (fst (Detect (DetectAll (NewDetector c) calls) now trade nonce)) =
  if BurstCount c <=?
     Z.of_nat (length (recentCalls (MakerAddress trade) cutoff calls)) + 1
  then [mkSuspect trade SignalPanicBurst nonce None] else [].
Proof.
  intros Hw Hs Hm cutoff.
  rewrite panicBurst_filter, DetectAll_cfg, DetectAll_burstTracker.
  cbn [NewDetector cfg burstTracker].
  rewrite (proj2 (String.eqb_neq _ _) Hm). cbn [negb andb].
  pose proof (callOps_sorted calls [now] Hs) as Hs1.
  pose proof (StronglySorted_app_inv_l _ _ Hs1) as Hs2.
  pose proof (StronglySorted_snoc_le _ _ Hs1) as Hle.
  destruct (runOps_reachable (BurstWindow c) (callOps calls) Hs2) as (t & Hr & _).
  rewrite (Record_reachable _ t _ now (MakerAddress trade) Hr). cbn [fst].
  rewrite (reachable_window _ _ _ Hr), length_app. cbn [length].
  rewrite (runOps_history (BurstWindow c) (callOps calls) Hs2 (MakerAddress trade)
             (time_Add now (neg64 (BurstWindow c)))).
  - rewrite recordedAt_callOps by exact Hm.
    rewrite (cutoff_int64 now (BurstWindow c) Hw). fold cutoff.
    rewrite Nat2Z.inj_add. reflexivity.
  - eapply Forall_impl; [exact Hle|]. unfold time_Add. simpl. intros; lia.
Qed.

(** Trades at 0s and 4s, window 60s and threshold 3: a third trade at 9s
    raises the signal, a third trade at 64s does not. *)
Lemma panic_burst_after_N_trades_witness :
  let earlier := [(0, burstTrade, -1); (4 * 10 ^ 9, burstTrade, -1)] in
  List.filter (hasSignal SignalPanicBurst)
    (fst (Detect (DetectAll (NewDetector testConfig) earlier)
            (9 * 10 ^ 9) burstTrade (-1))) =
  [mkSuspect burstTrade SignalPanicBurst (-1) None]
  /\ List.filter (hasSignal SignalPanicBurst)
       (fst (Detect (DetectAll (NewDetector testConfig) earlier)
               (64 * 10 ^ 9) burstTrade (-1))) = [].
Proof.
  cbv zeta. split.
  - refine (panic_burst_after_N_trades testConfig
              [(0, burstTrade, -1); (4 * 10 ^ 9, burstTrade, -1)]
              (9 * 10 ^ 9) burstTrade (-1) _ _ _).
    + cbn [testConfig BurstWindow]. lia.
    + cbn [map callTime fst app].
      repeat first [apply SSorted_nil | apply SSorted_cons
                   | apply List.Forall_nil | apply List.Forall_cons; [lia|]].
    + discriminate.
  - refine (panic_burst_after_N_trades testConfig
              [(0, burstTrade, -1); (4 * 10 ^ 9, burstTrade, -1)]
              (64 * 10 ^ 9) burstTrade (-1) _ _ _).
    + cbn [testConfig BurstWindow]. lia.
    + cbn [map callTime fst app].
      repeat first [apply SSorted_nil | apply SSorted_cons
                   | apply List.Forall_nil | apply List.Forall_cons; [lia|]].
    + discriminate.
Defined.

(** X5, price baseline: [Detect] stores the price of every trade as the
    asset's last price, whatever it is; when that price is not above 0
    (zero, negative or NaN), the next trade on the asset raises no
    PRICE_SHOCK, whatever its own price. *)
Theorem no_shock_after_nonpositive_price d now1 t1 n1 (between : list Call) now2 t2 n2 :
  AssetID t1 = AssetID t2 ->
  Forall (fun c => AssetID (callTrade c) <> AssetID t1) between ->
  F64.gtb (Price t1) F64.zero = false ->
  let d1 := DetectAll (snd (Detect d now1 t1 n1)) between in
  lastPrices d1 !! AssetID t2 = Some (Price t1)
  /\ List.filter (hasSignal SignalPriceShock) (fst (Detect d1 now2 t2 n2)) = [].
Proof.
  intros Ha Hb Hp d1.
  assert (E : lastPrices d1 !! AssetID t2 = Some (Price t1)).
  { unfold d1. rewrite <- Ha, (DetectAll_lastPrices_other _ _ Hb), Detect_lastPrices.
    apply lookup_insert_eq. }
  split; [exact E|].
  rewrite (priceShock_filter _ _ _ _ _ E), checkPriceShock_unfold, Hp. reflexivity.
Qed.

Lemma no_shock_after_nonpositive_price_witness :
  let d1 := DetectAll (snd (Detect (NewDetector testConfig) 0 (pricedTrade "a" 0 0) (-1))) [] in
  lastPrices d1 !! "a"%string = Some F64.zero
  /\ List.filter (hasSignal SignalPriceShock)
       (fst (Detect d1 1 (pricedTrade "a" 9 (-1)) (-1))) = [].
Proof.
  refine (no_shock_after_nonpositive_price (NewDetector testConfig) 0
            (pricedTrade "a" 0 0) (-1) [] 1 (pricedTrade "a" 9 (-1)) (-1) _ _ _).
  - reflexivity.
  - constructor.
  - reflexivity.
Defined.

(** X1, enrichment pre-filter: for a trade with a maker address and a
    non-negative nonce threshold, [ShouldEnrich] holds exactly when some
    nonce makes [Detect] raise FRESH_INSIDER: skipping the nonce lookup of a
    trade it rejects loses no FRESH_INSIDER, and nonce 0 raises it for every
    trade it accepts. *)
Theorem ShouldEnrich_exact d now trade :
  MakerAddress trade <> ""%string ->
  0 <= FreshWalletNonce (cfg d) ->
  (ShouldEnrich d trade = true <->
   exists nonce,
     List.filter (hasSignal SignalFreshInsider) (fst (Detect d now trade nonce)) =
     [mkSuspect trade SignalFreshInsider nonce None])
  /\ (ShouldEnrich d trade = true ->
      List.filter (hasSignal SignalFreshInsider) (fst (Detect d now trade 0)) =
      [mkSuspect trade SignalFreshInsider 0 None])
  /\ (ShouldEnrich d trade = false ->
      forall nonce,
        List.filter (hasSignal SignalFreshInsider) (fst (Detect d now trade nonce)) = []).
Proof.
  intros Hm Hn.
  assert (Hz : ShouldEnrich d trade = true ->
               List.filter (hasSignal SignalFreshInsider) (fst (Detect d now trade 0)) =
               [mkSuspect trade SignalFreshInsider 0 None]).
  { intros H. apply ShouldEnrich_iff in H. destruct H as [Hv _].
    rewrite freshInsider_filter. unfold checkFreshInsider. rewrite Hv. cbn [Z.leb andb].
    simpl. destruct (0 <=? FreshWalletNonce (cfg d)) eqn:E; [reflexivity|].
    apply Z.leb_gt in E. lia. }
  assert (Hf : ShouldEnrich d trade = false ->
               forall nonce,
                 List.filter (hasSignal SignalFreshInsider)
                   (fst (Detect d now trade nonce)) = []).
  { intros H nonce. rewrite freshInsider_filter. unfold checkFreshInsider.
    unfold ShouldEnrich in H. rewrite (proj2 (String.eqb_neq _ _) Hm) in H.
    cbn [negb] in H. rewrite andb_true_r in H. rewrite H, andb_false_r. reflexivity. }
  split; [|split; assumption].
  split.
  - intros H. exists 0. auto.
  - intros [nonce H]. destruct (ShouldEnrich d trade) eqn:E; [reflexivity|].
    rewrite (Hf eq_refl nonce) in H. discriminate.
Qed.

Lemma ShouldEnrich_exact_witness :
  List.filter (hasSignal SignalFreshInsider)
    (fst (Detect (NewDetector testConfig) 0 whaleTrade 0)) =
  [mkSuspect whaleTrade SignalFreshInsider 0 None]
  /\ List.filter (hasSignal SignalFreshInsider)
       (fst (Detect (NewDetector testConfig) 0 burstTrade 3)) = [].
Proof.
  split.
  - refine (proj1 (proj2 (ShouldEnrich_exact (NewDetector testConfig) 0 whaleTrade _ _)) _).
    + discriminate.
    + vm_compute. discriminate.
    + reflexivity.
  - refine (proj2 (proj2 (ShouldEnrich_exact (NewDetector testConfig) 0 burstTrade _ _)) _ 3).
    + discriminate.
    + vm_compute. discriminate.
    + reflexivity.
Defined.

(** ** Ingestion: where the trades come from *)

Section ProducerFacts.

Variable time_Parse : string -> string -> option Time.
Variable clock : nat -> Time.

#[local] Arguments parseTimestamp : simpl never.
#[local] Arguments parseFloat : simpl never.
#[local] Arguments calculateValueUSD : simpl never.

(** A property of trades that the three loops producing them establish
    holds of every trade [ParseMessage] returns. *)
Variable P : Trade -> Prop.
Hypothesis P_book : forall evs n, Forall P (fst (parseBookEvents time_Parse clock evs n)).
Hypothesis P_ltp : forall data n, Forall P (fst (fst (parseLastTradePrice clock data n))).
Hypothesis P_conv : forall tds n, Forall P (fst (convertTrades time_Parse clock tds n)).

Lemma parseTrades_Forall data n : Forall P (fst (parseTrades time_Parse clock data n)).
Proof.
  unfold parseTrades, parseTradeEvent, parseSingleTrade.
  destruct data as [v|]; [|constructor].
  repeat match goal with
         | |- context [match ?x with _ => _ end] =>
             lazymatch x with
             | convertTrades _ _ _ _ => fail
             | _ => destruct x
             end
         end;
    first [apply P_conv | constructor].
Qed.

Lemma parseEnvelope_Forall data n :
  Forall P (resultTrades (parseEnvelope time_Parse clock data n)).
Proof.
  unfold parseEnvelope.
  destruct (WSMessage.Unmarshal data) as [msg|]; [|constructor].
  destruct (String.eqb (WSMessage.Type_ msg) "last_trade_price").
  - pose proof (P_ltp data n) as H.
    destruct (parseLastTradePrice clock data n) as [[trades [err|]] n'];
      [constructor|exact H].
  - destruct (String.eqb (WSMessage.Type_ msg) "trade"); [|constructor].
    pose proof (parseTrades_Forall (WSMessage.Data msg) n) as H.
    destruct (parseTrades time_Parse clock (WSMessage.Data msg) n) as [trades n']. exact H.
Qed.

Lemma parseSingleBook_Forall data n :
  Forall P (resultTrades (parseSingleBook time_Parse clock data n)).
Proof.
  unfold parseSingleBook.
  destruct (BookEvent.Unmarshal data) as [e|]; [|apply parseEnvelope_Forall].
  destruct (negb (String.eqb (BookEvent.EventType e) "")); [|apply parseEnvelope_Forall].
  pose proof (P_book [e] n) as H.
  destruct (parseBookEvents time_Parse clock [e] n) as [trades n']. exact H.
Qed.

Lemma ParseMessage_Forall data n :
  Forall P (resultTrades (ParseMessage time_Parse clock data n)).
Proof.
  unfold ParseMessage.
  destruct (BookEvent.UnmarshalSlice data) as [[|first rest]|];
    try apply parseSingleBook_Forall.
  destruct (isBookType (BookEvent.EventType first)); [|apply parseSingleBook_Forall].
  pose proof (P_book (first :: rest) n) as H.
  destruct (parseBookEvents time_Parse clock (first :: rest) n) as [trades n']. exact H.
Qed.

End ProducerFacts.

Section IdFacts.

Variable time_Parse : string -> string -> option Time.
Variable clock : nat -> Time.

#[local] Arguments parseTimestamp : simpl never.
#[local] Arguments parseFloat : simpl never.
#[local] Arguments calculateValueUSD : simpl never.

Lemma append_dash_nonempty (a b : string) : (a +:+ "-" +:+ b)%string <> ""%string.
Proof. destruct a; discriminate. Qed.

Lemma generateID_nonempty td : generateID td <> ""%string.
Proof.
  unfold generateID.
  destruct (String.eqb_spec (TradeData.ID td) ""); cbn [negb]; [|assumption].
  destruct (String.eqb_spec (TradeData.TradeID td) ""); cbn [negb]; [|assumption].
  apply append_dash_nonempty.
Qed.

Lemma parseBookEvents_ids evs :
  forall n, Forall (fun t => ID t <> ""%string) (fst (parseBookEvents time_Parse clock evs n)).
Proof.
  induction evs as [|e evs IH]; intros n; simpl; [constructor|].
  destruct (String.eqb (BookEvent.LastTradePrice e) ""
            || String.eqb (BookEvent.LastTradePrice e) "0"); [apply IH|].
  destruct (F64.eqb (parseFloat (BookEvent.LastTradePrice e)) F64.zero); [apply IH|].
  destruct (parseTimestamp time_Parse clock [BookEvent.Timestamp e] n) as [ts n1].
  specialize (IH n1). destruct (parseBookEvents time_Parse clock evs n1) as [trades n2].
  simpl in *. constructor; [discriminate|exact IH].
Qed.

Lemma parseBookEvents_bookShaped evs :
  forall n, Forall bookShaped (fst (parseBookEvents time_Parse clock evs n)).
Proof.
  induction evs as [|e evs IH]; intros n; simpl; [constructor|].
  destruct (String.eqb (BookEvent.LastTradePrice e) ""
            || String.eqb (BookEvent.LastTradePrice e) "0"); [apply IH|].
  destruct (F64.eqb (parseFloat (BookEvent.LastTradePrice e)) F64.zero); [apply IH|].
  destruct (parseTimestamp time_Parse clock [BookEvent.Timestamp e] n) as [ts n1].
  specialize (IH n1). destruct (parseBookEvents time_Parse clock evs n1) as [trades n2].
  simpl in *. constructor; [repeat split|exact IH].
Qed.

Lemma parseBookEvents_length evs :
  forall n, (length (fst (parseBookEvents time_Parse clock evs n)) <= length evs)%nat.
Proof.
  induction evs as [|e evs IH]; intros n; simpl; [lia|].
  destruct (String.eqb (BookEvent.LastTradePrice e) ""
            || String.eqb (BookEvent.LastTradePrice e) "0"); [specialize (IH n); lia|].
  destruct (F64.eqb (parseFloat (BookEvent.LastTradePrice e)) F64.zero);
    [specialize (IH n); lia|].
  destruct (parseTimestamp time_Parse clock [BookEvent.Timestamp e] n) as [ts n1].
  specialize (IH n1). destruct (parseBookEvents time_Parse clock evs n1) as [trades n2].
  simpl in *. lia.
Qed.

Lemma parseLastTradePrice_ids data n :
  Forall (fun t => ID t <> ""%string) (fst (fst (parseLastTradePrice clock data n))).
Proof.
  unfold parseLastTradePrice.
  destruct (LastTradePriceEvent.Unmarshal data) as [event|]; [|constructor].
  destruct (String.eqb (LastTradePriceEvent.AssetID event) ""); [constructor|].
  simpl. constructor; [discriminate|constructor].
Qed.

Lemma convertTrades_ids tds :
  forall n, Forall (fun t => ID t <> ""%string) (fst (convertTrades time_Parse clock tds n)).
Proof.
  induction tds as [|td tds IH]; intros n; simpl; [constructor|].
  destruct (parseTimestamp time_Parse clock _ n) as [ts n1].
  specialize (IH n1). destruct (convertTrades time_Parse clock tds n1) as [trades n2].
  simpl in *. constructor; [apply generateID_nonempty|exact IH].
Qed.

Lemma convertFetched_ids Sscanf_float l :
  Forall (fun t => ID t <> ""%string) (convertFetched Sscanf_float l).
Proof. induction l; simpl; constructor; [discriminate|assumption]. Qed.

(** What [ParseMessage] does with a payload that decodes as a single book
    event with an event type. *)
Lemma ParseMessage_single_book_result data n e :
  BookEvent.Unmarshal data = Some e ->
  BookEvent.EventType e <> ""%string ->
  ParseMessage time_Parse clock data n =
  (fst (parseBookEvents time_Parse clock [e] n), BookEvent.EventType e, None,
   snd (parseBookEvents time_Parse clock [e] n)).
Proof.
  intros Hu He.
  assert (Hs : BookEvent.UnmarshalSlice data = None).
  { unfold BookEvent.Unmarshal, BookEvent.UnmarshalSlice in *.
    destruct data as [[| | | | |ms]|]; try discriminate; try reflexivity.
    simpl in Hu. inversion Hu; subst e. exfalso. apply He. reflexivity. }
  unfold ParseMessage, parseSingleBook.
  rewrite Hs, Hu, (proj2 (String.eqb_neq _ _) He). cbn [negb].
  destruct (parseBookEvents time_Parse clock [e] n). reflexivity.
Qed.

End IdFacts.

(** X6, trade ids: every trade the websocket parser or the REST
    conversion returns has a non-empty id. *)
Theorem ingested_ids_nonempty time_Parse clock Sscanf_float :
  (forall data n,
     Forall (fun t => ID t <> ""%string) (resultTrades (ParseMessage time_Parse clock data n)))
  /\ (forall l, Forall (fun t => ID t <> ""%string) (convertFetched Sscanf_float l)).
Proof.
  split.
  - intros data n. apply ParseMessage_Forall.
    + apply parseBookEvents_ids.
    + apply parseLastTradePrice_ids.
    + apply convertTrades_ids.
  - apply convertFetched_ids.
Qed.

(** X7, book updates: a trade record written from a book event has no
    maker address and value 0, so with thresholds that are not <= 0 (what
    [Validate] demands) [Detect] can raise nothing but PRICE_SHOCK for it,
    whatever the nonce and the state of the detector. *)
Theorem book_trades_only_price_shock time_Parse clock evs n d now nonce t :
  In t (fst (parseBookEvents time_Parse clock evs n)) ->
  F64.leb (WhaleValueUSD (cfg d)) F64.zero = false ->
  F64.leb (MinValueUSD (cfg d)) F64.zero = false ->
  Forall (fun s => SignalType s = SignalPriceShock) (fst (Detect d now t nonce))
  /\ burstTracker (snd (Detect d now t nonce)) = burstTracker d.
Proof.
  intros Hin Hw Hm.
  pose proof (parseBookEvents_bookShaped time_Parse clock evs n) as Hb.
  rewrite List.Forall_forall in Hb. destruct (Hb t Hin) as (Hmk & Hv & _).
  split.
  - rewrite Detect_suspects, checkPanicBurst_suspects, checkPriceShock_unfold.
    unfold checkWhale, checkFreshInsider, F64.geb. rewrite Hmk, Hv.
    unfold F64.leb in Hw, Hm. rewrite Hw, Hm, andb_false_r. cbn [String.eqb negb andb].
    rewrite !app_nil_r.
    destruct (lastPrices d !! AssetID t) as [p|]; [|constructor].
    destruct (_ && _); constructor; [reflexivity|constructor].
  - rewrite Detect_burstTracker, Hmk. reflexivity.
Qed.

Lemma book_trades_only_price_shock_witness :
  Forall (fun s => SignalType s = SignalPriceShock)
    (fst (Detect (NewDetector testConfig) 0
            {| ID := "book-12345678-1700000000000"; MarketID := "0xabc";
               AssetID := "1234567890"; MakerAddress := ""; TakerAddress := "";
               Side := ""; Outcome := ""; Size := "book_update";
               Price := S754_finite false 8358680908399641 (-57);
               ValueUSD := F64.zero; Timestamp := 1700000000000 * 10 ^ 6;
               TradeID := ""; TransactionHash := "" |} 3)).
Proof.
  refine (proj1 (book_trades_only_price_shock noLayout clockZero
            [BookEvent.mk "0xabc" "1234567890" "1700000000000" "" "book" "0.058" [] []]
            0 (NewDetector testConfig) 0 3 _ _ _ _)).
  - vm_compute. left. reflexivity.
  - reflexivity.
  - reflexivity.
Defined.

(** X8, precedence of event_type: a payload that decodes as a single
    book event with a non-empty event type is handled as that book event,
    whatever its [type] member says: the kind returned is the event type,
    there is no error, and the trades are those of [parseBookEvents] on
    that one event (at most one, of value 0 and without maker). *)
Theorem event_type_takes_precedence time_Parse clock data n e :
  BookEvent.Unmarshal data = Some e ->
  BookEvent.EventType e <> ""%string ->
  let r := ParseMessage time_Parse clock data n in
  resultKind r = BookEvent.EventType e
  /\ resultError r = None
  /\ resultTrades r = fst (parseBookEvents time_Parse clock [e] n)
  /\ (length (resultTrades r) <= 1)%nat
  /\ Forall bookShaped (resultTrades r).
Proof.
  intros Hu He r. unfold r.
  rewrite (ParseMessage_single_book_result time_Parse clock data n e Hu He).
  unfold resultKind, resultError, resultTrades. cbn [fst snd].
  repeat split.
  - apply (parseBookEvents_length time_Parse clock [e] n).
  - apply parseBookEvents_bookShaped.
Qed.

Lemma event_type_takes_precedence_witness :
  let r := ParseMessage noLayout clockZero bothDiscriminators 0 in
  resultKind r = "last_trade_price"%string
  /\ resultError r = None
  /\ resultTrades r = [].
Proof.
  pose proof (event_type_takes_precedence noLayout clockZero bothDiscriminators 0
                (BookEvent.mk "" "tok" "" "" "last_trade_price" "" [] [])
                eq_refl ltac:(discriminate)) as H.
  cbv zeta in H. destruct H as (H1 & H2 & H3 & _).
  exact (conj H1 (conj H2 H3)).
Defined.

Section TradeEventFacts.

Variable time_Parse : string -> string -> option Time.
Variable clock : nat -> Time.

#[local] Arguments parseTimestamp : simpl never.
#[local] Arguments parseFloat : simpl never.
#[local] Arguments calculateValueUSD : simpl never.

(** What decodes as a trade event decodes as a single trade too, into
    the fields the event embeds. *)
Lemma TradeEvent_ok_TradeData v : TradeEvent.ok v = true -> TradeData.ok v = true.
Proof.
  unfold TradeEvent.ok, TradeData.ok, json.struct_ok.
  destruct v as [| | | | |ms]; try (intros; assumption).
  rewrite !forallb_forall. intros H [k x] Hin. specialize (H (k, x) Hin).
  unfold json.member_ok in *.
  destruct (existsb (json.selects k) TradeData.tags); [exact H|reflexivity].
Qed.

Lemma TradeEvent_Unmarshal_TradeData data ev :
  TradeEvent.Unmarshal data = Some ev ->
  TradeData.Unmarshal data = Some (TradeEvent.TradeData ev).
Proof.
  unfold TradeEvent.Unmarshal, TradeData.Unmarshal.
  destruct data as [v|]; [|discriminate].
  destruct (TradeEvent.ok v) eqn:E; [|discriminate].
  intros H. inversion H; subst ev. rewrite (TradeEvent_ok_TradeData v E). reflexivity.
Qed.

(** The single trade embedded in a trade event is the trade the last
    attempt finds. *)
Lemma parseTradeEvent_rule data n :
  parseTradeEvent time_Parse clock data n =
  match TradeEvent.Unmarshal data with
  | Some ev =>
      if nonempty (TradeEvent.Trades ev)
      then convertTrades time_Parse clock (TradeEvent.Trades ev) n
      else parseSingleTrade time_Parse clock data n
  | None => parseSingleTrade time_Parse clock data n
  end.
Proof.
  unfold parseTradeEvent.
  destruct (TradeEvent.Unmarshal data) as [ev|] eqn:E; [|reflexivity].
  destruct (nonempty (TradeEvent.Trades ev)); [reflexivity|].
  destruct (negb (String.eqb (TradeData.ID (TradeEvent.TradeData ev)) "")
            || negb (String.eqb (TradeData.TradeID (TradeEvent.TradeData ev)) "")) eqn:Ec;
    [|reflexivity].
  unfold parseSingleTrade. rewrite (TradeEvent_Unmarshal_TradeData data ev E), Ec.
  reflexivity.
Qed.

End TradeEventFacts.

(** X25, trade payloads: the three attempts of [parseTrades] come to one
    rule.  A non-empty array of trade records gives its records; otherwise
    an object with a non-empty [trades] array of records gives those;
    otherwise the payload read as a single record gives that one trade
    exactly when its id, trade_id or market is non-empty (the narrower test
    of the second attempt, id or trade_id, changes nothing), and no trade
    when it does not decode. *)
Theorem parseTrades_rule time_Parse clock (data : payload) (n : nat) :
  parseTrades time_Parse clock data n =
    match data with
    | None => ([], n)
    | Some _ =>
        match TradeData.UnmarshalSlice data with
        | Some ((_ :: _) as tradesArray) => convertTrades time_Parse clock tradesArray n
        | _ =>
            match TradeEvent.Unmarshal data with
            | Some ev =>
                if nonempty (TradeEvent.Trades ev)
                then convertTrades time_Parse clock (TradeEvent.Trades ev) n
                else parseSingleTrade time_Parse clock data n
            | None => parseSingleTrade time_Parse clock data n
            end
        end
    end
  /\ (forall single,
        TradeData.Unmarshal data = Some single ->
        length (fst (parseSingleTrade time_Parse clock data n)) =
        if negb (String.eqb (TradeData.ID single) "")
           || negb (String.eqb (TradeData.TradeID single) "")
           || negb (String.eqb (TradeData.Market single) "")
        then 1%nat else 0%nat)
  /\ (TradeData.Unmarshal data = None ->
      parseSingleTrade time_Parse clock data n = ([], n)).
Proof.
  split; [|split].
  - unfold parseTrades. destruct data as [v|]; [|reflexivity].
    destruct (TradeData.UnmarshalSlice (Some v)) as [[|td tds]|];
      try reflexivity; apply parseTradeEvent_rule.
  - intros single Hs. unfold parseSingleTrade. rewrite Hs.
    destruct (_ || _); [|reflexivity].
    apply (convertTrades_length time_Parse clock [single] n).
  - intros Hn. unfold parseSingleTrade. rewrite Hn. reflexivity.
Qed.

(** ** Strings for logs and display *)

Section StringFacts.

Lemma length_list_ascii (s : string) :
  String.length s = length (list_ascii_of_string s).
Proof. induction s; simpl; congruence. Qed.

Lemma list_ascii_append (a b : string) :
  list_ascii_of_string (a +:+ b) = list_ascii_of_string a ++ list_ascii_of_string b.
Proof. induction a; [reflexivity|simpl; congruence]. Qed.

Lemma string_of_list_app (a b : list ascii) :
  string_of_list_ascii (a ++ b) = (string_of_list_ascii a +:+ string_of_list_ascii b)%string.
Proof. induction a as [|c a IH]; [reflexivity|]. simpl. rewrite IH. reflexivity. Qed.

Lemma length_append (a b : string) :
  String.length (a +:+ b) = (String.length a + String.length b)%nat.
Proof. induction a; [reflexivity|simpl; congruence]. Qed.

Lemma length_slice (s : string) (i j : nat) :
  (i <= j)%nat -> (j <= String.length s)%nat ->
  String.length (gostrings.slice s i j) = (j - i)%nat.
Proof.
  intros Hij Hj. unfold gostrings.slice.
  rewrite length_list_ascii, list_ascii_of_string_of_list_ascii, length_take, length_drop.
  rewrite length_list_ascii in Hj. lia.
Qed.

Lemma slice_all (s : string) : gostrings.slice s 0 (String.length s) = s.
Proof.
  unfold gostrings.slice. rewrite drop_0, Nat.sub_0_r, length_list_ascii, firstn_all.
  apply string_of_list_ascii_of_string.
Qed.

Lemma slice_append_l (a b : string) :
  gostrings.slice (a +:+ b) 0 (String.length a) = a.
Proof.
  unfold gostrings.slice.
  rewrite drop_0, Nat.sub_0_r, list_ascii_append, length_list_ascii, take_app_length.
  apply string_of_list_ascii_of_string.
Qed.

Lemma slice_append_r (a b : string) :
  gostrings.slice (a +:+ b) (String.length a) (String.length a + String.length b) = b.
Proof.
  unfold gostrings.slice.
  rewrite list_ascii_append, !length_list_ascii, drop_app_length.
  replace (_ + _ - _)%nat with (length (list_ascii_of_string b)) by lia.
  rewrite firstn_all. apply string_of_list_ascii_of_string.
Qed.

Lemma slice_split (s : string) (i : nat) :
  (i <= String.length s)%nat ->
  (gostrings.slice s 0 i +:+ gostrings.slice s i (String.length s))%string = s.
Proof.
  intros Hi. unfold gostrings.slice.
  rewrite <- string_of_list_app, drop_0, Nat.sub_0_r, length_list_ascii.
  rewrite (take_ge (drop i _)) by (rewrite length_drop; lia).
  rewrite take_drop. apply string_of_list_ascii_of_string.
Qed.

Lemma HasSuffix_append (a suffix : string) : gostrings.HasSuffix (a +:+ suffix) suffix = true.
Proof.
  unfold gostrings.HasSuffix. rewrite length_append.
  replace (_ + _ - _)%nat with (String.length a) by lia.
  rewrite slice_append_r, String.eqb_refl, andb_true_r.
  apply Nat.leb_le. lia.
Qed.

Lemma HasSuffix_split (s suffix : string) :
  gostrings.HasSuffix s suffix = true ->
  s = (gostrings.slice s 0 (String.length s - String.length suffix) +:+ suffix)%string.
Proof.
  unfold gostrings.HasSuffix. intros H. apply andb_true_iff in H. destruct H as [Hl He].
  apply Nat.leb_le in Hl. apply String.eqb_eq in He.
  transitivity (gostrings.slice s 0 (String.length s - String.length suffix)
                +:+ gostrings.slice s (String.length s - String.length suffix)
                      (String.length s))%string.
  - symmetry. apply slice_split. lia.
  - rewrite He. reflexivity.
Qed.

Lemma HasSuffix_last (s suffix : string) (b : ascii) :
  gostrings.HasSuffix s suffix = true ->
  last (list_ascii_of_string suffix) = Some b ->
  last (list_ascii_of_string s) = Some b.
Proof.
  intros H Hb. apply HasSuffix_split in H.
  rewrite H, list_ascii_append, last_app, Hb. reflexivity.
Qed.

Lemma TrimSuffix_append (a suffix : string) : gostrings.TrimSuffix (a +:+ suffix) suffix = a.
Proof.
  unfold gostrings.TrimSuffix. rewrite HasSuffix_append, length_append.
  replace (_ + _ - _)%nat with (String.length a) by lia.
  apply slice_append_l.
Qed.

Lemma connectURL_fixed (url : string) :
  gostrings.HasSuffix url "/market" || gostrings.HasSuffix url "/user" = true ->
  connectURL url = url.
Proof.
  unfold connectURL. intros H.
  destruct (gostrings.HasSuffix url "/market"); [reflexivity|].
  destruct (gostrings.HasSuffix url "/user"); [reflexivity|discriminate].
Qed.

Lemma connectURL_channel (url : string) :
  gostrings.HasSuffix (connectURL url) "/market"
  || gostrings.HasSuffix (connectURL url) "/user" = true.
Proof.
  unfold connectURL.
  destruct (gostrings.HasSuffix url "/market") eqn:E1; cbn [negb andb].
  - rewrite E1. reflexivity.
  - destruct (gostrings.HasSuffix url "/user") eqn:E2; cbn [negb].
    + rewrite E2. apply orb_true_r.
    + rewrite HasSuffix_append. reflexivity.
Qed.

End StringFacts.

(** X9, websocket endpoint: the URL [connect] dials always ends with
    /market or /user; a configured URL that already does is dialled
    unchanged, so the rewriting is idempotent; otherwise one trailing slash,
    if any, is dropped and /market is appended. *)
Theorem connectURL_names_a_channel (url : string) :
  (gostrings.HasSuffix (connectURL url) "/market"
   || gostrings.HasSuffix (connectURL url) "/user" = true)
  /\ connectURL (connectURL url) = connectURL url
  /\ (gostrings.HasSuffix url "/market" || gostrings.HasSuffix url "/user" = true ->
      connectURL url = url)
  /\ (forall base : string,
        url = (base +:+ "/")%string -> connectURL url = (base +:+ "/market")%string)
  /\ (gostrings.HasSuffix url "/market" || gostrings.HasSuffix url "/user" = false ->
      gostrings.HasSuffix url "/" = false ->
      connectURL url = (url +:+ "/market")%string).
Proof.
  split; [apply connectURL_channel|].
  split; [apply connectURL_fixed, connectURL_channel|].
  split; [apply connectURL_fixed|].
  split.
  - intros base ->. unfold connectURL.
    assert (forall suffix b,
              last (list_ascii_of_string suffix) = Some b -> b <> "/"%char ->
              gostrings.HasSuffix (base +:+ "/") suffix = false) as Hno.
    { intros suffix b Hb Hne.
      destruct (gostrings.HasSuffix (base +:+ "/") suffix) eqn:E; [|reflexivity].
      apply (HasSuffix_last _ _ b) in E; [|exact Hb].
      rewrite list_ascii_append in E. cbn [list_ascii_of_string] in E.
      rewrite last_snoc in E. congruence. }
    rewrite (Hno "/market"%string "t"%char eq_refl ltac:(discriminate)).
    rewrite (Hno "/user"%string "r"%char eq_refl ltac:(discriminate)).
    cbn [negb andb]. rewrite TrimSuffix_append. reflexivity.
  - unfold connectURL, gostrings.TrimSuffix. intros H1 H2.
    apply orb_false_iff in H1. destruct H1 as [-> ->]. rewrite H2. reflexivity.
Qed.

Section TruncateFacts.

Lemma truncateID_length (id : string) :
  (12 < String.length id)%nat -> String.length (truncateID id) = 13%nat.
Proof.
  intros H. unfold truncateID.
  destruct (String.length id <=? 12)%nat eqn:E; [apply Nat.leb_le in E; lia|].
  rewrite !length_append, !length_slice by lia. simpl. lia.
Qed.

Lemma slice_prefix_append (a b : string) (n : nat) :
  (n <= String.length a)%nat -> gostrings.slice (a +:+ b) 0 n = gostrings.slice a 0 n.
Proof.
  intros H. unfold gostrings.slice.
  rewrite !drop_0, Nat.sub_0_r, list_ascii_append, take_app_le; [reflexivity|].
  rewrite <- length_list_ascii. exact H.
Qed.

Lemma slice_slice_prefix (s : string) (n m : nat) :
  (m <= n)%nat -> gostrings.slice (gostrings.slice s 0 n) 0 m = gostrings.slice s 0 m.
Proof.
  intros H. unfold gostrings.slice.
  rewrite !drop_0, !Nat.sub_0_r, list_ascii_of_string_of_list_ascii, take_take.
  rewrite Nat.min_l by exact H. reflexivity.
Qed.

Lemma slice_append_shift (a b : string) (i j i' j' : nat) :
  i' = (String.length a + i)%nat -> j' = (String.length a + j)%nat ->
  gostrings.slice (a +:+ b) i' j' = gostrings.slice b i j.
Proof.
  intros -> ->. unfold gostrings.slice.
  rewrite list_ascii_append, drop_app_ge by (rewrite <- length_list_ascii; lia).
  rewrite <- length_list_ascii. do 2 f_equal; [lia|f_equal; lia].
Qed.

End TruncateFacts.

(** X10, truncate: the log helper [truncate] panics exactly when its
    bound is negative; otherwise it keeps a string of at most [maxLen]
    bytes as it is and cuts a longer one to its first [maxLen] bytes
    followed by three dots, [maxLen + 3] bytes in all. *)
Theorem truncate_spec (s : string) (maxLen : Z) :
  (truncate s maxLen = None <-> maxLen < 0)
  /\ (Z.of_nat (String.length s) <= maxLen -> truncate s maxLen = Some s)
  /\ (0 <= maxLen < Z.of_nat (String.length s) ->
      exists r, truncate s maxLen = Some r
                /\ r = (gostrings.slice s 0 (Z.to_nat maxLen) +:+ "...")%string
                /\ Z.of_nat (String.length r) = maxLen + 3).
Proof.
  unfold truncate. split; [|split].
  - destruct (Z.of_nat (String.length s) <=? maxLen) eqn:E1.
    + apply Z.leb_le in E1. split; [discriminate|lia].
    + destruct (maxLen <? 0) eqn:E2.
      * apply Z.ltb_lt in E2. tauto.
      * apply Z.ltb_ge in E2. split; [discriminate|lia].
  - intros H. apply Z.leb_le in H. rewrite H. reflexivity.
  - intros [H0 H1].
    destruct (Z.of_nat (String.length s) <=? maxLen) eqn:E1; [apply Z.leb_le in E1; lia|].
    destruct (maxLen <? 0) eqn:E2; [apply Z.ltb_lt in E2; lia|].
    eexists. split; [reflexivity|]. split; [reflexivity|].
    rewrite length_append, length_slice by lia. simpl. lia.
Qed.

(** X11, truncateID: the two identical helpers [truncateID] (main.go) and
    [truncateAddress] (the UI) never lengthen their argument and never
    return more than 13 bytes; an argument longer than 12 bytes becomes its
    first 6 bytes, three dots and its last 4 bytes. *)
Theorem truncateID_bounded (id : string) :
  truncateAddress id = truncateID id
  /\ (String.length (truncateID id) <= 13)%nat
  /\ (String.length (truncateID id) <= String.length id)%nat
  /\ ((String.length id <= 12)%nat -> truncateID id = id)
  /\ ((12 < String.length id)%nat ->
      String.length (truncateID id) = 13%nat
      /\ gostrings.slice (truncateID id) 0 6 = gostrings.slice id 0 6
      /\ gostrings.slice (truncateID id) 9 13 =
         gostrings.slice id (String.length id - 4) (String.length id)).
Proof.
  split; [reflexivity|].
  destruct (Nat.le_gt_cases (String.length id) 12) as [H|H].
  - assert (E : truncateID id = id).
    { unfold truncateID. apply Nat.leb_le in H. rewrite H. reflexivity. }
    rewrite E. repeat split; try lia.
  - pose proof (truncateID_length id H) as E. rewrite E.
    repeat split; try lia.
    + unfold truncateID.
      destruct (String.length id <=? 12)%nat eqn:E'; [apply Nat.leb_le in E'; lia|].
      rewrite slice_prefix_append by (rewrite length_slice; lia).
      apply slice_slice_prefix. lia.
    + unfold truncateID.
      destruct (String.length id <=? 12)%nat eqn:E'; [apply Nat.leb_le in E'; lia|].
      set (b := gostrings.slice id (String.length id - 4) (String.length id)).
      assert (Hb : String.length b = 4%nat).
      { unfold b. rewrite length_slice by lia. lia. }
      assert (Ha : String.length (gostrings.slice id 0 6) = 6%nat).
      { rewrite length_slice by lia. reflexivity. }
      rewrite (slice_append_shift (gostrings.slice id 0 6) _ 3 7 9 13) by lia.
      rewrite (slice_append_shift "..." b 0 4 3 7) by (simpl; lia).
      rewrite <- Hb. apply slice_all.
Qed.

(** X12, maskSecret: the masked form of a secret is at most 12 bytes
    long; an empty secret reads "(not set)", one of 1 to 8 bytes reads
    "****" whatever its bytes; a longer one shows its first 4 and last 4
    bytes and nothing else: two secrets longer than 8 bytes that agree on
    those bytes have the same masked form, whatever lies between and
    however long they are. *)
Theorem maskSecret_hides (s s' : string) :
  (String.length (maskSecret s) <= 12)%nat
  /\ (s = ""%string -> maskSecret s = "(not set)"%string)
  /\ ((0 < String.length s <= 8)%nat -> maskSecret s = "****"%string)
  /\ ((8 < String.length s)%nat ->
      String.length (maskSecret s) = 12%nat
      /\ gostrings.slice (maskSecret s) 0 4 = gostrings.slice s 0 4
      /\ gostrings.slice (maskSecret s) 4 8 = "****"%string
      /\ gostrings.slice (maskSecret s) 8 12 =
         gostrings.slice s (String.length s - 4) (String.length s))
  /\ ((8 < String.length s)%nat -> (8 < String.length s')%nat ->
      gostrings.slice s 0 4 = gostrings.slice s' 0 4 ->
      gostrings.slice s (String.length s - 4) (String.length s) =
      gostrings.slice s' (String.length s' - 4) (String.length s') ->
      maskSecret s = maskSecret s').
Proof.
  assert (Hlong : forall x : string, (8 < String.length x)%nat ->
            maskSecret x = (gostrings.slice x 0 4 +:+ "****"
                            +:+ gostrings.slice x (String.length x - 4) (String.length x))%string).
  { intros x Hx. unfold maskSecret.
    destruct (String.length x <=? 8)%nat eqn:E; [apply Nat.leb_le in E; lia|reflexivity]. }
  split; [|split; [|split; [|split]]].
  - unfold maskSecret. destruct (String.length s <=? 8)%nat eqn:E.
    + destruct (String.length s =? 0)%nat; simpl; lia.
    + apply Nat.leb_gt in E. rewrite !length_append, !length_slice by lia. simpl. lia.
  - intros ->. reflexivity.
  - intros [H0 H8]. unfold maskSecret.
    apply Nat.leb_le in H8. rewrite H8.
    destruct (String.length s =? 0)%nat eqn:E; [apply Nat.eqb_eq in E; lia|reflexivity].
  - intros H. rewrite (Hlong s H).
    set (b := gostrings.slice s (String.length s - 4) (String.length s)).
    assert (Hb : String.length b = 4%nat).
    { unfold b. rewrite length_slice by lia. lia. }
    assert (Ha : String.length (gostrings.slice s 0 4) = 4%nat).
    { rewrite length_slice by lia. reflexivity. }
    repeat split.
    + rewrite !length_append, Ha, Hb. reflexivity.
    + rewrite slice_prefix_append by lia. apply slice_slice_prefix. lia.
    + rewrite (slice_append_shift (gostrings.slice s 0 4) _ 0 4 4 8) by lia.
      apply (slice_append_l "****" b).
    + rewrite (slice_append_shift (gostrings.slice s 0 4) _ 4 8 8 12) by lia.
      rewrite (slice_append_shift "****" b 0 4 4 8) by (simpl; lia).
      rewrite <- Hb. apply slice_all.
  - intros H H' E1 E2. rewrite (Hlong s H), (Hlong s' H'), E1, E2. reflexivity.
Qed.

(** ** The websocket listener *)

Section BackoffFacts.

Variable overflowed : Z.

Lemma waitBackoff_doubles (j : nat) r l :
  backoff l = Z.min (2 ^ Z.of_nat j) 60 * Second ->
  backoff (snd (waitBackoff overflowed r l)) = Z.min (2 ^ Z.of_nat (S j)) 60 * Second.
Proof.
  intros Hb. unfold waitBackoff. cbn [snd backoff]. rewrite Hb.
  destruct (Nat.le_gt_cases 6 j) as [Hj|Hj].
  - assert (60 <= 2 ^ Z.of_nat j).
    { change 60 with (Z.min 60 (2 ^ 6)).
      etransitivity; [apply Z.le_min_r|]. apply Z.pow_le_mono_r; lia. }
    assert (60 <= 2 ^ Z.of_nat (S j)).
    { etransitivity; [eassumption|]. apply Z.pow_le_mono_r; lia. }
    rewrite !Z.min_r by lia. vm_compute. reflexivity.
  - do 6 (destruct j as [|j]; [vm_compute; reflexivity|]). lia.
Qed.

Lemma runLoopPass_backoff (j : nat) outcome r l :
  backoff l = Z.min (2 ^ Z.of_nat j) 60 * Second ->
  backoff (snd (runLoopPass overflowed outcome r l)) =
  Z.min (2 ^ Z.of_nat (failureRun [outcome] j)) 60 * Second.
Proof.
  intros Hb. unfold runLoopPass.
  destruct outcome; cbn [connect failureRun closeConnection].
  - apply waitBackoff_doubles, Hb.
  - apply (waitBackoff_doubles 0). reflexivity.
  - apply (waitBackoff_doubles 0). reflexivity.
Qed.

Lemma runLoop_backoff passes :
  forall (j : nat) l,
    backoff l = Z.min (2 ^ Z.of_nat j) 60 * Second ->
    backoff (runLoop overflowed passes l) =
    Z.min (2 ^ Z.of_nat (failureRun (map fst passes) j)) 60 * Second.
Proof.
  induction passes as [|[outcome r] passes IH]; intros j l Hb; [exact Hb|].
  cbn [runLoop map fst].
  pose proof (runLoopPass_backoff j outcome r l Hb) as H1.
  destruct outcome; cbn [failureRun] in *; apply IH; exact H1.
Qed.

End BackoffFacts.

(** X13, reconnection backoff: after any series of passes of [runLoop]
    on a new listener, the stored backoff is min(2^k, 60) seconds, where k
    is the number of dials that failed in a row since the last successful
    dial, plus one if there was a successful dial (a subscription that
    fails after a successful dial resets the backoff like a completed
    connection does); whatever the random jitter values. *)
Theorem backoff_schedule overflowed (passes : list (ConnectResult * float64)) (u : string) :
  backoff (runLoop overflowed passes (NewListener u)) =
  Z.min (2 ^ Z.of_nat (failureRun (map fst passes) 0)) 60 * Second.
Proof. apply runLoop_backoff. reflexivity. Qed.

Section DispatchFacts.

Lemma received_0 (ch : Chan Trade) : received 0 ch = ch.
Proof. destruct ch. reflexivity. Qed.

(** Without a receiver at work the loop fills the room left in the
    buffer with the first trades and drops the rest. *)
Lemma dispatch_no_receiver trades :
  forall ch,
    dispatch trades [] ch =
    (drop (cap ch - length (buf ch)) trades,
     mkChan (buf ch ++ take (cap ch - length (buf ch)) trades) (cap ch)).
Proof.
  induction trades as [|t trades IH]; intros [b c]; cbn [dispatch hd tl buf cap].
  - rewrite drop_nil, take_nil, app_nil_r. reflexivity.
  - rewrite received_0. unfold trySend. cbn [buf cap].
    destruct (length b <? c)%nat eqn:E.
    + apply Nat.ltb_lt in E. rewrite IH. cbn [buf cap]. rewrite length_app. cbn [length].
      replace (c - length b)%nat with (S (c - (length b + 1)))%nat by lia.
      cbn [drop take]. rewrite <- app_assoc. reflexivity.
    + apply Nat.ltb_ge in E. rewrite IH. cbn [buf cap].
      replace (c - length b)%nat with 0%nat by lia.
      rewrite !drop_0, !take_0, app_nil_r. reflexivity.
Qed.

(** Whatever the receivers do, the buffer stays within its capacity,
    the trades dropped and the trades queued split the input in order, and
    the buffer holds what is left of the old content followed by the queued
    trades. *)
Lemma dispatch_any_receiver trades :
  forall recvs ch,
    (length (buf ch) <= cap ch)%nat ->
    let r := dispatch trades recvs ch in
    cap (snd r) = cap ch
    /\ (length (buf (snd r)) <= cap ch)%nat
    /\ sublist (fst r) trades
    /\ exists queued k,
         sublist queued trades
         /\ (length queued + length (fst r) = length trades)%nat
         /\ buf (snd r) = drop k (buf ch ++ queued).
Proof.
  induction trades as [|t trades IH]; intros recvs [b c] Hc; cbn [buf cap] in Hc.
  - cbn. repeat split; [exact Hc|constructor|].
    exists [], 0%nat. rewrite app_nil_r. repeat split. constructor.
  - cbn [dispatch]. unfold trySend, received. cbn [buf cap].
    set (r0 := hd 0%nat recvs).
    assert (Hd : (length (drop r0 b) <= c)%nat) by (rewrite length_drop; lia).
    assert (Hdrop : forall X : list Trade,
              drop r0 b ++ X = drop (Nat.min r0 (length b)) (b ++ X)).
    { intros X. destruct (Nat.le_gt_cases r0 (length b)) as [H|H].
      - rewrite Nat.min_l by lia. rewrite drop_app_le by lia. reflexivity.
      - rewrite Nat.min_r by lia. rewrite drop_app_length, drop_ge by lia. reflexivity. }
    destruct (length (drop r0 b) <? c)%nat eqn:E.
    + apply Nat.ltb_lt in E.
      specialize (IH (tl recvs) (mkChan (drop r0 b ++ [t]) c)).
      cbn [buf cap] in IH.
      destruct (dispatch trades (tl recvs) (mkChan (drop r0 b ++ [t]) c)) as [dropped ch2].
      cbn [fst snd] in *.
      destruct IH as (H1 & H2 & H3 & queued & k & H4 & H5 & H6).
      { rewrite length_app. simpl. lia. }
      repeat split; [exact H1|exact H2|apply sublist_cons, H3|].
      exists (t :: queued), (Nat.min r0 (length b) + k)%nat.
      repeat split; [apply sublist_skip, H4|simpl; lia|].
      rewrite H6, <- app_assoc. cbn [app]. rewrite Hdrop, drop_drop. reflexivity.
    + specialize (IH (tl recvs) (mkChan (drop r0 b) c) Hd). cbn [buf cap] in IH.
      destruct (dispatch trades (tl recvs) (mkChan (drop r0 b) c)) as [dropped ch2].
      cbn [fst snd] in *.
      destruct IH as (H1 & H2 & H3 & queued & k & H4 & H5 & H6).
      repeat split; [exact H1|exact H2|apply sublist_skip, H3|].
      exists queued, (Nat.min r0 (length b) + k)%nat.
      repeat split; [apply sublist_cons, H4|simpl; lia|].
      rewrite H6, Hdrop, drop_drop. reflexivity.
Qed.

End DispatchFacts.

(** X14, handleMessage: a message that fails to parse leaves the trade
    channel untouched; otherwise the parsed trades are offered in order
    without blocking: the buffer never exceeds its capacity, what is
    dropped is a subsequence of the parsed trades, and when no receiver
    runs meanwhile the first trades fill the room left and all later ones
    are dropped. *)
Theorem handleMessage_dispatch time_Parse clock data n recvs (ch : Chan Trade) :
  let parsed := ParseMessage time_Parse clock data n in
  let r := handleMessage time_Parse clock data n recvs ch in
  let dropped := fst (fst r) in
  let ch' := snd (fst r) in
  snd r = snd parsed
  /\ (resultError parsed <> None -> dropped = [] /\ ch' = ch)
  /\ (resultError parsed = None -> (length (buf ch) <= cap ch)%nat ->
      (length (buf ch') <= cap ch)%nat /\ sublist dropped (resultTrades parsed))
  /\ (resultError parsed = None -> recvs = [] ->
      dropped = drop (cap ch - length (buf ch)) (resultTrades parsed)
      /\ buf ch' = buf ch ++ take (cap ch - length (buf ch)) (resultTrades parsed)).
Proof.
  cbv zeta. unfold handleMessage, resultError, resultTrades.
  destruct (ParseMessage time_Parse clock data n) as [[[trades kind] err] n'].
  cbn [fst snd].
  destruct err as [e|].
  - cbn [fst snd]. repeat split; try congruence.
  - destruct trades as [|t trades].
    + cbn [fst snd]. repeat split; try congruence; try constructor.
      * rewrite drop_nil. reflexivity.
      * rewrite take_nil, app_nil_r. reflexivity.
    + pose proof (dispatch_any_receiver (t :: trades) recvs ch) as Hany.
      pose proof (dispatch_no_receiver (t :: trades) ch) as Hno.
      destruct (dispatch (t :: trades) recvs ch) as [dropped ch'] eqn:E.
      cbn [fst snd] in *. split; [reflexivity|]. split; [congruence|]. split.
      * intros _ Hc. destruct (Hany Hc) as (_ & H2 & H3 & _). split; assumption.
      * intros _ ->. rewrite Hno in E. inversion E; subst. split; reflexivity.
Qed.

(** ** The REST poller and the market list *)

Lemma firstOccurrences_app seen a b :
  firstOccurrences seen (a ++ b) =
  firstOccurrences seen a ++ firstOccurrences (seen ++ firstOccurrences seen a) b.
Proof.
  revert seen. induction a as [|x a IH]; intros seen; cbn [app firstOccurrences].
  - rewrite app_nil_r. reflexivity.
  - destruct (bool_decide (x ∈ seen)); [apply IH|].
    cbn [app]. rewrite IH, <- app_assoc. reflexivity.
Qed.

Lemma elem_of_firstOccurrences x l :
  forall seen, x ∈ firstOccurrences seen l <-> x ∈ l /\ x ∉ seen.
Proof.
  induction l as [|y l IH]; intros seen; cbn [firstOccurrences].
  - rewrite elem_of_nil. tauto.
  - destruct (bool_decide (y ∈ seen)) eqn:E.
    + apply bool_decide_eq_true_1 in E. rewrite IH, elem_of_cons.
      split; [tauto|]. intros [[->|H] Hn]; tauto.
    + apply bool_decide_eq_false_1 in E.
      rewrite elem_of_cons, IH, elem_of_cons, elem_of_app, list_elem_of_singleton.
      destruct (decide (x = y)) as [->|Hne]; tauto.
Qed.

Lemma NoDup_firstOccurrences l : forall seen, NoDup (firstOccurrences seen l).
Proof.
  induction l as [|y l IH]; intros seen; cbn [firstOccurrences]; [constructor|].
  destruct (bool_decide (y ∈ seen)); [apply IH|].
  constructor; [|apply IH].
  rewrite elem_of_firstOccurrences, elem_of_app, list_elem_of_singleton. tauto.
Qed.

Lemma sublist_firstOccurrences l : forall seen, sublist (firstOccurrences seen l) l.
Proof.
  induction l as [|y l IH]; intros seen; cbn [firstOccurrences]; [constructor|].
  destruct (bool_decide (y ∈ seen)); [apply sublist_cons, IH|apply sublist_skip, IH].
Qed.

Section MarketFacts.

Variable json_text : string -> payload.

Lemma addTokenIDs_spec ids :
  forall (seen : gmap string bool) (tokenIDs : list string),
    (forall x, default false (seen !! x) = true <-> x ∈ tokenIDs) ->
    (forall x, default false (fst (addTokenIDs ids seen tokenIDs) !! x) = true
               <-> x ∈ snd (addTokenIDs ids seen tokenIDs))
    /\ snd (addTokenIDs ids seen tokenIDs) = tokenIDs ++ firstOccurrences tokenIDs ids.
Proof.
  induction ids as [|id ids IH]; intros seen tokenIDs Hinv; cbn [addTokenIDs firstOccurrences].
  - cbn [fst snd]. rewrite app_nil_r. split; [exact Hinv|reflexivity].
  - destruct (default false (seen !! id)) eqn:E; cbn [negb].
    + rewrite bool_decide_eq_true_2 by (apply Hinv, E). apply IH, Hinv.
    + rewrite bool_decide_eq_false_2.
      2:{ intros Hin. apply Hinv in Hin. congruence. }
      destruct (IH (<[id := true]> seen) (tokenIDs ++ [id])) as [H1 H2].
      { intros x. rewrite elem_of_app, list_elem_of_singleton.
        destruct (decide (x = id)) as [->|Hne].
        - rewrite lookup_insert_eq. cbn. tauto.
        - rewrite lookup_insert_ne by congruence. rewrite Hinv. tauto. }
      split; [exact H1|]. rewrite H2, <- app_assoc. reflexivity.
Qed.

Lemma extractLoop_spec markets :
  forall (seen : gmap string bool) (tokenIDs : list string),
    (forall x, default false (seen !! x) = true <-> x ∈ tokenIDs) ->
    snd (extractLoop json_text markets seen tokenIDs) =
    tokenIDs ++ firstOccurrences tokenIDs (concat (map (marketTokenIDs json_text) markets)).
Proof.
  induction markets as [|m markets IH]; intros seen tokenIDs Hinv;
    cbn [extractLoop map concat].
  - cbn. rewrite app_nil_r. reflexivity.
  - unfold marketTokenIDs at 1.
    destruct (String.eqb (Market.ClobTokenIDs m) ""); [apply IH, Hinv|].
    destruct (UnmarshalStrings (json_text (Market.ClobTokenIDs m))) as [ids|];
      cbn [default]; [|apply IH, Hinv].
    destruct (addTokenIDs_spec ids seen tokenIDs Hinv) as [H1 H2].
    destruct (addTokenIDs ids seen tokenIDs) as [seen' tokenIDs']. cbn [fst snd] in *.
    rewrite (IH seen' tokenIDs' H1), H2, firstOccurrences_app, <- app_assoc. reflexivity.
Qed.

End MarketFacts.

(** X16, token ids: [ExtractTokenIDs] returns the token ids listed by
    the markets whose clobTokenIds field is non-empty and decodes as a JSON
    array of strings, each id once, in the order of first appearance; a
    market whose field does not decode contributes nothing. *)
Theorem ExtractTokenIDs_distinct json_text (markets : list Market.t) :
  let listed := concat (map (marketTokenIDs json_text) markets) in
  ExtractTokenIDs json_text markets = firstOccurrences [] listed
  /\ NoDup (ExtractTokenIDs json_text markets)
  /\ (forall x, x ∈ ExtractTokenIDs json_text markets <-> x ∈ listed)
  /\ sublist (ExtractTokenIDs json_text markets) listed.
Proof.
  intros listed.
  assert (E : ExtractTokenIDs json_text markets = firstOccurrences [] listed).
  { unfold ExtractTokenIDs. rewrite (extractLoop_spec json_text markets ∅ []).
    - reflexivity.
    - intros x. rewrite lookup_empty, elem_of_nil. cbn. split; [discriminate|tauto]. }
  rewrite E. split; [reflexivity|]. split; [apply NoDup_firstOccurrences|]. split.
  - intros x. rewrite elem_of_firstOccurrences, elem_of_nil. tauto.
  - apply sublist_firstOccurrences.
Qed.

(** X15, REST poll: a poll whose fetch fails (request error, any status
    other than 200, undecodable body) or brings no trade changes neither the
    poller nor the channel; a poll that brings trades moves lastPoll to the
    clock reading and offers the trades in order without blocking, so that
    with a full channel and no receiver at work every fetched trade is
    dropped although lastPoll has moved past them. *)
Theorem poll_outcome Sscanf_float client_Do p now recvs (ch : Chan Trade) :
  let fetched := fetchRecentTrades Sscanf_float client_Do p (lastPoll p) in
  let r := poll Sscanf_float client_Do p now recvs ch in
  let err := fst (fst (fst r)) in
  let dropped := snd (fst (fst r)) in
  let p' := snd (fst r) in
  let ch' := snd r in
  (forall status body,
     client_Do (tradesURL p (lastPoll p)) = Response status body ->
     status <> 200 -> exists e, fetched = inr e)
  /\ (forall e, fetched = inr e -> r = (Some e, [], p, ch))
  /\ (fetched = inl [] -> r = (None, [], p, ch))
  /\ (forall trades,
        fetched = inl trades -> trades <> [] ->
        err = None /\ lastPoll p' = now
        /\ baseURL p' = baseURL p /\ interval p' = interval p
        /\ ((length (buf ch) <= cap ch)%nat ->
            (length (buf ch') <= cap ch)%nat /\ sublist dropped trades)
        /\ (recvs = [] ->
            dropped = drop (cap ch - length (buf ch)) trades
            /\ buf ch' = buf ch ++ take (cap ch - length (buf ch)) trades)
        /\ (recvs = [] -> length (buf ch) = cap ch ->
            dropped = trades /\ buf ch' = buf ch)).
Proof.
  cbv zeta. unfold poll.
  split.
  { intros status body Hr Hs. unfold fetchRecentTrades. rewrite Hr.
    destruct (status =? 200) eqn:E; [apply Z.eqb_eq in E; congruence|]. cbn [negb].
    destruct (status =? 404); eexists; reflexivity. }
  split. { intros e ->. reflexivity. }
  split. { intros ->. reflexivity. }
  intros trades Hf Hne. rewrite Hf.
  destruct trades as [|t trades]; [congruence|].
  pose proof (dispatch_any_receiver (t :: trades) recvs ch) as Hany.
  pose proof (dispatch_no_receiver (t :: trades) ch) as Hno.
  destruct (dispatch (t :: trades) recvs ch) as [dropped ch'] eqn:E.
  cbn [fst snd lastPoll baseURL interval] in *.
  split; [reflexivity|]. split; [reflexivity|]. split; [reflexivity|].
  split; [reflexivity|].
  split.
  { intros Hc. destruct (Hany Hc) as (_ & H2 & H3 & _). split; assumption. }
  split.
  { intros ->. rewrite Hno in E. inversion E; subst. split; reflexivity. }
  intros -> Hfull. rewrite Hno in E. inversion E; subst.
  rewrite Hfull, Nat.sub_diag, drop_0, take_0, app_nil_r. split; reflexivity.
Qed.

(** ** Configuration *)

Section ConfigFacts.

Variable Getenv : string -> string.

Lemma getEnv_nonempty key d : d <> ""%string -> config.getEnv Getenv key d <> ""%string.
Proof.
  intros Hd. unfold config.getEnv.
  destruct (String.eqb_spec (Getenv key) ""); cbn [negb]; assumption.
Qed.

Lemma Validate_None c :
  config.Validate c = None <->
  config.PolymarketWSURL c <> ""%string
  /\ F64.leb (config.MinValueUSD c) F64.zero = false
  /\ F64.leb (config.WhaleValueUSD c) F64.zero = false
  /\ 1 <= config.WorkerCount c
  /\ 1 <= config.PrometheusPort c <= 65535.
Proof.
  unfold config.Validate.
  destruct (String.eqb_spec (config.PolymarketWSURL c) "").
  { split; [discriminate|]. intros [H _]. contradiction. }
  destruct (F64.leb (config.MinValueUSD c) F64.zero).
  { split; [discriminate|]. intros (_ & H & _). discriminate. }
  destruct (F64.leb (config.WhaleValueUSD c) F64.zero).
  { split; [discriminate|]. intros (_ & _ & H & _). discriminate. }
  destruct (config.WorkerCount c <? 1) eqn:E1.
  { apply Z.ltb_lt in E1. split; [discriminate|]. intros (_ & _ & _ & H & _). lia. }
  apply Z.ltb_ge in E1.
  destruct (config.PrometheusPort c <? 1) eqn:E2; cbn [orb].
  { apply Z.ltb_lt in E2. split; [discriminate|]. intros (_ & _ & _ & _ & H). lia. }
  apply Z.ltb_ge in E2.
  destruct (65535 <? config.PrometheusPort c) eqn:E3.
  { apply Z.ltb_lt in E3. split; [discriminate|]. intros (_ & _ & _ & _ & H). lia. }
  apply Z.ltb_ge in E3. split; [intros _|reflexivity]. repeat split; try assumption.
Qed.

Lemma geb_nan (x : float64) : F64.geb x F64.nan = false.
Proof. reflexivity. Qed.

End ConfigFacts.

(** X17, configuration: [Load] never fails for a missing websocket URL
    (an unset or empty variable takes the default); it returns a
    configuration exactly when the two value thresholds read from the
    environment are not <= 0, the worker count is at least 1 and the port
    lies in 1..65535, each variable that is unset, empty or does not parse
    counting with its default; every configuration it returns passes
    [Validate]; with nothing set it returns the defaults. *)
Theorem Load_validates (Getenv : string -> string) :
  config.Load Getenv <> inr config.ErrWSURLRequired
  /\ (forall c, config.Load Getenv = inl c <->
        c = config.fromEnv Getenv
        /\ F64.leb (config.getEnvFloat Getenv "MIN_VALUE_USD" (F64.of_Z 2000)) F64.zero = false
        /\ F64.leb (config.getEnvFloat Getenv "WHALE_VALUE_USD" (F64.of_Z 50000)) F64.zero
           = false
        /\ 1 <= config.getEnvInt Getenv "WORKER_COUNT" 5
        /\ 1 <= config.getEnvInt Getenv "PROMETHEUS_PORT" 9090 <= 65535)
  /\ (forall c, config.Load Getenv = inl c -> config.Validate c = None)
  /\ (forall key d,
        Getenv key = ""%string \/ snd (Atoi (Getenv key)) <> None ->
        config.getEnvInt Getenv key d = d)
  /\ (forall key d,
        Getenv key = ""%string \/ snd (strconv.ParseFloat (Getenv key)) <> None ->
        config.getEnvFloat Getenv key d = d)
  /\ config.Load emptyEnv = inl (config.fromEnv emptyEnv)
  /\ detectorConfig (config.fromEnv emptyEnv) = testConfig.
Proof.
  assert (Hurl : config.PolymarketWSURL (config.fromEnv Getenv) <> ""%string).
  { apply getEnv_nonempty. discriminate. }
  split; [|split; [|split; [|split; [|split; [|split]]]]].
  - unfold config.Load.
    destruct (config.Validate (config.fromEnv Getenv)) as [e|] eqn:E; [|discriminate].
    intros H. inversion H; subst e. unfold config.Validate in E.
    destruct (String.eqb_spec (config.PolymarketWSURL (config.fromEnv Getenv)) "");
      [contradiction|].
    repeat match type of E with
           | (if ?b then _ else _) = _ => destruct b; try discriminate
           end.
  - intros c. unfold config.Load.
    pose proof (Validate_None (config.fromEnv Getenv)) as HV.
    destruct (config.Validate (config.fromEnv Getenv)) as [e|].
    + split; [discriminate|]. intros (_ & H). assert (Some e = None); [|discriminate].
      apply HV. split; [exact Hurl|exact H].
    + split.
      * intros H. inversion H; subst c. split; [reflexivity|].
        apply (proj1 HV eq_refl).
      * intros [-> _]. reflexivity.
  - intros c. unfold config.Load.
    destruct (config.Validate (config.fromEnv Getenv)) as [e|] eqn:E; [discriminate|].
    intros H. inversion H; subst c. exact E.
  - intros key d [H|H]; unfold config.getEnvInt.
    + rewrite H. reflexivity.
    + destruct (negb _); [|reflexivity].
      destruct (Atoi (Getenv key)) as [v [e|]]; [reflexivity|]. contradiction.
  - intros key d [H|H]; unfold config.getEnvFloat.
    + rewrite H. reflexivity.
    + destruct (negb _); [|reflexivity].
      destruct (strconv.ParseFloat (Getenv key)) as [v [e|]]; [reflexivity|]. contradiction.
  - vm_compute. reflexivity.
  - vm_compute. reflexivity.
Qed.

(** X18, NaN thresholds: [Validate] rejects a threshold only when it is
    <= 0, which a NaN is not: a configuration stays valid when a value
    threshold is replaced by NaN, the environment that sets both to the text
    NaN loads, and a detector with a NaN minimum value never raises
    FRESH_INSIDER nor asks for enrichment, one with a NaN whale value never
    raises WHALE. *)
Theorem nan_thresholds_accepted :
  (forall c x y,
     config.Validate c = None ->
     F64.leb x F64.zero = false -> F64.leb y F64.zero = false ->
     config.Validate
       (config.mk (config.PolymarketWSURL c) (config.PolymarketRESTURL c)
          (config.TradePollInterval c) (config.AlchemyAPIKey c) (config.AlchemyURL c)
          (config.FallbackRPCURL c) x y (config.FreshWalletNonce c) (config.BurstCount c)
          (config.BurstWindow c) (config.DiscordWebhookURL c) (config.AlertBatchDuration c)
          (config.AlertCooldown c) (config.DBPath c) (config.WorkerCount c)
          (config.PrometheusPort c) (config.EnableTUI c) (config.UIRefreshRate c)
          (config.LogLevel c)) = None)
  /\ F64.leb F64.nan F64.zero = false
  /\ (exists c, config.Load nanEnv = inl c
                /\ config.MinValueUSD c = F64.nan /\ config.WhaleValueUSD c = F64.nan)
  /\ (forall d now trade nonce,
        MinValueUSD (cfg d) = F64.nan ->
        List.filter (hasSignal SignalFreshInsider) (fst (Detect d now trade nonce)) = []
        /\ ShouldEnrich d trade = false)
  /\ (forall d now trade nonce,
        WhaleValueUSD (cfg d) = F64.nan ->
        List.filter (hasSignal SignalWhale) (fst (Detect d now trade nonce)) = []).
Proof.
  split; [|split; [reflexivity|split; [|split]]].
  - intros c x y Hv Hx Hy. apply Validate_None in Hv. apply Validate_None.
    cbn. tauto.
  - eexists. split; [vm_compute; reflexivity|]. split; reflexivity.
  - intros d now trade nonce Hn. split.
    + rewrite freshInsider_filter. unfold checkFreshInsider. rewrite Hn, geb_nan.
      rewrite andb_false_r. reflexivity.
    + unfold ShouldEnrich. rewrite Hn, geb_nan. reflexivity.
  - intros d now trade nonce Hn.
    rewrite Detect_filter, checkPanicBurst_suspects, checkPriceShock_unfold.
    unfold checkWhale, checkFreshInsider. rewrite Hn, geb_nan.
    repeat match goal with
           | |- context [match ?x with Some _ => _ | None => _ end] => destruct x eqn:?
           | |- context [if ?c then _ else _] => destruct c eqn:?
           end; reflexivity.
Qed.

(** ** Metrics, the worker and the feeds *)

Lemma wrap64_succ (x : Z) : wrap64 (wrap64 x + 1) = wrap64 (x + 1).
Proof.
  unfold wrap64. f_equal.
  replace ((x + 2 ^ 63) mod 2 ^ 64 - 2 ^ 63 + 1 + 2 ^ 63)
    with ((x + 2 ^ 63) mod 2 ^ 64 + 1) by lia.
  rewrite Zplus_mod_idemp_l. f_equal. lia.
Qed.

Lemma wrap64_add_l (x y : Z) : wrap64 (wrap64 x + y) = wrap64 (x + y).
Proof.
  unfold wrap64. f_equal.
  replace ((x + 2 ^ 63) mod 2 ^ 64 - 2 ^ 63 + y + 2 ^ 63)
    with ((x + 2 ^ 63) mod 2 ^ 64 + y) by lia.
  rewrite Zplus_mod_idemp_l. f_equal. lia.
Qed.

Lemma wrap64_idem (x : Z) : wrap64 (wrap64 x) = wrap64 x.
Proof.
  rewrite <- (Z.add_0_r (wrap64 x)) at 1. rewrite wrap64_add_l, Z.add_0_r. reflexivity.
Qed.

Lemma wrap64_small (x : Z) : - 2 ^ 63 <= x < 2 ^ 63 -> wrap64 x = x.
Proof. intros H. unfold wrap64. rewrite Z.mod_small by lia. lia. Qed.

Lemma Forall_filter_keep {A : Type} (P : A -> Prop) (f : A -> bool) (l : list A) :
  Forall P l -> Forall P (List.filter f l).
Proof.
  induction 1 as [|x l Hx Hl IH]; simpl; [constructor|].
  destruct (f x); [constructor; assumption|assumption].
Qed.

Lemma StronglySorted_filter (f : Z -> bool) (l : list Z) :
  StronglySorted Z.le l -> StronglySorted Z.le (List.filter f l).
Proof.
  induction 1 as [|x l Hs IH Hf]; simpl; [constructor|].
  destruct (f x); [|exact IH]. constructor; [exact IH|].
  apply Forall_filter_keep, Hf.
Qed.

Lemma StronglySorted_filter_snoc (f : Z -> bool) (l : list Z) (x : Z) :
  StronglySorted Z.le (l ++ [x]) -> StronglySorted Z.le (List.filter f l ++ [x]).
Proof.
  induction l as [|y l IH]; simpl; intros H; [exact H|].
  inversion H as [|? ? Hs Hf]; subst.
  destruct (f y); [|apply IH, Hs]. simpl. constructor; [apply IH, Hs|].
  apply Forall_app in Hf. destruct Hf as [Hf1 Hf2].
  apply Forall_app. split; [apply Forall_filter_keep, Hf1|exact Hf2].
Qed.

(** When some entry lies after the cutoff, the loop stops at the first
    one. *)
Lemma firstAfter_stalePrefix cutoff (l : list Time) :
  forall i, Exists (fun t => cutoff < t) l ->
            firstAfter (fun t => t) cutoff i l = (i + stalePrefix cutoff l)%nat.
Proof.
  induction l as [|t l IH]; intros i Hex; [inversion Hex|].
  cbn [firstAfter stalePrefix]. unfold time_After in *.
  destruct (cutoff <? t) eqn:E; [lia|].
  apply Z.ltb_ge in E. rewrite IH; [lia|].
  inversion Hex; subst; [lia|assumption].
Qed.

(** On an ascending list that ends with an entry after the cutoff, the
    pruning keeps exactly the entries after the cutoff. *)
Lemma pruneBefore_sorted cutoff (l : list Time) (now : Time) :
  StronglySorted Z.le (l ++ [now]) -> cutoff < now ->
  pruneBefore (fun t => t) cutoff (l ++ [now]) =
  List.filter (fun t => time_After t cutoff) l ++ [now].
Proof.
  intros Hs Hnow. unfold pruneBefore.
  rewrite (firstAfter_stalePrefix cutoff (l ++ [now]) 0).
  2:{ apply List.Exists_exists. exists now. split; [|exact Hnow].
      apply in_or_app. right. left. reflexivity. }
  cbn [Nat.add].
  assert (E : drop (stalePrefix cutoff (l ++ [now])) (l ++ [now]) =
              List.filter (fun t => time_After t cutoff) l ++ [now]).
  { rewrite (drop_stalePrefix_sorted cutoff (l ++ [now]) Hs), List.filter_app.
    cbn [List.filter]. unfold time_After at 2.
    rewrite (proj2 (Z.ltb_lt cutoff now) Hnow). reflexivity. }
  destruct (stalePrefix cutoff (l ++ [now])) eqn:Es; [|exact E].
  rewrite drop_0 in E. cbn. exact E.
Qed.

Lemma countTrades_snoc m times now :
  countTrades m (times ++ [now]) = metrics.IncrementTrades (countTrades m times) now.
Proof. unfold countTrades. rewrite fold_left_app. reflexivity. Qed.

Lemma default_last_cons {A : Type} (d x : A) (l : list A) :
  default d (last (x :: l)) = default x (last l).
Proof.
  destruct l as [|y l]; [reflexivity|].
  change (last (x :: y :: l)) with (last (y :: l)).
  destruct (last (y :: l)) eqn:E; [reflexivity|].
  apply last_None in E. discriminate.
Qed.

Lemma last_cons_default {A : Type} (l : list A) :
  forall x d, List.last (x :: l) d = List.last l x.
Proof.
  induction l as [|y l IH]; intros x d; [reflexivity|].
  change (List.last (x :: y :: l) d) with (List.last (y :: l) d).
  rewrite (IH y d), (IH y x). reflexivity.
Qed.

Lemma default_last_map {A B : Type} (f : A -> B) (l : list A) :
  forall d, default (f d) (last (map f l)) = f (List.last l d).
Proof.
  induction l as [|x l IH]; intros d; [reflexivity|].
  cbn [map]. rewrite default_last_cons, IH, last_cons_default. reflexivity.
Qed.

(** One more call for a market that is already known. *)
Lemma applyActivity_lookup m c id :
  metrics.marketActivity (applyActivity m c) !! id =
  if String.eqb (acMarket c) id then
    let a := match metrics.marketActivity m !! id with
             | Some a => a
             | None => metrics.mkActivity id (acQuestion c) 0 F64.zero F64.zero [] zeroTime
             end in
    Some (metrics.mkActivity (metrics.MarketID a) (metrics.Question a)
            (wrap64 (metrics.TradeCount a + 1))
            (F64add (metrics.Volume a) (acVolume c)) (acPrice c)
            (pruneBefore metrics.Timestamp (time_Add (acNow3 c) (- (60 * Minute)))
               (metrics.PricePoints a ++ [metrics.mkPoint (acPrice c) (acNow2 c)]))
            (acNow1 c))
  else metrics.marketActivity m !! id.
Proof.
  unfold applyActivity, metrics.UpdateMarketActivity. cbn [metrics.marketActivity].
  destruct (String.eqb_spec (acMarket c) id) as [->|Hne].
  - rewrite lookup_insert_eq. reflexivity.
  - rewrite lookup_insert_ne by exact Hne. reflexivity.
Qed.

(** The activity of a known market after further calls: its id and
    question stay, its count grows by the number of calls for it. *)
Lemma activity_known calls :
  forall m id a,
    metrics.marketActivity m !! id = Some a ->
    exists a',
      metrics.marketActivity (fold_left applyActivity calls m) !! id = Some a'
      /\ metrics.MarketID a' = metrics.MarketID a
      /\ metrics.Question a' = metrics.Question a
      /\ wrap64 (metrics.TradeCount a') =
         wrap64 (metrics.TradeCount a + Z.of_nat (length (callsFor id calls)))
      /\ metrics.LastPrice a' =
         default (metrics.LastPrice a) (last (map acPrice (callsFor id calls)))
      /\ metrics.LastUpdate a' =
         default (metrics.LastUpdate a) (last (map acNow1 (callsFor id calls)))
      /\ (wrap64 (metrics.TradeCount a) = metrics.TradeCount a ->
          wrap64 (metrics.TradeCount a') = metrics.TradeCount a').
Proof.
  induction calls as [|c calls IH]; intros m id a Ha; cbn [fold_left callsFor List.filter].
  - exists a. rewrite Z.add_0_r. repeat split; [exact Ha|tauto].
  - pose proof (applyActivity_lookup m c id) as Hl. rewrite Ha in Hl. cbv zeta in Hl.
    fold (callsFor id calls).
    destruct (String.eqb (acMarket c) id).
    + destruct (IH _ _ _ Hl) as (a' & H1 & H2 & H3 & H4 & H5 & H6 & H7).
      cbn [metrics.MarketID metrics.Question metrics.TradeCount metrics.LastPrice
           metrics.LastUpdate] in *.
      exists a'. split; [exact H1|]. split; [exact H2|]. split; [exact H3|].
      split; [|split; [|split]].
      * rewrite H4, wrap64_add_l. cbn [length]. f_equal. lia.
      * rewrite H5. cbn [map]. symmetry. apply default_last_cons.
      * rewrite H6. cbn [map]. symmetry. apply default_last_cons.
      * intros _. apply H7, wrap64_idem.
    + apply IH, Hl.
Qed.

(** The deleting fold of [Cleanup] over both maps. *)
Lemma metrics_cleanup_fold cutoff (acts0 : gmap string metrics.MarketActivity)
    (hist0 : gmap string (list metrics.PricePoint)) (m : gmap string metrics.MarketActivity)
    (k : string) :
  let r := map_fold (fun id activity (acc : gmap string metrics.MarketActivity
                                           * gmap string (list metrics.PricePoint)) =>
                       if time_Before (metrics.LastUpdate activity) cutoff
                       then (delete id (fst acc), delete id (snd acc)) else acc)
                    (acts0, hist0) m in
  fst r !! k = match m !! k with
               | Some a => if time_Before (metrics.LastUpdate a) cutoff then None
                           else acts0 !! k
               | None => acts0 !! k
               end
  /\ snd r !! k = match m !! k with
                  | Some a => if time_Before (metrics.LastUpdate a) cutoff then None
                              else hist0 !! k
                  | None => hist0 !! k
                  end.
Proof.
  cbv zeta. revert m.
  apply (map_fold_weak_ind
           (fun (r : gmap string metrics.MarketActivity
                     * gmap string (list metrics.PricePoint))
                (m : gmap string metrics.MarketActivity) =>
              fst r !! k = match m !! k with
                           | Some a => if time_Before (metrics.LastUpdate a) cutoff
                                       then None else acts0 !! k
                           | None => acts0 !! k
                           end
              /\ snd r !! k = match m !! k with
                              | Some a => if time_Before (metrics.LastUpdate a) cutoff
                                          then None else hist0 !! k
                              | None => hist0 !! k
                              end)).
  - rewrite lookup_empty. split; reflexivity.
  - intros i x m r Hi [IH1 IH2].
    destruct (decide (i = k)) as [->|Hne].
    + rewrite lookup_insert_eq. rewrite Hi in IH1, IH2.
      destruct (time_Before (metrics.LastUpdate x) cutoff); cbn [fst snd].
      * split; apply lookup_delete_eq.
      * split; assumption.
    + rewrite lookup_insert_ne by exact Hne.
      destruct (time_Before (metrics.LastUpdate x) cutoff); cbn [fst snd].
      * rewrite !lookup_delete_ne by exact Hne. split; assumption.
      * split; assumption.
Qed.

(** The counters after the suspects of one trade have been forwarded. *)
Lemma forwardSuspects_spec suspects :
  forall recvs m (ch : Chan Suspect),
    let r := forwardSuspects suspects recvs m ch in
    let dropped := fst (fst r) in
    let m' := snd (fst r) in
    let ch' := snd r in
    (forall ty, wrap64 (default 0 (metrics.signalsByType m' !! ty)) =
                wrap64 (default 0 (metrics.signalsByType m !! ty) + signalCount ty suspects))
    /\ metrics.tradesTotal m' = metrics.tradesTotal m
    /\ metrics.highValueTrades m' = metrics.highValueTrades m
    /\ sublist dropped suspects
    /\ cap ch' = cap ch
    /\ ((length (buf ch) <= cap ch)%nat -> (length (buf ch') <= cap ch)%nat)
    /\ exists queued k,
         sublist queued suspects
         /\ (length queued + length dropped = length suspects)%nat
         /\ buf ch' = drop k (buf ch ++ queued).
Proof.
  induction suspects as [|s suspects IH]; intros recvs m [b c].
  - cbn. unfold signalCount. cbn. repeat split; try tauto.
    + intros ty. rewrite Z.add_0_r. reflexivity.
    + constructor.
    + exists [], 0%nat. rewrite app_nil_r. repeat split. constructor.
  - cbn [forwardSuspects]. unfold trySend, received. cbn [buf cap].
    set (r0 := hd 0%nat recvs).
    set (m1 := metrics.IncrementSignal m (SignalType s)).
    assert (Hdrop : forall X : list Suspect,
              drop r0 b ++ X = drop (Nat.min r0 (length b)) (b ++ X)).
    { intros X. destruct (Nat.le_gt_cases r0 (length b)) as [H|H].
      - rewrite Nat.min_l by lia. rewrite drop_app_le by lia. reflexivity.
      - rewrite Nat.min_r by lia. rewrite drop_app_length, drop_ge by lia. reflexivity. }
    assert (Hcount : forall ty m2,
              wrap64 (default 0 (metrics.signalsByType m2 !! ty)) =
              wrap64 (default 0 (metrics.signalsByType m1 !! ty) + signalCount ty suspects) ->
              wrap64 (default 0 (metrics.signalsByType m2 !! ty)) =
              wrap64 (default 0 (metrics.signalsByType m !! ty)
                      + signalCount ty (s :: suspects))).
    { intros ty m2 ->. unfold m1, metrics.IncrementSignal, signalCount, hasSignal.
      cbn [metrics.signalsByType List.filter].
      destruct (String.eqb_spec (SignalType s) ty) as [->|Hne].
      - rewrite lookup_insert_eq. cbn [default length].
        unfold id. rewrite wrap64_add_l. f_equal. lia.
      - rewrite lookup_insert_ne by exact Hne. reflexivity. }
    destruct (length (drop r0 b) <? c)%nat eqn:E.
    + apply Nat.ltb_lt in E.
      specialize (IH (tl recvs) m1 (mkChan (drop r0 b ++ [s]) c)).
      destruct (forwardSuspects suspects (tl recvs) m1 (mkChan (drop r0 b ++ [s]) c))
        as [[dropped m2] ch2].
      cbn [fst snd buf cap] in *.
      destruct IH as (H1 & H2 & H3 & H4 & H5 & H6 & queued & k & H7 & H8 & H9).
      split; [intros ty; apply Hcount, H1|].
      split; [exact H2|]. split; [exact H3|].
      split; [apply sublist_cons, H4|]. split; [exact H5|].
      split; [intros Hc; apply H6; rewrite length_app; simpl; lia|].
      exists (s :: queued), (Nat.min r0 (length b) + k)%nat.
      repeat split; [apply sublist_skip, H7|simpl; lia|].
      rewrite H9, <- app_assoc. cbn [app]. rewrite Hdrop, drop_drop. reflexivity.
    + specialize (IH (tl recvs) m1 (mkChan (drop r0 b) c)).
      destruct (forwardSuspects suspects (tl recvs) m1 (mkChan (drop r0 b) c))
        as [[dropped m2] ch2].
      cbn [fst snd buf cap] in *.
      destruct IH as (H1 & H2 & H3 & H4 & H5 & H6 & queued & k & H7 & H8 & H9).
      split; [intros ty; apply Hcount, H1|].
      split; [exact H2|]. split; [exact H3|].
      split; [apply sublist_skip, H4|]. split; [exact H5|].
      split; [intros Hc; apply H6; rewrite length_drop; lia|].
      exists queued, (Nat.min r0 (length b) + k)%nat.
      repeat split; [apply sublist_cons, H7|simpl; lia|].
      rewrite H9, Hdrop, drop_drop. reflexivity.
Qed.

Lemma take_app_take {A : Type} (n : nat) (a b : list A) :
  take n (a ++ take n b) = take n (a ++ b).
Proof.
  destruct (Nat.le_gt_cases (length a) n) as [H|H].
  - rewrite !take_app_ge by exact H. rewrite take_take. f_equal. f_equal. lia.
  - rewrite !take_app_le by lia. reflexivity.
Qed.

Lemma AddTrade_trades v t :
  ui.trades (ui.AddTrade v t) = take (ui.maxRows v) (t :: ui.trades v)
  /\ ui.maxRows (ui.AddTrade v t) = ui.maxRows v.
Proof.
  unfold ui.AddTrade. cbn [ui.trades ui.maxRows app]. split; [|reflexivity].
  destruct (ui.maxRows v <? length (t :: ui.trades v))%nat eqn:E; [reflexivity|].
  apply Nat.ltb_ge in E. rewrite take_ge by exact E. reflexivity.
Qed.

Lemma AddSuspect_suspects v s :
  ui.suspects (ui.AddSuspect v s) = take (ui.maxItems v) (s :: ui.suspects v)
  /\ ui.maxItems (ui.AddSuspect v s) = ui.maxItems v.
Proof.
  unfold ui.AddSuspect. cbn [ui.suspects ui.maxItems app]. split; [|reflexivity].
  destruct (ui.maxItems v <? length (s :: ui.suspects v))%nat eqn:E; [reflexivity|].
  apply Nat.ltb_ge in E. rewrite take_ge by exact E. reflexivity.
Qed.

Lemma AddTrade_run ts :
  forall v,
    (length (ui.trades v) <= ui.maxRows v)%nat ->
    ui.trades (fold_left ui.AddTrade ts v) = take (ui.maxRows v) (rev ts ++ ui.trades v)
    /\ ui.maxRows (fold_left ui.AddTrade ts v) = ui.maxRows v.
Proof.
  induction ts as [|t ts IH]; intros v Hv; cbn [fold_left rev app].
  - split; [|reflexivity]. rewrite take_ge by exact Hv. reflexivity.
  - destruct (AddTrade_trades v t) as [E1 E2].
    destruct (IH (ui.AddTrade v t)) as [H1 H2].
    { rewrite E1, E2, length_take. lia. }
    rewrite H1, H2, E1, E2. split; [|reflexivity].
    rewrite take_app_take, <- app_assoc. reflexivity.
Qed.

Lemma AddSuspect_run ss :
  forall v,
    (length (ui.suspects v) <= ui.maxItems v)%nat ->
    ui.suspects (fold_left ui.AddSuspect ss v) =
      take (ui.maxItems v) (rev ss ++ ui.suspects v)
    /\ ui.maxItems (fold_left ui.AddSuspect ss v) = ui.maxItems v.
Proof.
  induction ss as [|t ss IH]; intros v Hv; cbn [fold_left rev app].
  - split; [|reflexivity]. rewrite take_ge by exact Hv. reflexivity.
  - destruct (AddSuspect_suspects v t) as [E1 E2].
    destruct (IH (ui.AddSuspect v t)) as [H1 H2].
    { rewrite E1, E2, length_take. lia. }
    rewrite H1, H2, E1, E2. split; [|reflexivity].
    rewrite take_app_take, <- app_assoc. reflexivity.
Qed.

(** X19, trade-rate window: after a run of [IncrementTrades] calls whose
    clock readings do not go back, the tracker holds exactly the readings of
    the calls made less than 60 seconds before the last one, the last
    included, and its total counts every call (as an int64). *)
Theorem IncrementTrades_window start (times : list Time) :
  StronglySorted Z.le times ->
  let m := countTrades (metrics.NewMetricsTracker start) times in
  metrics.tradeTimestamps m =
    List.filter (fun t => time_After t (default 0 (last times) - 60 * Second)) times
  /\ metrics.tradesTotal m = wrap64 (Z.of_nat (length times))
  /\ metrics.lastTradeTime m = default zeroTime (last times).
Proof.
  induction times as [|now times IH] using rev_ind; intros Hs m.
  - repeat split.
  - unfold m. rewrite countTrades_snoc.
    pose proof (StronglySorted_app_inv_l _ _ Hs) as Hs'.
    pose proof (StronglySorted_snoc_le _ _ Hs) as Hle.
    destruct (IH Hs') as (H1 & H2 & _). clear IH.
    unfold metrics.IncrementTrades. cbn [metrics.tradeTimestamps metrics.tradesTotal
                                          metrics.lastTradeTime].
    rewrite last_snoc. cbn [default]. repeat split.
    + rewrite H1. unfold time_Add.
      replace (now + - (60 * Second)) with (now - 60 * Second) by lia.
      rewrite pruneBefore_sorted;
        [|apply StronglySorted_filter_snoc, Hs|unfold Second; lia].
      rewrite List.filter_app. cbn [List.filter]. f_equal.
      * destruct (last times) as [x|] eqn:El; cbn [default].
        -- apply filter_filter_after.
           apply last_Some in El. destruct El as [l' ->].
           apply Forall_app in Hle. destruct Hle as [_ Hx]. inversion Hx; subst.
           unfold id. lia.
        -- apply last_None in El. subst times. reflexivity.
      * unfold time_After, id.
        destruct (now - 60 * Second <? now) eqn:E; [reflexivity|].
        apply Z.ltb_ge in E. unfold Second in E. lia.
    + rewrite H2, wrap64_succ, length_app. cbn [length]. f_equal. lia.
Qed.

Lemma IncrementTrades_window_witness :
  let m := countTrades (metrics.NewMetricsTracker 0)
             [0; 10 * Second; 70 * Second; 75 * Second] in
  metrics.tradeTimestamps m = [70 * Second; 75 * Second]
  /\ metrics.tradesTotal m = 4.
Proof.
  pose proof (IncrementTrades_window 0 [0; 10 * Second; 70 * Second; 75 * Second]) as H.
  assert (Hs : StronglySorted Z.le [0; 10 * Second; 70 * Second; 75 * Second]).
  { unfold Second.
    repeat first [apply SSorted_nil | apply SSorted_cons
                 | apply List.Forall_nil | apply List.Forall_cons; [lia|]]. }
  destruct (H Hs) as (H1 & H2 & _). split; [exact H1|exact H2].
Defined.

(** X20, market activity: once a market has an activity record, further
    calls of [UpdateMarketActivity] keep its id and its question (the
    question passed later is ignored) and add one to its trade count each,
    the registration call included; the record of a market first seen in the
    calls carries the question of the first call for it, counts all calls
    for it (as an int64) and holds the price and the first clock reading of
    the last one. *)
Theorem market_activity_counts_calls m (calls : list ActivityCall) id first rest :
  metrics.marketActivity m !! id = None ->
  callsFor id calls = first :: rest ->
  exists a,
    metrics.marketActivity (fold_left applyActivity calls m) !! id = Some a
    /\ metrics.MarketID a = id
    /\ metrics.Question a = acQuestion first
    /\ metrics.TradeCount a = wrap64 (Z.of_nat (length (first :: rest)))
    /\ metrics.LastPrice a = acPrice (List.last rest first)
    /\ metrics.LastUpdate a = acNow1 (List.last rest first).
Proof.
  revert m. induction calls as [|c calls IH]; intros m Hm Hc; [discriminate|].
  cbn [fold_left]. unfold callsFor in Hc. cbn [List.filter] in Hc.
  fold (callsFor id calls) in Hc.
  pose proof (applyActivity_lookup m c id) as Hl. rewrite Hm in Hl. cbv zeta in Hl.
  destruct (String.eqb (acMarket c) id).
  - injection Hc as Ec Er. subst first.
    destruct (activity_known calls _ _ _ Hl) as (a' & H1 & H2 & H3 & H4 & H5 & H6 & H7).
    cbn [metrics.MarketID metrics.Question metrics.TradeCount metrics.LastPrice
         metrics.LastUpdate] in *.
    exists a'. rewrite Er in *. repeat split; try assumption.
    + rewrite <- (H7 (wrap64_idem _)), H4, wrap64_add_l. cbn [length]. f_equal. lia.
    + rewrite H5. apply default_last_map.
    + rewrite H6. apply (default_last_map acNow1).
  - apply IH; assumption.
Qed.

Lemma market_activity_counts_calls_witness :
  exists a,
    metrics.marketActivity
      (fold_left applyActivity
         [mkActivityCall 1 1 1 "m" "Will it rain?" F64.zero F64.zero;
          mkActivityCall 2 2 2 "m" "" (F64.of_Z 1) (F64.of_Z 10)]
         (metrics.NewMetricsTracker 0)) !! "m"%string = Some a
    /\ metrics.Question a = "Will it rain?"%string
    /\ metrics.TradeCount a = 2.
Proof.
  destruct (market_activity_counts_calls (metrics.NewMetricsTracker 0)
              [mkActivityCall 1 1 1 "m" "Will it rain?" F64.zero F64.zero;
               mkActivityCall 2 2 2 "m" "" (F64.of_Z 1) (F64.of_Z 10)]
              "m" (mkActivityCall 1 1 1 "m" "Will it rain?" F64.zero F64.zero)
              [mkActivityCall 2 2 2 "m" "" (F64.of_Z 1) (F64.of_Z 10)]
              eq_refl eq_refl) as (a & H1 & _ & H3 & H4 & _).
  exists a. split; [exact H1|]. split; [exact H3|exact H4].
Defined.

(** X21, metrics cleanup: [Cleanup] removes a market's activity record,
    and with it the market's price history, exactly when the record was last
    updated strictly before now - 60 minutes (a record updated exactly
    60 minutes ago stays); the price history of a market that has no
    activity record is never removed; the counters and the trade timestamps
    are left as they are. *)
Theorem metrics_Cleanup_removes_stale m now id :
  let cutoff := now - 60 * Minute in
  let m' := metrics.Cleanup m now in
  metrics.marketActivity m' !! id =
    match metrics.marketActivity m !! id with
    | Some a => if metrics.LastUpdate a <? cutoff then None else Some a
    | None => None
    end
  /\ metrics.priceHistory m' !! id =
     match metrics.marketActivity m !! id with
     | Some a => if metrics.LastUpdate a <? cutoff then None
                 else metrics.priceHistory m !! id
     | None => metrics.priceHistory m !! id
     end
  /\ metrics.tradesTotal m' = metrics.tradesTotal m
  /\ metrics.highValueTrades m' = metrics.highValueTrades m
  /\ metrics.signalsByType m' = metrics.signalsByType m
  /\ metrics.tradeTimestamps m' = metrics.tradeTimestamps m.
Proof.
  cbv zeta. unfold metrics.Cleanup, time_Add.
  replace (now + - (60 * Minute)) with (now - 60 * Minute) by lia.
  pose proof (metrics_cleanup_fold (now - 60 * Minute) (metrics.marketActivity m)
                (metrics.priceHistory m) (metrics.marketActivity m) id) as H.
  cbv zeta in H.
  destruct (map_fold _ _ _) as [activities histories]. cbn [fst snd] in H.
  cbn [metrics.marketActivity metrics.priceHistory metrics.tradesTotal
       metrics.highValueTrades metrics.signalsByType metrics.tradeTimestamps].
  destruct H as [H1 H2]. unfold time_Before in *.
  repeat split.
  - rewrite H1. destruct (metrics.marketActivity m !! id) as [a|] eqn:E; reflexivity.
  - exact H2.
Qed.

Section WorkerFacts.

Variable clock : nat -> Time.

Lemma processTrade_unfold c trade used capacity recvs n d m (suspectChan : Chan Suspect) :
  processTrade clock c trade used capacity recvs n d m suspectChan =
  let m1 := metrics.SetChannelBuffer
              (metrics.UpdateMarketActivity
                 (metrics.RecordPrice (metrics.IncrementTrades m (clock n))
                    (clock (n + 1)) (MarketID trade) (Price trade))
                 (clock (n + 2)) (clock (n + 3)) (clock (n + 4))
                 (MarketID trade) "" (Price trade) (ValueUSD trade))
              used capacity in
  let m2 := if F64.geb (ValueUSD trade) (config.MinValueUSD c)
            then metrics.IncrementHighValue m1 else m1 in
  let r := forwardSuspects (fst (Detect d (clock (n + 5)) trade (-1))) recvs m2 suspectChan in
  (fst (fst r), snd (Detect d (clock (n + 5)) trade (-1)), snd (fst r), snd r,
   if negb (String.eqb (MakerAddress trade) "") then (n + 6)%nat else (n + 5)%nat).
Proof.
  unfold processTrade. cbv zeta.
  destruct (Detect d (clock (n + 5)) trade (-1)) as [suspects d'].
  cbn [fst snd].
  destruct (forwardSuspects suspects recvs _ suspectChan) as [[dropped m'] ch'].
  reflexivity.
Qed.

End WorkerFacts.

(** X22, worker: for one trade the worker runs [Detect] without a nonce,
    so that no FRESH_INSIDER suspect arises; it counts the trade, counts it
    as high-value exactly when valueUsd >= minValueThreshold, and counts
    every suspect under its signal type (counters are int64) whether or not
    the suspect channel takes it; the suspects it queues and those it drops
    split the detected ones in order, and the channel stays within its
    capacity. *)
Theorem worker_counts_every_suspect clock c trade used capacity recvs n d m
    (suspectChan : Chan Suspect) :
  let r := processTrade clock c trade used capacity recvs n d m suspectChan in
  let dropped := fst (fst (fst (fst r))) in
  let d' := snd (fst (fst (fst r))) in
  let m' := snd (fst (fst r)) in
  let ch' := snd (fst r) in
  let detected := Detect d (clock (n + 5)%nat) trade (-1) in
  d' = snd detected
  /\ List.filter (hasSignal SignalFreshInsider) (fst detected) = []
  /\ metrics.tradesTotal m' = wrap64 (metrics.tradesTotal m + 1)
  /\ metrics.highValueTrades m' =
     (if F64.geb (ValueUSD trade) (config.MinValueUSD c)
      then wrap64 (metrics.highValueTrades m + 1) else metrics.highValueTrades m)
  /\ (forall ty,
        wrap64 (default 0 (metrics.signalsByType m' !! ty)) =
        wrap64 (default 0 (metrics.signalsByType m !! ty) + signalCount ty (fst detected)))
  /\ sublist dropped (fst detected)
  /\ ((length (buf suspectChan) <= cap suspectChan)%nat ->
      (length (buf ch') <= cap suspectChan)%nat)
  /\ exists queued k,
       sublist queued (fst detected)
       /\ (length queued + length dropped = length (fst detected))%nat
       /\ buf ch' = drop k (buf suspectChan ++ queued).
Proof.
  cbv zeta. rewrite processTrade_unfold. cbv zeta. cbn [fst snd].
  set (detected := Detect d (clock (n + 5)%nat) trade (-1)).
  set (m1 := metrics.SetChannelBuffer _ used capacity).
  set (m2 := if F64.geb (ValueUSD trade) (config.MinValueUSD c)
             then metrics.IncrementHighValue m1 else m1).
  pose proof (forwardSuspects_spec (fst detected) recvs m2 suspectChan) as H.
  cbv zeta in H.
  destruct H as (H1 & H2 & H3 & H4 & H5 & H6 & H7).
  assert (Hs : metrics.signalsByType m2 = metrics.signalsByType m).
  { unfold m2. destruct (F64.geb _ _); reflexivity. }
  assert (Ht : metrics.tradesTotal m2 = wrap64 (metrics.tradesTotal m + 1)).
  { unfold m2. destruct (F64.geb _ _); reflexivity. }
  assert (Hh : metrics.highValueTrades m2 =
               if F64.geb (ValueUSD trade) (config.MinValueUSD c)
               then wrap64 (metrics.highValueTrades m + 1) else metrics.highValueTrades m).
  { unfold m2. destruct (F64.geb _ _); reflexivity. }
  split; [reflexivity|].
  split; [unfold detected; rewrite freshInsider_filter; reflexivity|].
  split; [rewrite H2; exact Ht|].
  split; [rewrite H3; exact Hh|].
  split; [intros ty; rewrite H1, Hs; reflexivity|].
  split; [exact H4|]. split; [exact H6|exact H7].
Qed.

(** X23, feeds of the UI: after any series of [AddTrade] calls the live
    trades view holds the 100 most recent trades, newest first, and after
    any series of [AddSuspect] calls the alert view holds the 50 most recent
    suspects, newest first. *)
Theorem feeds_keep_most_recent (ts : list Trade) (ss : list Suspect) :
  ui.trades (fold_left ui.AddTrade ts ui.NewLiveTradesView) = take 100 (rev ts)
  /\ (length (ui.trades (fold_left ui.AddTrade ts ui.NewLiveTradesView)) <= 100)%nat
  /\ ui.suspects (fold_left ui.AddSuspect ss ui.NewSignalAlerterView) = take 50 (rev ss)
  /\ (length (ui.suspects (fold_left ui.AddSuspect ss ui.NewSignalAlerterView)) <= 50)%nat.
Proof.
  destruct (AddTrade_run ts ui.NewLiveTradesView) as [H1 _]; [simpl; lia|].
  destruct (AddSuspect_run ss ui.NewSignalAlerterView) as [H2 _]; [simpl; lia|].
  rewrite H1, H2. cbn [ui.trades ui.suspects ui.maxRows ui.maxItems
                       ui.NewLiveTradesView ui.NewSignalAlerterView].
  rewrite !app_nil_r, !length_take. repeat split; lia.
Qed.

(** ** Timestamps *)

Section DecimalFacts.

Lemma pretty_N_char_digit (d : N) :
  (d < 10)%N ->
  strconv.is_digit (pretty_N_char d) = true
  /\ strconv.digit_val (pretty_N_char d) = Z.of_N d
  /\ strconv.chr (pretty_N_char d) "+" = false
  /\ strconv.chr (pretty_N_char d) "-" = false.
Proof.
  intros H.
  assert (d = 0 \/ d = 1 \/ d = 2 \/ d = 3 \/ d = 4 \/ d = 5 \/ d = 6 \/ d = 7
          \/ d = 8 \/ d = 9)%N as Hd by lia.
  repeat (destruct Hd as [->|Hd]; [vm_compute; repeat split|]).
  subst d. vm_compute. repeat split.
Qed.

(** Reading back the digits [pretty_N_go] writes in front of [s]. *)
Lemma readDecimal_pretty_N_go (x : N) :
  forall s,
    strconv.readDecimal (list_ascii_of_string (pretty_N_go x s)) 0 =
    strconv.readDecimal (list_ascii_of_string s) (Z.of_N x).
Proof.
  induction x as [x IH] using (well_founded_induction N.lt_wf_0). intros s.
  destruct (decide (0 < x)%N) as [Hx|Hx].
  - rewrite (pretty_N_go_step x s Hx).
    assert (Hlt : (x `div` 10 < x)%N) by (apply N.div_lt; lia).
    rewrite (IH _ Hlt).
    cbn [list_ascii_of_string strconv.readDecimal].
    assert (Hm : (x `mod` 10 < 10)%N) by (apply N.mod_lt; lia).
    destruct (pretty_N_char_digit _ Hm) as (Hd & Hv & _).
    rewrite Hd, Hv. f_equal.
    rewrite (N.div_mod x 10) at 3 by lia. lia.
  - assert (x = 0%N) by lia. subst x. rewrite pretty_N_go_0. reflexivity.
Qed.

(** The digits of a positive number start with a digit. *)
Lemma pretty_N_go_head (x : N) :
  forall s, (0 < x)%N ->
    exists c rest,
      list_ascii_of_string (pretty_N_go x s) = c :: rest
      /\ strconv.chr c "+" = false /\ strconv.chr c "-" = false.
Proof.
  induction x as [x IH] using (well_founded_induction N.lt_wf_0). intros s Hx.
  rewrite (pretty_N_go_step x s Hx).
  destruct (decide (0 < x `div` 10)%N) as [Hq|Hq].
  - apply IH; [apply N.div_lt; lia|exact Hq].
  - assert (E : (x `div` 10 = 0)%N) by (apply N.le_0_r, N.nlt_ge, Hq).
    rewrite E, pretty_N_go_0.
    assert (Hm : (x `mod` 10 < 10)%N) by (apply N.mod_lt; lia).
    destruct (pretty_N_char_digit _ Hm) as (_ & _ & Hp & Hn).
    eexists _, _. cbn [list_ascii_of_string]. split; [reflexivity|]. split; assumption.
Qed.

(** [strconv.ParseInt] reads back the decimal form of every int64. *)
Lemma ParseInt_format_int (z : Z) :
  - 2 ^ 63 <= z < 2 ^ 63 -> strconv.ParseInt (format_int z) = (z, None).
Proof.
  intros Hz. unfold format_int, pretty, pretty_Z.
  destruct z as [|p|p]; [reflexivity| |].
  - unfold pretty, pretty_positive, pretty, pretty_N.
    destruct (decide (N.pos p = 0%N)) as [E|_]; [discriminate|].
    pose proof (readDecimal_pretty_N_go (N.pos p) "") as Hr.
    destruct (pretty_N_go_head (N.pos p) "" eq_refl) as (c & rest & Hl & Hp & Hn).
    unfold strconv.ParseInt. rewrite Hl in *. rewrite Hp, Hn, Hr.
    cbn [list_ascii_of_string strconv.readDecimal negb andb].
    change (Z.of_N (N.pos p)) with (Z.pos p).
    destruct (2 ^ 63 <=? Z.pos p) eqn:E; [apply Z.leb_le in E; lia|reflexivity].
  - unfold pretty, pretty_positive, pretty, pretty_N.
    destruct (decide (N.pos p = 0%N)) as [E|_]; [discriminate|].
    pose proof (readDecimal_pretty_N_go (N.pos p) "") as Hr.
    destruct (pretty_N_go_head (N.pos p) "" eq_refl) as (c & rest & Hl & Hp & Hn).
    unfold strconv.ParseInt.
    change (list_ascii_of_string ("-" +:+ pretty_N_go (N.pos p) ""))
      with ("-"%char :: list_ascii_of_string (pretty_N_go (N.pos p) "")).
    rewrite Hl in *. cbn [strconv.chr Ascii.eqb Bool.eqb]. cbn match.
    rewrite Hr. cbn [list_ascii_of_string strconv.readDecimal negb andb].
    change (Z.of_N (N.pos p)) with (Z.pos p).
    destruct (2 ^ 63 <? Z.pos p) eqn:E; [apply Z.ltb_lt in E; lia|reflexivity].
Qed.

End DecimalFacts.

(** X24, timestamp units: a timestamp given as the decimal digits of an
    int64 z decides the time of the trade, whatever values follow and
    without reading the clock: z milliseconds since the epoch when
    z > 10^12, z seconds otherwise (10^12 itself and every negative number
    count as seconds).  So the seconds form and the milliseconds form of an
    instant agree when 10^9 < seconds <= 10^12, while a positive millisecond
    count of at most 10^12 is taken for seconds, a thousand times too
    late. *)
Theorem timestamp_units time_Parse clock (z : Z) (rest : list string) (n : nat) :
  - 2 ^ 63 <= z < 2 ^ 63 ->
  parseTimestamp time_Parse clock (format_int z :: rest) n =
    (if 10 ^ 12 <? z then z * 10 ^ 6 else z * 10 ^ 9, n)
  /\ (10 ^ 9 < z <= 10 ^ 12 ->
      parseTimestamp time_Parse clock (format_int (1000 * z) :: rest) n =
      parseTimestamp time_Parse clock (format_int z :: rest) n)
  /\ (0 < z <= 10 ^ 12 ->
      fst (parseTimestamp time_Parse clock (format_int z :: rest) n) =
      1000 * time_UnixMilli z).
Proof.
  intros Hz.
  assert (Hgen : forall y, - 2 ^ 63 <= y < 2 ^ 63 ->
            parseTimestamp time_Parse clock (format_int y :: rest) n =
            (if 10 ^ 12 <? y then y * 10 ^ 6 else y * 10 ^ 9, n)).
  { intros y Hy. cbn [parseTimestamp].
    assert (Hne : String.eqb (format_int y) "" = false).
    { apply String.eqb_neq. intros E.
      pose proof (ParseInt_format_int y Hy) as Hp. rewrite E in Hp. discriminate. }
    rewrite Hne, (ParseInt_format_int y Hy).
    destruct (10 ^ 12 <? y); reflexivity. }
  split; [apply Hgen, Hz|]. split.
  - intros Hr. rewrite (Hgen z Hz), (Hgen (1000 * z)) by lia.
    destruct (10 ^ 12 <? 1000 * z) eqn:E1; [|apply Z.ltb_ge in E1; lia].
    destruct (10 ^ 12 <? z) eqn:E2; [apply Z.ltb_lt in E2; lia|].
    f_equal. lia.
  - intros Hr. rewrite (Hgen z Hz).
    destruct (10 ^ 12 <? z) eqn:E2; [apply Z.ltb_lt in E2; lia|].
    cbn [fst]. unfold time_UnixMilli. lia.
Qed.

Lemma timestamp_units_witness :
  parseTimestamp noLayout clockZero ["1700000000000"%string; "x"%string] 0 =
    (1700000000000 * 10 ^ 6, 0%nat)
  /\ parseTimestamp noLayout clockZero ["1000000000000"%string] 0 =
     (1000000000000 * 10 ^ 9, 0%nat).
Proof.
  split.
  - exact (proj1 (timestamp_units noLayout clockZero 1700000000000 ["x"%string] 0
                    ltac:(lia))).
  - exact (proj1 (timestamp_units noLayout clockZero 1000000000000 [] 0 ltac:(lia))).
Defined.
